(** * StoppableContainer: mount agent, pod builders and reconcilers

    A shallow embedding of the parts of the operator that its specification
    makes statements about, followed by the statements themselves.

    - [GoStrings]        the functions of Go's [strings], [strconv],
                         [unicode/utf8], [bufio], [filepath] and [os]
                         packages that the sources call, on byte strings;
    - [MountHelper]      [cmd/mount-helper/main.go], over a node made of
                         files, directory listings and a log of the system
                         calls issued;
    - [OverlayOptions]   the structure of an overlay option string;
    - [Meta], [Core]     the parts of apimachinery and core/v1 in use;
    - [Api]              [api/v1alpha1], with the pod template that wraps a
                         [PodSpec];
    - [ApiSingle]        [api/v1alpha1], with the pod template of one
                         container;
    - [Provider]         the PodSpec-based consumer pod builder;
    - [InternalProvider] the pod builders of [internal/provider], which
                         the controller calls;
    - [Controller]       the reconciler of the instance, over a cluster
                         made of the stored objects;
    - [Workload]         the reconciler of the workload object, over the
                         same cluster.

    The sources hold the API types and the consumer pod builder in two
    forms.  The builders in [internal/provider/consumer_pod.go] and
    [provider_pod.go] read [Template.Container]: they, and the controller
    that imports [internal/provider], belong with [ApiSingle].  The
    PodSpec-based builder reads [Template.Spec] and belongs with [Api].
    The controllers themselves do not look into the template.

    Go strings are byte sequences: the mount agent works on [list ascii];
    Kubernetes names, phases and reasons are [string]s.  Errors of the
    kernel and of the API server are inputs of the model ([fault],
    [apiFault]). *)

From Stdlib Require Import Ascii String List ZArith Lia Bool DecimalString Sorted.
From stdpp Require Import gmap strings list fin_maps.

Open Scope string_scope.
Open Scope list_scope.
Open Scope stdpp_scope.

(** Byte string of a literal. *)
Definition bytes (s : string) : list ascii := list_ascii_of_string s.

(** Go's [(T, error)] results: the error carries its message. *)
Inductive result (A : Type) : Type :=
| Ok (a : A)
| Err (msg : list ascii).
Arguments Ok {A} a.
Arguments Err {A} msg.

(* ================================================================== *)
(** * Go standard library functions used by the sources *)
(* ================================================================== *)

Module GoStrings.

(** [strings.HasPrefix(s, prefix)]. *)
Fixpoint HasPrefix (s prefix : list ascii) {struct prefix} : bool :=
  match prefix, s with
  | [], _ => true
  | _ :: _, [] => false
  | p :: prefix', c :: s' => Ascii.eqb c p && HasPrefix s' prefix'
  end.

(** [strings.Contains(s, substr)]: [substr] starts at some offset of [s]. *)
Fixpoint Contains (s substr : list ascii) : bool :=
  HasPrefix s substr ||
  match s with
  | [] => false
  | _ :: s' => Contains s' substr
  end.

(** The scan of [strings.Replace(s, old, new, -1)] for a non-empty [old]:
    left to right, each occurrence found is replaced and the search
    resumes after it.  [skip] counts the bytes of an occurrence that was
    already replaced and are still to be dropped. *)
Fixpoint replaceFrom (old new : list ascii) (skip : nat) (s : list ascii)
  : list ascii :=
  match s with
  | [] => []
  | c :: s' =>
      match skip with
      | S k => replaceFrom old new k s'
      | O =>
          if HasPrefix s old
          then new ++ replaceFrom old new (length old - 1) s'
          else c :: replaceFrom old new 0 s'
      end
  end.

(** [strings.ReplaceAll(s, old, new)].  For an empty [old] Go inserts
    [new] before every rune and at the end; that branch is written here
    byte-wise, which is what Go does on ASCII input.  Every call in the
    sources passes a non-empty literal as [old]. *)
Definition ReplaceAll (s old new : list ascii) : list ascii :=
  match old with
  | [] => new ++ flat_map (fun c => c :: new) s
  | _ :: _ => replaceFrom old new 0 s
  end.

(** The same on the strings of Kubernetes objects. *)
Definition ReplaceAllString (s old new : string) : string :=
  string_of_list_ascii (ReplaceAll (bytes s) (bytes old) (bytes new)).

(** [asciiSpace] of package [strings]: tab, line feed, vertical tab, form
    feed, carriage return and space. *)
Definition isSpace (c : ascii) : bool :=
  let n := nat_of_ascii c in
  (n =? 9)%nat || (n =? 10)%nat || (n =? 11)%nat || (n =? 12)%nat
  || (n =? 13)%nat || (n =? 32)%nat.

(** The fast path of [strings.Fields], taken when every byte is below
    [utf8.RuneSelf]: the maximal runs of bytes that are not [asciiSpace].
    [cur] is the field being read, in reverse. *)
Fixpoint fieldsFrom (cur s : list ascii) : list (list ascii) :=
  match s with
  | [] => match cur with [] => [] | _ :: _ => [rev cur] end
  | c :: s' =>
      if isSpace c
      then match cur with
           | [] => fieldsFrom [] s'
           | _ :: _ => rev cur :: fieldsFrom [] s'
           end
      else fieldsFrom (c :: cur) s'
  end.

(** [utf8.RuneSelf] and [utf8.RuneError]. *)
Definition RuneSelf : N := 128.
Definition RuneError : N := 65533.

Definition byteIn (lo hi : N) (c : ascii) : bool :=
  ((lo <=? N_of_ascii c) && (N_of_ascii c <=? hi))%N.

(** The low six bits of a continuation byte. *)
Definition contBits (c : ascii) : N := N.land (N_of_ascii c) 63.

(** A multi-byte sequence with first byte [b0]: [lo]-[hi] is the range
    of the second byte that the first byte allows ([acceptRanges]), the
    later bytes are continuation bytes.  Anything else, and a sequence cut
    short, is [RuneError] of width 1. *)
Definition decode2 (b0 : ascii) (rest : list ascii) (lo hi : N) : N * nat :=
  match rest with
  | b1 :: _ =>
      if byteIn lo hi b1
      then (N.lor (N.shiftl (N.land (N_of_ascii b0) 31) 6) (contBits b1), 2)
      else (RuneError, 1)
  | _ => (RuneError, 1)
  end.

Definition decode3 (b0 : ascii) (rest : list ascii) (lo hi : N) : N * nat :=
  match rest with
  | b1 :: b2 :: _ =>
      if byteIn lo hi b1 && byteIn 128 191 b2
      then (N.lor (N.shiftl (N.land (N_of_ascii b0) 15) 12)
              (N.lor (N.shiftl (contBits b1) 6) (contBits b2)), 3)
      else (RuneError, 1)
  | _ => (RuneError, 1)
  end.

Definition decode4 (b0 : ascii) (rest : list ascii) (lo hi : N) : N * nat :=
  match rest with
  | b1 :: b2 :: b3 :: _ =>
      if byteIn lo hi b1 && byteIn 128 191 b2 && byteIn 128 191 b3
      then (N.lor (N.shiftl (N.land (N_of_ascii b0) 7) 18)
              (N.lor (N.shiftl (contBits b1) 12)
                 (N.lor (N.shiftl (contBits b2) 6) (contBits b3))), 4)
      else (RuneError, 1)
  | _ => (RuneError, 1)
  end.

(** [utf8.DecodeRuneInString], which is also what [range] over a string
    does: the first rune of [s] and its width in bytes. *)
Definition DecodeRune (s : list ascii) : N * nat :=
  match s with
  | [] => (RuneError, 0)
  | b0 :: rest =>
      if (N_of_ascii b0 <? RuneSelf)%N then (N_of_ascii b0, 1)
      else if byteIn 194 223 b0 then decode2 b0 rest 128 191
      else if byteIn 224 224 b0 then decode3 b0 rest 160 191
      else if byteIn 225 236 b0 then decode3 b0 rest 128 191
      else if byteIn 237 237 b0 then decode3 b0 rest 128 159
      else if byteIn 238 239 b0 then decode3 b0 rest 128 191
      else if byteIn 240 240 b0 then decode4 b0 rest 144 191
      else if byteIn 241 243 b0 then decode4 b0 rest 128 191
      else if byteIn 244 244 b0 then decode4 b0 rest 128 143
      else (RuneError, 1)
  end.

(** [unicode.IsSpace]: in Latin-1 the six ASCII spaces, U+0085 and U+00A0;
    beyond it the code points of [White_Space]. *)
Definition unicodeIsSpace (r : N) : bool :=
  if (r <=? 255)%N
  then existsb (N.eqb r) [9; 10; 11; 12; 13; 32; 133; 160]%N
  else (r =? 5760)%N || ((8192 <=? r) && (r <=? 8202))%N
       || (r =? 8232)%N || (r =? 8233)%N || (r =? 8239)%N
       || (r =? 8287)%N || (r =? 12288)%N.

(** [strings.FieldsFunc(s, f)]: the maximal runs of runes that do not
    satisfy [f].  [pending] counts the bytes of the rune decoded last that
    are still to be read; [space] tells whether that rune satisfied [f],
    in which case they are dropped, and otherwise they belong to the
    field. *)
Fixpoint fieldsFuncFrom (f : N -> bool) (cur : list ascii) (pending : nat)
    (space : bool) (s : list ascii) : list (list ascii) :=
  match s with
  | [] => match cur with [] => [] | _ :: _ => [rev cur] end
  | c :: s' =>
      match pending with
      | S k =>
          if space then fieldsFuncFrom f cur k space s'
          else fieldsFuncFrom f (c :: cur) k space s'
      | O =>
          let '(r, size) := DecodeRune s in
          if f r
          then match cur with
               | [] => fieldsFuncFrom f [] (size - 1) true s'
               | _ :: _ => rev cur :: fieldsFuncFrom f [] (size - 1) true s'
               end
          else fieldsFuncFrom f (c :: cur) (size - 1) false s'
      end
  end.

Definition FieldsFunc (s : list ascii) (f : N -> bool) : list (list ascii) :=
  fieldsFuncFrom f [] 0 false s.

(** Some byte of [s] is not ASCII ([setBits >= utf8.RuneSelf]). *)
Definition nonASCII (s : list ascii) : bool :=
  existsb (fun c => (RuneSelf <=? N_of_ascii c)%N) s.

(** [strings.Fields(s)]: split at [asciiSpace] when [s] is ASCII, and at
    the runes of [unicode.IsSpace] when some byte is not. *)
Definition Fields (s : list ascii) : list (list ascii) :=
  if nonASCII s then FieldsFunc s unicodeIsSpace else fieldsFrom [] s.

(** Decimal digits of [strconv.Atoi]. *)
Definition digitValue (c : ascii) : option Z :=
  let n := nat_of_ascii c in
  if (48 <=? n)%nat && (n <=? 57)%nat then Some (Z.of_nat (n - 48)) else None.

Fixpoint parseDigits (acc : Z) (s : list ascii) : option Z :=
  match s with
  | [] => Some acc
  | c :: s' =>
      match digitValue c with
      | Some d => parseDigits (acc * 10 + d) s'
      | None => None
      end
  end.

(** [strconv.Atoi(s)] for the 64-bit [int]: an optional sign, then one or
    more decimal digits, the value within the range of [int]; [None] is
    the error result. *)
Definition Atoi (s : list ascii) : option Z :=
  let '(neg, digits) :=
    match s with
    | "-"%char :: r => (true, r)
    | "+"%char :: r => (false, r)
    | _ => (false, s)
    end in
  match digits with
  | [] => None
  | _ :: _ =>
      match parseDigits 0 digits with
      | None => None
      | Some n =>
          let v := if neg then (- n)%Z else n in
          if ((- 2 ^ 63 <=? v) && (v <=? 2 ^ 63 - 1))%Z then Some v else None
      end
  end.

(** [%d] of [fmt.Sprintf]. *)
Definition itoa (z : Z) : list ascii :=
  list_ascii_of_string (NilZero.string_of_int (Z.to_int z)).

(** Byte-wise order of Go strings ([a <= b]). *)
Fixpoint lexLeb (a b : list ascii) : bool :=
  match a, b with
  | [], _ => true
  | _ :: _, [] => false
  | x :: a', y :: b' =>
      match (N_of_ascii x ?= N_of_ascii y)%N with
      | Lt => true
      | Eq => lexLeb a' b'
      | Gt => false
      end
  end.

(** [os.DirEntry]: the name and whether it is a directory. *)
Record DirEntry : Type := mkDirEntry {
  entName : list ascii;
  entIsDir : bool
}.

Fixpoint insertEntry (e : DirEntry) (l : list DirEntry) : list DirEntry :=
  match l with
  | [] => [e]
  | e' :: l' =>
      if lexLeb (entName e) (entName e') then e :: l else e' :: insertEntry e l'
  end.

Definition nameLe (e e' : DirEntry) : Prop :=
  lexLeb (entName e) (entName e') = true.

(** [os.ReadDir] returns the entries of a directory sorted by filename. *)
Definition sortEntries (l : list DirEntry) : list DirEntry :=
  foldr insertEntry [] l.

(** [filepath.Join(dir, name)] for a clean [dir] and a plain file name (no
    separator, not "." or ".."), as every call in the agent has them: the
    names come from [os.ReadDir] or are literals. *)
Definition Join (dir name : list ascii) : list ascii :=
  dir ++ "/"%char :: name.

(** The elements of a path: the text between separators. *)
Fixpoint splitOn (sep : ascii) (cur s : list ascii) : list (list ascii) :=
  match s with
  | [] => [rev cur]
  | c :: s' =>
      if Ascii.eqb c sep then rev cur :: splitOn sep [] s'
      else splitOn sep (c :: cur) s'
  end.

(** [strings.Join(elems, sep)]. *)
Fixpoint stringsJoin (sep : list ascii) (elems : list (list ascii)) : list ascii :=
  match elems with
  | [] => []
  | [e] => e
  | e :: elems' => e ++ sep ++ stringsJoin sep elems'
  end.

(** One element in the loop of [filepath.Clean]; [out] holds the elements
    kept so far, last first.  An empty element and "." are dropped; ".."
    removes the element before it, is dropped at the root, and is kept at
    the start of a relative path. *)
Definition cleanStep (rooted : bool) (out : list (list ascii))
    (elem : list ascii) : list (list ascii) :=
  if bool_decide (elem = []) || bool_decide (elem = bytes ".") then out
  else if bool_decide (elem = bytes "..")
  then match out with
       | top :: out' =>
           if bool_decide (top = bytes "..") then elem :: out else out'
       | [] => if rooted then [] else [elem]
       end
  else elem :: out.

(** [filepath.Clean(path)] on Unix. *)
Definition Clean (path : list ascii) : list ascii :=
  match path with
  | [] => bytes "."
  | c :: _ =>
      let rooted := Ascii.eqb c "/"%char in
      let out := rev (foldl (cleanStep rooted) [] (splitOn "/"%char [] path)) in
      let body := stringsJoin (bytes "/") out in
      if rooted then "/"%char :: body
      else match body with [] => bytes "." | _ :: _ => body end
  end.

(** [filepath.Join(elem...)]: the elements from the first non-empty one
    on, joined by separators and cleaned; the empty string when every
    element is empty. *)
Fixpoint filepathJoin (elems : list (list ascii)) : list ascii :=
  match elems with
  | [] => []
  | [] :: elems' => filepathJoin elems'
  | _ :: _ => Clean (stringsJoin (bytes "/") elems)
  end.

(** The same on the strings of Kubernetes objects. *)
Definition JoinPath (elems : list string) : string :=
  string_of_list_ascii (filepathJoin (map bytes elems)).

(** [bufio.Scanner] with the default [ScanLines]: the lines of [data]
    without their line feed and without one trailing carriage return; an
    empty last line after the final line feed is not a line. *)
Definition dropCR (l : list ascii) : list ascii :=
  match rev l with
  | "013"%char :: r => rev r
  | _ => l
  end.

(** The text between line feeds, carriage returns included. *)
Fixpoint splitLines (cur data : list ascii) : list (list ascii) :=
  match data with
  | [] => match cur with [] => [] | _ :: _ => [rev cur] end
  | c :: data' =>
      if Ascii.eqb c "010"%char
      then rev cur :: splitLines [] data'
      else splitLines (c :: cur) data'
  end.

(** [bufio.MaxScanTokenSize]: the buffer of the scanner grows up to this
    size, so a line is delivered when its line feed, or the end of the
    data, lies within the first 65536 bytes after the previous line: the
    line, with its carriage return, is shorter than that.  A longer line
    ends the scan with an error, which the loop of [getOverlayfsOptions]
    does not look at. *)
Definition MaxScanTokenSize : N := 65536.

Fixpoint scannedLines (ls : list (list ascii)) : list (list ascii) :=
  match ls with
  | [] => []
  | l :: ls' =>
      if (N.of_nat (length l) <? MaxScanTokenSize)%N
      then dropCR l :: scannedLines ls'
      else []
  end.

Definition ScanLines (data : list ascii) : list (list ascii) :=
  scannedLines (splitLines [] data).

End GoStrings.

(* ================================================================== *)
(** * cmd/mount-helper/main.go *)
(* ================================================================== *)

Module MountHelper.
Import GoStrings.

(** [HostRootPath]: where the host root filesystem is mounted. *)
Definition HostRootPath : list ascii := bytes "/host".
(** [WorkBasePath]: base of the work directories (on the host). *)
Definition WorkBasePath : list ascii := bytes "/var/lib/stoppablecontainer".
Definition RequestFileName : list ascii := bytes "request.json".
Definition ReadyFileName : list ascii := bytes "ready.json".
(** [RootfsMarkerEnv]: the environment entry of rootfs containers. *)
Definition RootfsMarkerEnv : list ascii := bytes "ROOTFS_MARKER=true".

(** The literal [old] argument of [adjustPathsForHost]. *)
Definition ContainerdPath : list ascii := bytes "/var/lib/containerd".

(** [MountRequest] and [MountResponse]. *)
Record MountRequest : Type := mkMountRequest {
  PodUID : list ascii;
  Namespace : list ascii;
  Name : list ascii
}.

Record MountResponse : Type := mkMountResponse {
  Status : list ascii;
  Message : list ascii
}.

(** The system calls of the agent.  Mount flags are the kernel's bits. *)
Inductive Syscall : Type :=
| SysReadDir (path : list ascii)
| SysStat (path : list ascii)
| SysReadFile (path : list ascii)
| SysMkdirAll (path : list ascii) (mode : N)
| SysMount (source target fstype : list ascii) (flags : N) (data : list ascii)
| SysRemove (path : list ascii)
| SysWriteFile (path data : list ascii) (mode : N).

Definition MS_BIND : N := 4096.
Definition MS_REC : N := 16384.
Definition MS_SLAVE : N := 524288.

(** The node as the agent reads it, and the record of what the agent did
    to it.  [files] holds the regular files by absolute path and [dirs] the
    directory listings: they answer [os.ReadFile], [os.Stat] and
    [os.ReadDir].  [issued] is the list of the calls that changed or tried
    to change the node, oldest first; whether a call was accepted is told
    by [fault].  The two files of the rendezvous are followed through
    [files].  What directory creation and mounting do to the tree is not
    followed: it happens below <workDir>/rootfs, where the agent never
    reads, so [dirs] stays what the reads of a pass see and the effect of
    those calls is their entry in [issued]. *)
Record Host : Type := mkHost {
  files : gmap (list ascii) (list ascii);
  dirs : gmap (list ascii) (list DirEntry);
  issued : list Syscall
}.

Definition logCall (c : Syscall) (h : Host) : Host :=
  mkHost (files h) (dirs h) (issued h ++ [c]).

Section Agent.

(** What lies outside the model: [fault c] is the error message of a call
    that the kernel refuses (permissions, I/O errors, a busy mount point,
    unsupported options); [Unmarshal] and [Marshal] are [encoding/json] on
    the two message types.  The answer to a call depends on the call only:
    while one request is processed no call is issued twice with the same
    arguments. *)
Variable fault : Syscall -> option (list ascii).
Variable Unmarshal : list ascii -> result MountRequest.
Variable Marshal : MountResponse -> list ascii.

(** [os.ReadDir], [os.Stat], [os.ReadFile]. *)
Definition ReadDir (h : Host) (path : list ascii) : result (list DirEntry) :=
  match fault (SysReadDir path) with
  | Some e => Err e
  | None =>
      match dirs h !! path with
      | Some l => Ok (sortEntries l)
      | None => Err (bytes "open " ++ path ++ bytes ": no such file or directory")
      end
  end.

Definition Stat (h : Host) (path : list ascii) : bool :=
  match fault (SysStat path) with
  | Some _ => false
  | None => bool_decide (is_Some (files h !! path))
            || bool_decide (is_Some (dirs h !! path))
  end.

Definition ReadFile (h : Host) (path : list ascii) : result (list ascii) :=
  match fault (SysReadFile path) with
  | Some e => Err e
  | None =>
      match files h !! path with
      | Some d => Ok d
      | None => Err (bytes "open " ++ path ++ bytes ": no such file or directory")
      end
  end.

(** [os.MkdirAll] and [syscall.Mount]: the call is recorded, and answered
    by the kernel. *)
Definition MkdirAll (path : list ascii) (mode : N) (h : Host)
  : option (list ascii) * Host :=
  (fault (SysMkdirAll path mode), logCall (SysMkdirAll path mode) h).

Definition Mount (source target fstype : list ascii) (flags : N)
    (data : list ascii) (h : Host) : option (list ascii) * Host :=
  let c := SysMount source target fstype flags data in
  (fault c, logCall c h).

(** [os.Remove] and [os.WriteFile]: the call is recorded; unless the
    kernel refuses it the file is gone, or holds the data written. *)
Definition Remove (path : list ascii) (h : Host) : option (list ascii) * Host :=
  let h' := logCall (SysRemove path) h in
  match fault (SysRemove path) with
  | Some e => (Some e, h')
  | None =>
      match files h !! path with
      | Some _ => (None, mkHost (delete path (files h')) (dirs h') (issued h'))
      | None =>
          (Some (bytes "remove " ++ path ++ bytes ": no such file or directory"),
           h')
      end
  end.

Definition WriteFile (path data : list ascii) (mode : N) (h : Host)
  : option (list ascii) * Host :=
  let h' := logCall (SysWriteFile path data mode) h in
  match fault (SysWriteFile path data mode) with
  | Some e => (Some e, h')
  | None => (None, mkHost (<[path := data]> (files h')) (dirs h') (issued h'))
  end.

(** [findRootfsContainer]: the loop over the entries of /proc. *)
Fixpoint scanProcEntries (h : Host) (podUIDCgroup : list ascii)
    (entries : list DirEntry) : option Z :=
  match entries with
  | [] => None
  | entry :: rest =>
      match Atoi (entName entry) with
      | None => scanProcEntries h podUIDCgroup rest
      | Some pid =>
          let procDir := bytes "/proc" in
          let cgroupPath := Join (Join procDir (entName entry)) (bytes "cgroup") in
          match ReadFile h cgroupPath with
          | Err _ => scanProcEntries h podUIDCgroup rest
          | Ok cgroupData =>
              if negb (Contains cgroupData podUIDCgroup)
              then scanProcEntries h podUIDCgroup rest
              else
                let environPath :=
                  Join (Join procDir (entName entry)) (bytes "environ") in
                match ReadFile h environPath with
                | Err _ => scanProcEntries h podUIDCgroup rest
                | Ok environData =>
                    if Contains environData RootfsMarkerEnv
                    then Some pid
                    else scanProcEntries h podUIDCgroup rest
                end
          end
      end
  end.

Definition findRootfsContainer (h : Host) (podUID : list ascii) : result Z :=
  let podUIDCgroup := ReplaceAll podUID (bytes "-") (bytes "_") in
  match ReadDir h (bytes "/proc") with
  | Err e => Err (bytes "failed to read /proc: " ++ e)
  | Ok entries =>
      match scanProcEntries h podUIDCgroup entries with
      | Some pid => Ok pid
      | None => Err (bytes "rootfs container not found for pod " ++ podUID)
      end
  end.

(** The two conditions of the search, for the /proc entry [name]: its
    cgroup file contains the pod UID with dashes replaced by underscores,
    and its environ file contains the rootfs marker. *)
Definition isRootfsProcess (h : Host) (podUID name : list ascii) : Prop :=
  exists cgroupData environData,
    ReadFile h (Join (Join (bytes "/proc") name) (bytes "cgroup"))
      = Ok cgroupData /\
    Contains cgroupData (ReplaceAll podUID (bytes "-") (bytes "_")) = true /\
    ReadFile h (Join (Join (bytes "/proc") name) (bytes "environ"))
      = Ok environData /\
    Contains environData RootfsMarkerEnv = true.

(** [getOverlayfsOptions]: the loop over the lines of /proc/<pid>/mounts. *)
Fixpoint scanMountLines (lines : list (list ascii)) : option (list ascii) :=
  match lines with
  | [] => None
  | line :: rest =>
      if HasPrefix line (bytes "overlay / overlay ")
      then match Fields line with
           | _ :: _ :: _ :: opts :: _ => Some opts
           | _ => scanMountLines rest
           end
      else scanMountLines rest
  end.

Definition getOverlayfsOptions (h : Host) (pid : Z) : result (list ascii) :=
  let mountsPath := bytes "/proc/" ++ itoa pid ++ bytes "/mounts" in
  match ReadFile h mountsPath with
  | Err e => Err (bytes "failed to open mounts: " ++ e)
  | Ok data =>
      match scanMountLines (ScanLines data) with
      | Some opts => Ok opts
      | None => Err (bytes "overlayfs mount not found")
      end
  end.

(** [adjustPathsForHost]: add the /host prefix to containerd paths. *)
Definition adjustPathsForHost (opts : list ascii) : list ascii :=
  ReplaceAll opts ContainerdPath (HostRootPath ++ ContainerdPath).

(** [mountOverlay]. *)
Definition mountOverlay (target options : list ascii) (h : Host)
  : option (list ascii) * Host :=
  if negb (Contains options (bytes "lowerdir="))
     || negb (Contains options (bytes "upperdir="))
  then (Some (bytes "invalid overlay options: missing lowerdir or upperdir"), h)
  else
    match Mount (bytes "overlay") target (bytes "overlay") 0 options h with
    | (Some e, h') => (Some (bytes "mount syscall failed: " ++ e), h')
    | (None, h') => (None, h')
    end.

(** [strings.Join(errs, "; ")]. *)
Fixpoint joinErrors (errs : list (list ascii)) : list ascii :=
  match errs with
  | [] => []
  | [e] => e
  | e :: errs' => e ++ bytes "; " ++ joinErrors errs'
  end.

(** One "mkdir, then mount" step of [mountProcDevSys]; [remount] is the
    following rslave remount, whose result is dropped. *)
Definition mkdirAndMount (label : list ascii) (dir source fstype : list ascii)
    (flags : N) (remount : bool) (errs : list (list ascii)) (h : Host)
  : list (list ascii) * Host :=
  match MkdirAll dir 493 h with
  | (Some e, h1) => (errs ++ [bytes "mkdir " ++ label ++ bytes ": " ++ e], h1)
  | (None, h1) =>
      match Mount source dir fstype flags [] h1 with
      | (Some e, h2) => (errs ++ [label ++ bytes ": " ++ e], h2)
      | (None, h2) =>
          if remount
          then (errs, snd (Mount [] dir [] (N.lor MS_SLAVE MS_REC) [] h2))
          else (errs, h2)
      end
  end.

(** The optional bind mounts of /dev/pts and /dev/shm. *)
Definition bindIfPresent (hostPath dir : list ascii) (h : Host) : Host :=
  if Stat h hostPath
  then match MkdirAll dir 493 h with
       | (None, h1) => snd (Mount hostPath dir [] MS_BIND [] h1)
       | (Some _, h1) => h1
       end
  else h.

(** [mountProcDevSys]. *)
Definition mountProcDevSys (rootfsDir : list ascii) (h : Host)
  : option (list ascii) * Host :=
  let '(errs, h) :=
    mkdirAndMount (bytes "proc") (Join rootfsDir (bytes "proc"))
      (bytes "proc") (bytes "proc") 0 false [] h in
  let '(errs, h) :=
    mkdirAndMount (bytes "dev") (Join rootfsDir (bytes "dev"))
      (Join HostRootPath (bytes "dev")) [] (N.lor MS_BIND MS_REC) true errs h in
  let '(errs, h) :=
    mkdirAndMount (bytes "sys") (Join rootfsDir (bytes "sys"))
      (Join HostRootPath (bytes "sys")) [] (N.lor MS_BIND MS_REC) true errs h in
  let h := bindIfPresent (Join (Join HostRootPath (bytes "dev")) (bytes "pts"))
             (Join (Join rootfsDir (bytes "dev")) (bytes "pts")) h in
  let h := bindIfPresent (Join (Join HostRootPath (bytes "dev")) (bytes "shm"))
             (Join (Join rootfsDir (bytes "dev")) (bytes "shm")) h in
  let '(errs, h) :=
    match MkdirAll (Join rootfsDir (bytes "tmp")) 1023 h with
    | (Some e, h') => (errs ++ [bytes "mkdir tmp: " ++ e], h')
    | (None, h') => (errs, h')
    end in
  match errs with
  | [] => (None, h)
  | _ :: _ => (Some (bytes "mount errors: " ++ joinErrors errs), h)
  end.

(** [writeResponse]. *)
Definition writeResponse (workDir : list ascii) (response : MountResponse)
    (h : Host) : option (list ascii) * Host :=
  WriteFile (Join workDir ReadyFileName) (Marshal response) 420 h.

(** [processRequest].  The second component of the result is the error of
    [mountProcDevSys], which the code logs as a warning and drops. *)
Definition processRequest (workDir requestFile : list ascii) (h : Host)
  : option (list ascii) * option (list ascii) * Host :=
  match ReadFile h requestFile with
  | Err e => (Some (bytes "failed to read request: " ++ e), None, h)
  | Ok data =>
  match Unmarshal data with
  | Err e => (Some (bytes "failed to parse request: " ++ e), None, h)
  | Ok request =>
  match findRootfsContainer h (PodUID request) with
  | Err e => (Some (bytes "failed to find rootfs container: " ++ e), None, h)
  | Ok rootfsPID =>
  match getOverlayfsOptions h rootfsPID with
  | Err e => (Some (bytes "failed to get overlayfs options: " ++ e), None, h)
  | Ok overlayOpts =>
  let rootfsDir := Join workDir (bytes "rootfs") in
  match MkdirAll rootfsDir 493 h with
  | (Some e, h1) => (Some (bytes "failed to create rootfs dir: " ++ e), None, h1)
  | (None, h1) =>
  let overlayOptsHost := adjustPathsForHost overlayOpts in
  match mountOverlay rootfsDir overlayOptsHost h1 with
  | (Some e, h2) => (Some (bytes "failed to mount overlay: " ++ e), None, h2)
  | (None, h2) =>
  let '(warning, h3) := mountProcDevSys rootfsDir h2 in
  let '(_, h4) := Remove requestFile h3 in
  let '(_, h5) := writeResponse workDir (mkMountResponse (bytes "ready") []) h4 in
  (None, warning, h5)
  end end end end end end.

(** The body of the loop of [scanAndProcessRequests] for one entry of the
    work directory. *)
Definition processEntry (hostWorkBase : list ascii) (entry : DirEntry)
    (h : Host) : Host :=
  if negb (entIsDir entry) then h
  else
    let workDir := Join hostWorkBase (entName entry) in
    let requestFile := Join workDir RequestFileName in
    if negb (Stat h requestFile) then h
    else
      match processRequest workDir requestFile h with
      | (Some err, _, h') =>
          snd (writeResponse workDir (mkMountResponse (bytes "error") err) h')
      | (None, _, h') => h'
      end.

(** [filepath.Join(HostRootPath, WorkBasePath)]. *)
Definition hostWorkBase : list ascii := HostRootPath ++ WorkBasePath.


End Agent.

(** Calls that set up the rootfs tree: directory creation and mounts. *)
Definition isSetupCall (c : Syscall) : Prop :=
  match c with
  | SysMkdirAll _ _ | SysMount _ _ _ _ _ => True
  | _ => False
  end.

(** [h'] comes from [h] by setup calls only: no file was written or
    removed. *)
Definition setupOnly (h h' : Host) : Prop :=
  files h' = files h /\ dirs h' = dirs h /\
  exists calls, issued h' = issued h ++ calls /\ List.Forall isSetupCall calls.

(** A call that did not mount anything: a directory creation, or a mount
    that the kernel refused. *)
Definition mountedNothing (fault : Syscall -> option (list ascii))
    (c : Syscall) : Prop :=
  match c with
  | SysMkdirAll _ _ => True
  | SysMount _ _ _ _ _ => fault c <> None
  | _ => False
  end.

(** A byte at which a field of [strings.Fields] ends: the text [rest]
    after the field is empty or begins with white space. *)
Definition fieldEnds (rest : list ascii) : Prop :=
  match rest with
  | [] => True
  | c :: _ => isSpace c = true
  end.

(** A line of the mounts file that the loop of [getOverlayfsOptions] passes
    over: it does not begin with the overlay prefix, or nothing but white
    space follows the prefix. *)
Definition passedOver (line : list ascii) : Prop :=
  HasPrefix line (bytes "overlay / overlay ") = false \/
  exists ws, line = bytes "overlay / overlay " ++ ws /\
             List.Forall (fun c => isSpace c = true) ws.

(** A line from which the loop takes [opts]: the first run of bytes that
    are not white space after the overlay prefix.  (White space is that of
    ASCII, [isSpace]: the two notions describe the loop on lines that are
    ASCII.) *)
Definition optionsOf (line opts : list ascii) : Prop :=
  exists ws rest,
    line = bytes "overlay / overlay " ++ ws ++ opts ++ rest /\
    List.Forall (fun c => isSpace c = true) ws /\
    opts <> [] /\
    List.Forall (fun c => isSpace c = false) opts /\
    fieldEnds rest.





(** The outcome of one entry of the work directory that holds a request
    (spec 4.4, phase F).  [h] is the node before, [h'] the node after
    [processEntry].  Ready: after directory creations and mounts, among
    them the overlay mount with [options], which the kernel accepted, the
    agent has removed request.json and then written the ready response;
    unless the kernel refused these two calls, request.json is gone and
    ready.json holds the response. *)
Definition committedReady (fault : Syscall -> option (list ascii))
    (Marshal : MountResponse -> list ascii) (h h' : Host)
    (workDir options : list ascii) : Prop :=
  let requestFile := Join workDir RequestFileName in
  let readyFile := Join workDir ReadyFileName in
  let overlay :=
    SysMount (bytes "overlay") (Join workDir (bytes "rootfs")) (bytes "overlay")
      0 options in
  let ready :=
    SysWriteFile readyFile (Marshal (mkMountResponse (bytes "ready") [])) 420 in
  (exists calls,
     issued h' = issued h ++ calls ++ [SysRemove requestFile; ready] /\
     List.Forall isSetupCall calls /\
     In overlay calls /\ fault overlay = None) /\
  (fault (SysRemove requestFile) = None -> fault ready = None ->
   files h' !! requestFile = None /\
   files h' !! readyFile = Some (Marshal (mkMountResponse (bytes "ready") []))).

(** Error: the agent has mounted nothing, has not removed request.json,
    which is as it was, and has written the error response with the
    message [msg] as its last call; unless the kernel refused that call,
    ready.json holds the response. *)
Definition reportedError (fault : Syscall -> option (list ascii))
    (Marshal : MountResponse -> list ascii) (h h' : Host)
    (workDir msg : list ascii) : Prop :=
  let requestFile := Join workDir RequestFileName in
  let readyFile := Join workDir ReadyFileName in
  let error :=
    SysWriteFile readyFile (Marshal (mkMountResponse (bytes "error") msg)) 420 in
  (exists calls,
     issued h' = issued h ++ calls ++ [error] /\
     List.Forall (mountedNothing fault) calls) /\
  files h' !! requestFile = files h !! requestFile /\
  (fault error = None ->
   files h' !! readyFile = Some (Marshal (mkMountResponse (bytes "error") msg))).

(** The text [encoding/json] produces for a [MountResponse] whose strings
    need no escaping, and the request of [TestMountRequest_JSON]. *)
Definition quote : ascii := "034"%char.

Definition jsonField (key value : list ascii) : list ascii :=
  quote :: key ++ quote :: ":"%char :: quote :: value ++ [quote].

Definition plainMarshal (r : MountResponse) : list ascii :=
  bytes "{" ++ jsonField (bytes "status") (Status r)
  ++ match Message r with
     | [] => []
     | _ :: _ => ","%char :: jsonField (bytes "message") (Message r)
     end
  ++ bytes "}".

Definition exampleRequestJSON : list ascii :=
  bytes "{" ++ jsonField (bytes "pod_uid") (bytes "abc-123")
  ++ ","%char :: jsonField (bytes "namespace") (bytes "default")
  ++ ","%char :: jsonField (bytes "name") (bytes "test") ++ bytes "}".

(** [json.Unmarshal] on [exampleRequestJSON]; no other input is decoded in
    the examples. *)
Definition exampleUnmarshal (data : list ascii) : result MountRequest :=
  if bool_decide (data = exampleRequestJSON)
  then Ok (mkMountRequest (bytes "abc-123") (bytes "default") (bytes "test"))
  else Err (bytes "unexpected end of JSON input").

(** A node with one pending request, of instance demo in namespace
    default, and the rootfs container of its pod running as process 4242.
    [mountsText] is the text of /proc/4242/mounts. *)
Definition demoWorkDir : list ascii :=
  bytes "/host/var/lib/stoppablecontainer/demo".

Definition demoEntry : DirEntry := mkDirEntry (bytes "demo") true.

Definition demoHost (mountsText : list ascii) : Host :=
  mkHost
    (list_to_map
       [(Join demoWorkDir RequestFileName, exampleRequestJSON);
        (bytes "/proc/4242/cgroup",
         bytes "0::/kubepods.slice/kubepods-podabc_123.slice/cri-1.scope");
        (bytes "/proc/4242/environ", bytes "PATH=/bin ROOTFS_MARKER=true");
        (bytes "/proc/4242/mounts", mountsText)])
    (list_to_map
       [(bytes "/proc", [mkDirEntry (bytes "4242") true]);
        (hostWorkBase, [demoEntry])])
    [].

Definition lineFeed : list ascii := ["010"%char].

Definition fullOverlayMounts : list ascii :=
  bytes "proc /proc proc rw 0 0" ++ lineFeed
  ++ bytes "overlay / overlay rw,relatime,lowerdir=/var/lib/containerd/l1:/var/lib/containerd/l2,upperdir=/var/lib/containerd/u,workdir=/var/lib/containerd/w 0 0"
  ++ lineFeed.

(** An overlay line with a no-break space (U+00A0, the bytes 194 160)
    inside its fourth field. *)
Definition nbspMounts : list ascii :=
  bytes "overlay / overlay rw,lowerdir=/a" ++ ["194"%char; "160"%char]
  ++ bytes "b,upperdir=/u 0 0" ++ lineFeed.

(** An overlay line without [workdir=]. *)
Definition noWorkdirMounts : list ascii :=
  bytes "overlay / overlay rw,lowerdir=/var/lib/containerd/l1,upperdir=/var/lib/containerd/u 0 0"
  ++ lineFeed.

(** The kernel refuses to mount proc; every other call succeeds. *)
Definition procMountFails (c : Syscall) : option (list ascii) :=
  match c with
  | SysMount _ _ fstype _ _ =>
      if bool_decide (fstype = bytes "proc")
      then Some (bytes "operation not permitted")
      else None
  | _ => None
  end.

(** A node on which two processes, 9 and 10, both carry the cgroup of pod
    abc-123 and the rootfs marker. *)
Definition noFault : Syscall -> option (list ascii) := fun _ => None.

Definition twoRootfsProc : list DirEntry :=
  [mkDirEntry (bytes "9") true; mkDirEntry (bytes "10") true;
   mkDirEntry (bytes "self") true].

Definition twoRootfsHost : Host :=
  mkHost
    (list_to_map
       [(bytes "/proc/9/cgroup", bytes "0::/kubepods.slice/kubepods-podabc_123.slice/cri-1.scope");
        (bytes "/proc/9/environ", bytes "PATH=/bin ROOTFS_MARKER=true");
        (bytes "/proc/10/cgroup", bytes "0::/kubepods.slice/kubepods-podabc_123.slice/cri-1.scope");
        (bytes "/proc/10/environ", bytes "PATH=/bin ROOTFS_MARKER=true")])
    (list_to_map [(bytes "/proc", twoRootfsProc)])
    [].

End MountHelper.

(* ================================================================== *)
(** * Vocabulary of the specification: overlay option strings *)
(* ================================================================== *)

(** The option string of an overlay mount (spec 4.4, phase B) is a
    comma-separated list of options; an option is a bare flag or
    [key=value], where the value of [lowerdir] is a colon-separated list of
    paths.  [OverlayOptions] is that structure and [renderOptions] its
    text. *)
Module OverlayOptions.

Inductive option_ : Type :=
| Flag (name : list ascii)
| KeyPaths (key : list ascii) (paths : list (list ascii)).

Fixpoint joinWith (sep : ascii) (l : list (list ascii)) : list ascii :=
  match l with
  | [] => []
  | [x] => x
  | x :: l' => x ++ sep :: joinWith sep l'
  end.

Definition renderOption (o : option_) : list ascii :=
  match o with
  | Flag name => name
  | KeyPaths key paths => key ++ "="%char :: joinWith ":"%char paths
  end.

Definition renderOptions (os : list option_) : list ascii :=
  joinWith ","%char (map renderOption os).

Definition mapPaths (f : list ascii -> list ascii) (o : option_) : option_ :=
  match o with
  | Flag name => Flag name
  | KeyPaths key paths => KeyPaths key (map f paths)
  end.

(** What the specification says happens to one path: the host-root
    prefix is put in front of a path that begins with the
    container-runtime prefix, any other path is left as it is. *)
Definition rewritePath (p : list ascii) : list ascii :=
  if GoStrings.HasPrefix p MountHelper.ContainerdPath
  then MountHelper.HostRootPath ++ p
  else p.

(** The container-runtime prefix occurs in [p] at its start or not at
    all. *)
Definition prefixOnlyAtStart (p : list ascii) : Prop :=
  GoStrings.Contains (tail p) MountHelper.ContainerdPath = false.

Definition wellPlaced (o : option_) : Prop :=
  match o with
  | Flag name => GoStrings.Contains name MountHelper.ContainerdPath = false
  | KeyPaths key paths =>
      GoStrings.Contains key MountHelper.ContainerdPath = false /\
      Forall prefixOnlyAtStart paths
  end.

(** The "mixed paths" input of [TestAdjustPathsForHost], with a flag. *)
Definition exampleOptions : list option_ :=
  [KeyPaths (bytes "lowerdir")
     [bytes "/var/lib/containerd/a"; bytes "/other/b"];
   KeyPaths (bytes "upperdir") [bytes "/var/lib/containerd/c"];
   Flag (bytes "rw")].

End OverlayOptions.

(* ================================================================== *)
(** * apimachinery: object metadata and status conditions *)
(* ================================================================== *)

Module Meta.

Inductive ConditionStatus : Type :=
| ConditionTrue
| ConditionFalse
| ConditionUnknown.

(** [metav1.Condition].  [LastTransitionTime] is wall-clock time and is
    left out. *)
Record Condition : Type := mkCondition {
  condType : string;
  condStatus : ConditionStatus;
  condObservedGeneration : Z;
  condReason : string;
  condMessage : string
}.

(** [meta.FindStatusCondition]: the first condition of the type. *)
Fixpoint FindStatusCondition (conditions : list Condition)
    (conditionType : string) : option Condition :=
  match conditions with
  | [] => None
  | c :: rest =>
      if String.eqb (condType c) conditionType
      then Some c
      else FindStatusCondition rest conditionType
  end.

(** [meta.SetStatusCondition]: the condition of that type is updated in
    place, or the new condition is appended when there is none. *)
Fixpoint SetStatusCondition (conditions : list Condition)
    (newCondition : Condition) : list Condition :=
  match conditions with
  | [] => [newCondition]
  | c :: rest =>
      if String.eqb (condType c) (condType newCondition)
      then mkCondition (condType c) (condStatus newCondition)
             (condObservedGeneration newCondition) (condReason newCondition)
             (condMessage newCondition) :: rest
      else c :: SetStatusCondition rest newCondition
  end.

Record OwnerReference : Type := mkOwnerReference {
  ownerAPIVersion : string;
  ownerKind : string;
  ownerName : string;
  ownerUID : string;
  ownerController : option bool;
  ownerBlockOwnerDeletion : option bool
}.

(** [metav1.ObjectMeta]; [Deleting] stands for a non-zero
    [DeletionTimestamp]. *)
Record ObjectMeta : Type := mkObjectMeta {
  Name : string;
  Namespace : string;
  UID : string;
  Generation : Z;
  Deleting : bool;
  Finalizers : list string;
  Labels : gmap string string;
  Annotations : gmap string string;
  OwnerReferences : list OwnerReference
}.

(** [controllerutil.ContainsFinalizer], [AddFinalizer], [RemoveFinalizer]. *)
Definition ContainsFinalizer (m : ObjectMeta) (finalizer : string) : bool :=
  existsb (String.eqb finalizer) (Finalizers m).

Definition setFinalizers (m : ObjectMeta) (fs : list string) : ObjectMeta :=
  mkObjectMeta (Name m) (Namespace m) (UID m) (Generation m) (Deleting m) fs
    (Labels m) (Annotations m) (OwnerReferences m).

Definition AddFinalizer (m : ObjectMeta) (finalizer : string) : ObjectMeta :=
  if ContainsFinalizer m finalizer then m
  else setFinalizers m (Finalizers m ++ [finalizer]).

Definition RemoveFinalizer (m : ObjectMeta) (finalizer : string) : ObjectMeta :=
  setFinalizers m
    (List.filter (fun f => negb (String.eqb f finalizer)) (Finalizers m)).

End Meta.

(* ================================================================== *)
(** * The parts of core/v1 that the builders and reconcilers touch *)
(* ================================================================== *)

(** Fields that the code only copies are kept as opaque text ([...Rest]). *)
Module Core.

Record EnvVar : Type := mkEnvVar {
  envName : string;
  envValue : string;
  envValueFrom : string
}.

Record VolumeMount : Type := mkVolumeMount {
  vmName : string;
  vmMountPath : string;
  vmMountPropagation : option string;
  vmRest : string
}.

Inductive VolumeSource : Type :=
| HostPathSource (path type : string)
| EmptyDirSource
| OtherSource (source : string).

Record Volume : Type := mkVolume {
  volName : string;
  volSource : VolumeSource
}.

Record Capabilities : Type := mkCapabilities {
  capAdd : list string;
  capDrop : list string
}.

Record SecurityContext : Type := mkSecurityContext {
  scCapabilities : option Capabilities;
  scRunAsGroup : option Z;
  scPrivileged : option bool;
  scRest : string
}.

Inductive ProbeHandler : Type :=
| ExecAction (command : list string)
| OtherHandler (handler : string).

Record Probe : Type := mkProbe {
  probeHandler : ProbeHandler;
  probeInitialDelaySeconds : Z;
  probePeriodSeconds : Z
}.

Record ResourceRequirements : Type := mkResourceRequirements {
  resRequests : list (string * string);
  resLimits : list (string * string)
}.

Record Container : Type := mkContainer {
  cName : string;
  cImage : string;
  cImagePullPolicy : string;
  cCommand : list string;
  cArgs : list string;
  cWorkingDir : string;
  cEnv : list EnvVar;
  cVolumeMounts : list VolumeMount;
  cSecurityContext : option SecurityContext;
  cReadinessProbe : option Probe;
  cResources : ResourceRequirements;
  cRest : string
}.

Record PodSpec : Type := mkPodSpec {
  Containers : list Container;
  InitContainers : list Container;
  Volumes : list Volume;
  NodeName : string;
  RestartPolicy : string;
  specRest : string
}.

Record PodCondition : Type := mkPodCondition {
  pcType : string;
  pcStatus : string
}.

(** [ContainerStatus]: the reasons of a waiting and of a terminated state,
    [None] when the container is not in that state. *)
Record ContainerStatus : Type := mkContainerStatus {
  csWaitingReason : option string;
  csTerminatedReason : option string
}.

Record PodStatus : Type := mkPodStatus {
  podPhase : string;
  podConditions : list PodCondition;
  podMessage : string;
  podReason : string;
  podContainerStatuses : list ContainerStatus
}.

Record Pod : Type := mkPod {
  podMeta : Meta.ObjectMeta;
  podSpec : PodSpec;
  podStatus : PodStatus
}.

Definition emptyPodStatus : PodStatus := mkPodStatus "" [] "" "" [].

End Core.

(* ================================================================== *)
(** * api/v1alpha1 *)
(* ================================================================== *)

Module Api.

(** [InstancePhase] is a Go string type; these are its constants. *)
Definition InstancePhasePending : string := "Pending".
Definition InstancePhaseProviderStarting : string := "ProviderStarting".
Definition InstancePhaseProviderReady : string := "ProviderReady".
Definition InstancePhaseConsumerStarting : string := "ConsumerStarting".
Definition InstancePhaseRunning : string := "Running".
Definition InstancePhaseStopping : string := "Stopping".
Definition InstancePhaseStopped : string := "Stopped".
Definition InstancePhaseFailed : string := "Failed".

(** [Phase] of the StoppableContainer. *)
Definition PhasePending : string := "Pending".
Definition PhaseProviderReady : string := "ProviderReady".
Definition PhaseRunning : string := "Running".
Definition PhaseStopped : string := "Stopped".
Definition PhaseFailed : string := "Failed".

Record PodTemplateSpec : Type := mkPodTemplateSpec {
  tplMetadata : Meta.ObjectMeta;
  tplSpec : Core.PodSpec
}.

Record ProviderSpec : Type := mkProviderSpec {
  provResources : Core.ResourceRequirements;
  provNodeSelector : gmap string string;
  provTolerations : string
}.

Record StoppableContainerInstanceSpec : Type := mkInstanceSpec {
  StoppableContainerName : string;
  Running : bool;
  Template : PodTemplateSpec;
  Provider : ProviderSpec;
  HostPathPrefix : string
}.

Record StoppableContainerInstanceStatus : Type := mkInstanceStatus {
  Phase : string;
  ProviderPodName : string;
  ProviderPodUID : string;
  ConsumerPodName : string;
  ConsumerPodUID : string;
  HostPath : string;
  StatusNodeName : string;
  RootfsPID : Z;
  Message : string;
  Conditions : list Meta.Condition;
  ObservedGeneration : Z
}.

Record StoppableContainerInstance : Type := mkInstance {
  sciMeta : Meta.ObjectMeta;
  sciSpec : StoppableContainerInstanceSpec;
  sciStatus : StoppableContainerInstanceStatus
}.

Record StoppableContainerSpec : Type := mkContainerSpec {
  scRunning : bool;
  scTemplate : PodTemplateSpec;
  scProvider : ProviderSpec;
  scHostPathPrefix : string
}.

Record StoppableContainerStatus : Type := mkContainerStatus {
  scPhase : string;
  scInstanceName : string;
  scProviderPodName : string;
  scConsumerPodName : string;
  scHostPath : string;
  scNodeName : string;
  scConditions : list Meta.Condition;
  scObservedGeneration : Z
}.

Record StoppableContainer : Type := mkStoppableContainer {
  scMeta : Meta.ObjectMeta;
  scSpec : StoppableContainerSpec;
  scStatus : StoppableContainerStatus
}.

(** [GroupVersion.String()]. *)
Definition GroupVersion : string := "stoppablecontainer.xtlsoft.top/v1alpha1".

End Api.

(* ================================================================== *)
(** * api/v1alpha1, with the template of one container *)
(* ================================================================== *)

(** The revision of the API types whose pod template describes a single
    container ([ContainerSpec]) instead of wrapping a [PodSpec].  The
    builders of [internal/provider] and the two controllers are written
    against it.  The object types are those of [Api] but for the template;
    the status types are shared. *)
Module ApiSingle.
Import Meta Core Api.

(** [ContainerSpec]; [csRest] stands for [EnvFrom] and [Ports], which the
    builder copies. *)
Record ContainerSpec : Type := mkSingleContainer {
  csImage : string;
  csImagePullPolicy : string;
  csCommand : list string;
  csArgs : list string;
  csWorkingDir : string;
  csEnv : list EnvVar;
  csResources : ResourceRequirements;
  csVolumeMounts : list VolumeMount;
  csSecurityContext : option SecurityContext;
  csRest : string
}.

(** [PodTemplateSpec]; [tplRest] stands for the fields that the consumer
    pod takes over as they are: [ServiceAccountName], [Affinity],
    [Tolerations], [RuntimeClassName], [HostNetwork], [DNSPolicy] and
    [ImagePullSecrets]. *)
Record PodTemplateSpec : Type := mkPodTemplateSpec {
  tplMetadata : ObjectMeta;
  tplContainer : ContainerSpec;
  tplInitContainers : list Container;
  tplVolumes : list Volume;
  tplNodeSelector : gmap string string;
  tplRest : string
}.

Record StoppableContainerInstanceSpec : Type := mkInstanceSpec {
  StoppableContainerName : string;
  Running : bool;
  Template : PodTemplateSpec;
  Provider : ProviderSpec;
  HostPathPrefix : string
}.

Record StoppableContainerInstance : Type := mkInstance {
  sciMeta : ObjectMeta;
  sciSpec : StoppableContainerInstanceSpec;
  sciStatus : StoppableContainerInstanceStatus
}.

Record StoppableContainerSpec : Type := mkContainerSpec {
  scRunning : bool;
  scTemplate : PodTemplateSpec;
  scProvider : ProviderSpec;
  scHostPathPrefix : string
}.

Record StoppableContainer : Type := mkStoppableContainer {
  scMeta : ObjectMeta;
  scSpec : StoppableContainerSpec;
  scStatus : StoppableContainerStatus
}.

End ApiSingle.

(* ================================================================== *)
(** * The PodSpec-based consumer pod builder *)
(* ================================================================== *)

(** The consumer pod builder for the template that wraps a [PodSpec]: the
    consumer container runs the exec wrapper, which changes root into the
    rootfs and starts the command of the user.  The constants and
    [GetHostPath] are those of package [provider]. *)
Module Provider.
Import Meta Core Api.

Definition ConsumerContainerName : string := "consumer".
Definition ExecWrapperInitName : string := "exec-wrapper-init".
Definition PropagatedVolumeName : string := "sc-propagated".
Definition ExecWrapperVolumeName : string := "sc-exec-wrapper".
Definition BinOverlayVolumeName : string := "sc-bin-overlay".
Definition RootfsMountPath : string := "/rootfs".
Definition ExecWrapperBinPath : string := "/.sc-bin".
Definition LabelManagedBy : string := "stoppablecontainer.xtlsoft.top/managed-by".
Definition LabelInstance : string := "stoppablecontainer.xtlsoft.top/instance".
Definition LabelRole : string := "stoppablecontainer.xtlsoft.top/role".
Definition DefaultHostPathPrefix : string := "/var/lib/stoppablecontainer".
Definition MountPropagationHostToContainer : string := "HostToContainer".
Definition HostPathDirectory : string := "Directory".
Definition RestartPolicyAlways : string := "Always".

(** [GetHostPath]: [filepath.Join(prefix, namespace, name)]. *)
Definition GetHostPath (sci : StoppableContainerInstance) : string :=
  let prefix :=
    if String.eqb (HostPathPrefix (sciSpec sci)) ""
    then DefaultHostPathPrefix
    else HostPathPrefix (sciSpec sci) in
  GoStrings.JoinPath [prefix; Namespace (sciMeta sci); Name (sciMeta sci)].

Definition ownerReference (sci : StoppableContainerInstance) : OwnerReference :=
  mkOwnerReference GroupVersion "StoppableContainerInstance"
    (Name (sciMeta sci)) (UID (sciMeta sci)) (Some true) (Some true).

Section Builders.

(** The package variables [ExecWrapperImage] and [ExecWrapperPullPolicy],
    read from the environment at start-up. *)
Variable ExecWrapperImage : string.
Variable ExecWrapperPullPolicy : string.

(** [ConsumerPodBuilder.consumerPodName]: the name of the instance, with
    no suffix. *)
Definition consumerPodName (sci : StoppableContainerInstance) : string :=
  Name (sciMeta sci).

Definition buildUserCommand (container : Container) : list string :=
  match cCommand container, cArgs container with
  | [], [] => ["/bin/sh"]
  | command, args => command ++ args
  end.

Definition buildEntrypointCommand (userCommand : list string)
    (workingDir : string) : list string :=
  let workingDir := if String.eqb workingDir "" then "/" else workingDir in
  ["/sc-exec"; "--entrypoint"; workingDir] ++ userCommand.

Definition buildVolumeMounts (userMounts : list VolumeMount)
  : list VolumeMount :=
  [mkVolumeMount PropagatedVolumeName RootfsMountPath
     (Some MountPropagationHostToContainer) "";
   mkVolumeMount ExecWrapperVolumeName ExecWrapperBinPath None "";
   mkVolumeMount BinOverlayVolumeName "/bin" None ""]
  ++ flat_map
       (fun m =>
          [mkVolumeMount ("user-" +:+ vmName m) (vmMountPath m)
             (vmMountPropagation m) (vmRest m);
           mkVolumeMount ("user-" +:+ vmName m +:+ "-rootfs")
             (RootfsMountPath +:+ vmMountPath m)
             (vmMountPropagation m) (vmRest m)])
       userMounts.

Definition buildVolumes (userVolumes : list Volume)
    (hostPath hostPathType : string) : list Volume :=
  [mkVolume PropagatedVolumeName (HostPathSource hostPath hostPathType);
   mkVolume ExecWrapperVolumeName EmptyDirSource;
   mkVolume BinOverlayVolumeName EmptyDirSource]
  ++ flat_map
       (fun v =>
          [mkVolume ("user-" +:+ volName v) (volSource v);
           mkVolume ("user-" +:+ volName v +:+ "-rootfs") (volSource v)])
       userVolumes.

(** The merge loop of [buildSecurityContext]: a capability is appended
    unless it is already there. *)
Definition mergeCapability (add : list string) (cap : string) : list string :=
  if existsb (String.eqb cap) add then add else add ++ [cap].

Definition buildSecurityContext (userCtx : option SecurityContext)
  : SecurityContext :=
  let requiredCaps := ["SYS_CHROOT"] in
  match userCtx with
  | None => mkSecurityContext (Some (mkCapabilities requiredCaps [])) None None ""
  | Some u =>
      let add :=
        match scCapabilities u with
        | Some caps => foldl mergeCapability requiredCaps (capAdd caps)
        | None => requiredCaps
        end in
      mkSecurityContext (Some (mkCapabilities add [])) (scRunAsGroup u) None ""
  end.

Definition buildLabels (sci : StoppableContainerInstance)
    (userLabels : gmap string string) : gmap string string :=
  <[LabelRole := "consumer"]>
    (<[LabelInstance := Name (sciMeta sci)]>
       (<[LabelManagedBy := "stoppablecontainer"]> userLabels)).

Definition buildAnnotations (userAnnotations : gmap string string)
  : gmap string string :=
  userAnnotations.

Definition buildInitContainers (userInitContainers : list Container)
  : list Container :=
  mkContainer ExecWrapperInitName ExecWrapperImage ExecWrapperPullPolicy
    ["/sc-exec"; "--init"; "/sc-bin-overlay"] [] "" []
    [mkVolumeMount ExecWrapperVolumeName ExecWrapperBinPath None "";
     mkVolumeMount BinOverlayVolumeName "/sc-bin-overlay" None ""]
    None None
    (mkResourceRequirements [("cpu", "10m"); ("memory", "16Mi")]
       [("cpu", "100m"); ("memory", "64Mi")])
    ""
  :: map
       (fun c =>
          mkContainer ("user-" +:+ cName c) (cImage c) (cImagePullPolicy c)
            (cCommand c) (cArgs c) (cWorkingDir c) (cEnv c)
            (map (fun m => mkVolumeMount ("user-" +:+ vmName m) (vmMountPath m)
                             (vmMountPropagation m) (vmRest m))
               (cVolumeMounts c))
            (cSecurityContext c) (cReadinessProbe c) (cResources c) (cRest c))
       userInitContainers.

(** The fallback of [Build] for a template without containers. *)
Definition fallbackContainer : Container :=
  mkContainer ConsumerContainerName "busybox:stable" "" [] [] "" [] [] None None
    (mkResourceRequirements [] []) "".

(** The check at the start of [Build]: a template without containers gets
    the fallback container.  [Build] then takes the address of element 0
    of this list. *)
Definition containersOrFallback (containers : list Container)
  : list Container :=
  match containers with
  | [] => [fallbackContainer]
  | _ :: _ => containers
  end.

(** [ConsumerPodBuilder.Build] (the PodSpec-based builder).  The main
    container is the first container of the template; the others are
    kept. *)
Definition ConsumerPodBuilder_Build (sci : StoppableContainerInstance)
    (nodeName : string) : Pod :=
  let hostPath := GoStrings.JoinPath [GetHostPath sci; "rootfs"] in
  let template := Template (sciSpec sci) in
  let podSpec := tplSpec template in
  let containers := containersOrFallback (Containers podSpec) in
  let mainContainer := hd fallbackContainer containers in
  let userCommand := buildUserCommand mainContainer in
  let mainContainer :=
    mkContainer ConsumerContainerName ExecWrapperImage ExecWrapperPullPolicy
      (buildEntrypointCommand userCommand (cWorkingDir mainContainer))
      []
      (cWorkingDir mainContainer)
      (cEnv mainContainer ++ [mkEnvVar "SC_ROOTFS" RootfsMountPath ""])
      (buildVolumeMounts (cVolumeMounts mainContainer))
      (Some (buildSecurityContext (cSecurityContext mainContainer)))
      (Some (mkProbe (ExecAction [ExecWrapperBinPath +:+ "/sc-exec"; "--ready"])
               1 5))
      (cResources mainContainer)
      (cRest mainContainer) in
  mkPod
    (mkObjectMeta (consumerPodName sci) (Namespace (sciMeta sci)) "" 0 false []
       (buildLabels sci (Labels (tplMetadata template)))
       (buildAnnotations (Annotations (tplMetadata template)))
       [ownerReference sci])
    (mkPodSpec (mainContainer :: tail containers)
       (buildInitContainers (InitContainers podSpec))
       (buildVolumes (Volumes podSpec) hostPath HostPathDirectory)
       nodeName RestartPolicyAlways (specRest podSpec))
    emptyPodStatus.

End Builders.

(** The instance with the containers of its template replaced. *)
Definition withContainers (sci : StoppableContainerInstance)
    (cs : list Container) : StoppableContainerInstance :=
  let t := Template (sciSpec sci) in
  let sp := tplSpec t in
  mkInstance (sciMeta sci)
    (mkInstanceSpec (StoppableContainerName (sciSpec sci)) (Running (sciSpec sci))
       (mkPodTemplateSpec (tplMetadata t)
          (mkPodSpec cs (InitContainers sp) (Volumes sp) (NodeName sp)
             (RestartPolicy sp) (specRest sp)))
       (Provider (sciSpec sci)) (HostPathPrefix (sciSpec sci)))
    (sciStatus sci).

(** Every volume mount of the container names one of the volumes. *)
Definition mountsHaveVolumes (volumes : list Volume) (c : Container) : Prop :=
  forall m, In m (cVolumeMounts c) -> In (vmName m) (map volName volumes).

(** The names of the three volumes that [Build] adds. *)
Definition systemVolumeNames : list string :=
  [PropagatedVolumeName; ExecWrapperVolumeName; BinOverlayVolumeName].

(** The instance demo in namespace default, with [running = true] and one
    busybox container. *)
Definition demoTemplate : PodTemplateSpec :=
  mkPodTemplateSpec
    (mkObjectMeta "" "" "" 0 false [] ∅ ∅ [])
    (mkPodSpec
       [mkContainer "main" "busybox:stable" "" ["/bin/sh"; "-c"; "echo hi; sleep 3600"]
          [] "" [] [] None None (mkResourceRequirements [] []) ""]
       [] [] "" "" "").

Definition demoInstance : StoppableContainerInstance :=
  mkInstance
    (mkObjectMeta "demo" "default" "uid-demo" 1 false [] ∅ ∅ [])
    (mkInstanceSpec "demo" true demoTemplate
       (mkProviderSpec (mkResourceRequirements [] []) ∅ "") "")
    (mkInstanceStatus "" "" "" "" "" "" "" 0 "" [] 0).

(** The same instance with a template that has no container. *)
Definition emptyInstance : StoppableContainerInstance :=
  withContainers demoInstance [].

(** The instance demo with a volume data, mounted by the main container
    and by a second container. *)
Definition dataMount : VolumeMount := mkVolumeMount "data" "/data" None "".

Definition sidecarContainer : Container :=
  mkContainer "sidecar" "busybox:stable" "" ["/bin/sh"] [] "" []
    [dataMount] None None (mkResourceRequirements [] []) "".

Definition sidecarInstance : StoppableContainerInstance :=
  let t := Template (sciSpec demoInstance) in
  mkInstance (sciMeta demoInstance)
    (mkInstanceSpec "demo" true
       (mkPodTemplateSpec (tplMetadata t)
          (mkPodSpec
             [mkContainer "main" "busybox:stable" "" ["/bin/sh"] [] "" []
                [dataMount] None None (mkResourceRequirements [] []) "";
              sidecarContainer]
             [] [mkVolume "data" EmptyDirSource] "" "" ""))
       (Provider (sciSpec demoInstance)) "")
    (sciStatus demoInstance).


End Provider.

(* ================================================================== *)
(** * internal/provider/consumer_pod.go: the builder the controller calls *)
(* ================================================================== *)

(** The consumer pod builder of [internal/provider], for the template of
    one container.  The consumer container is a busybox shell that waits
    for the rootfs and changes root into it; the exec wrapper is only
    copied in by an init container.  The constants are those of
    [provider_pod.go], as in [Provider]. *)
Module InternalProvider.
Import Meta Core Api ApiSingle.

(** [GetHostPath]: [filepath.Join(prefix, namespace, name)]. *)
Definition GetHostPath (sci : StoppableContainerInstance) : string :=
  let prefix :=
    if String.eqb (HostPathPrefix (sciSpec sci)) ""
    then Provider.DefaultHostPathPrefix
    else HostPathPrefix (sciSpec sci) in
  GoStrings.JoinPath [prefix; Namespace (sciMeta sci); Name (sciMeta sci)].

Definition ownerReference (sci : StoppableContainerInstance) : OwnerReference :=
  mkOwnerReference GroupVersion "StoppableContainerInstance"
    (Name (sciMeta sci)) (UID (sciMeta sci)) (Some true) (Some true).

(** The double quote and the line feed of the shell script. *)
Definition dq : string := String "034"%char EmptyString.
Definition nl : string := String "010"%char EmptyString.

(** [consumerPodName]: the name of the instance with the suffix
    [-consumer]. *)
Definition consumerPodName (sci : StoppableContainerInstance) : string :=
  Name (sciMeta sci) +:+ "-consumer".

(** The quoting of one word in [buildUserCommand]: in single quotes, each
    single quote inside replaced by a quote, a backslash
    and two quotes. *)
Definition shellQuote (p : string) : string :=
  "'" +:+ GoStrings.ReplaceAllString p "'" "'\''" +:+ "'".

Definition buildUserCommand (container : ContainerSpec) : string :=
  match csCommand container, csArgs container with
  | [], [] => "exec /bin/sh"
  | command, args =>
      "exec " +:+ String.concat " " (map shellQuote (command ++ args))
  end.

(** The lines of the format string of [buildEntrypointScript], with its
    four arguments in place. *)
Definition entrypointScriptLines (rootfs workDir chdir userCommand : string)
  : list string :=
  [
   "";
   "set -e";
   "";
   "ROOTFS=" +:+ dq +:+ rootfs +:+ dq;
   "WORKDIR=" +:+ dq +:+ workDir +:+ dq;
   "";
   "echo " +:+ dq +:+ "[consumer] Starting consumer container..." +:+ dq;
   "";
   "# Wait for rootfs to be available (mounted by DaemonSet)";
   "# Use a fast polling loop initially, then slow down";
   "attempt=0";
   "while [ $attempt -lt 120 ]; do";
   "    if [ -d " +:+ dq +:+ "$ROOTFS/bin" +:+ dq +:+ " ] || [ -d " +:+ dq
     +:+ "$ROOTFS/usr/bin" +:+ dq +:+ " ]; then";
   "        # Also check that proc is mounted (indicates DaemonSet has completed setup)";
   "        if mountpoint -q " +:+ dq +:+ "$ROOTFS/proc" +:+ dq
     +:+ " 2>/dev/null; then";
   "            break";
   "        fi";
   "    fi";
   "    attempt=$((attempt + 1))";
   "    if [ $attempt -le 10 ]; then";
   "        # Fast polling for first 2 seconds";
   "        sleep 0.2";
   "    else";
   "        echo " +:+ dq
     +:+ "[consumer] Waiting for DaemonSet to complete rootfs setup... ($attempt/120)"
     +:+ dq;
   "        sleep 1";
   "    fi";
   "done";
   "";
   "if [ ! -d " +:+ dq +:+ "$ROOTFS/bin" +:+ dq +:+ " ] && [ ! -d " +:+ dq
     +:+ "$ROOTFS/usr/bin" +:+ dq +:+ " ]; then";
   "    echo " +:+ dq +:+ "[consumer] ERROR: Rootfs not ready at $ROOTFS"
     +:+ dq;
   "    exit 1";
   "fi";
   "";
   "if ! mountpoint -q " +:+ dq +:+ "$ROOTFS/proc" +:+ dq
     +:+ " 2>/dev/null; then";
   "    echo " +:+ dq
     +:+ "[consumer] ERROR: Proc mount not ready at $ROOTFS/proc" +:+ dq;
   "    exit 1";
   "fi";
   "";
   "echo " +:+ dq +:+ "[consumer] Rootfs ready with mounts from DaemonSet"
     +:+ dq;
   "";
   "# Copy network configuration";
   "mkdir -p " +:+ dq +:+ "$ROOTFS/etc" +:+ dq;
   "if [ -f " +:+ dq +:+ "/etc/resolv.conf" +:+ dq +:+ " ] && [ ! -f " +:+ dq
     +:+ "$ROOTFS/etc/resolv.conf" +:+ dq +:+ " ]; then";
   "    cp /etc/resolv.conf " +:+ dq +:+ "$ROOTFS/etc/resolv.conf" +:+ dq
     +:+ " 2>/dev/null || true";
   "fi";
   "";
   "if [ -f " +:+ dq +:+ "/etc/hosts" +:+ dq +:+ " ]; then";
   "    cp /etc/hosts " +:+ dq +:+ "$ROOTFS/etc/hosts" +:+ dq
     +:+ " 2>/dev/null || true";
   "fi";
   "";
   "# Mount service account secrets if available";
   "# This needs to be done by consumer as it has access to its own secrets";
   "# Note: Some images use /run instead of /var/run (with /var/run being a symlink)";
   "SA_PATH=" +:+ dq +:+ "/var/run/secrets/kubernetes.io/serviceaccount" +:+ dq;
   "if [ -d " +:+ dq +:+ "$SA_PATH" +:+ dq +:+ " ]; then";
   "    # Determine the actual path to use in rootfs";
   "    # If /var/run is a symlink to /run, use /run directly";
   "    if [ -L " +:+ dq +:+ "$ROOTFS/var/run" +:+ dq +:+ " ]; then";
   "        ROOTFS_SA_PATH=" +:+ dq
     +:+ "$ROOTFS/run/secrets/kubernetes.io/serviceaccount" +:+ dq;
   "    else";
   "        ROOTFS_SA_PATH=" +:+ dq +:+ "$ROOTFS$SA_PATH" +:+ dq;
   "    fi";
   "    ";
   "    # Create parent directories";
   "    mkdir -p " +:+ dq +:+ "$(dirname " +:+ dq +:+ "$ROOTFS_SA_PATH" +:+ dq
     +:+ ")" +:+ dq +:+ " 2>/dev/null || true";
   "    mkdir -p " +:+ dq +:+ "$ROOTFS_SA_PATH" +:+ dq
     +:+ " 2>/dev/null || true";
   "    ";
   "    # Try mount --bind first, fallback to cp if not available";
   "    if [ -d " +:+ dq +:+ "$ROOTFS_SA_PATH" +:+ dq +:+ " ]; then";
   "        mount --bind " +:+ dq +:+ "$SA_PATH" +:+ dq +:+ " " +:+ dq
     +:+ "$ROOTFS_SA_PATH" +:+ dq +:+ " 2>/dev/null || \";
   "            cp -r " +:+ dq +:+ "$SA_PATH" +:+ dq +:+ "/* " +:+ dq
     +:+ "$ROOTFS_SA_PATH/" +:+ dq +:+ " 2>/dev/null || true";
   "    fi";
   "fi";
   "";
   "echo " +:+ dq +:+ "[consumer] Setup complete, chrooting..." +:+ dq;
   "";
   "cd " +:+ dq +:+ "$ROOTFS" +:+ dq;
   "";
   "exec chroot " +:+ dq +:+ "$ROOTFS" +:+ dq +:+ " /bin/sh -c " +:+ dq
     +:+ "cd '" +:+ chdir +:+ "' && " +:+ userCommand +:+ dq;
   ""
  ].

Definition buildEntrypointScript (userCommand workingDir : string) : string :=
  let workingDir := if String.eqb workingDir "" then "/" else workingDir in
  String.concat nl
    (entrypointScriptLines Provider.RootfsMountPath workingDir workingDir
       userCommand).

Definition buildVolumeMounts (userMounts : list VolumeMount)
  : list VolumeMount :=
  [mkVolumeMount Provider.PropagatedVolumeName Provider.RootfsMountPath
     (Some Provider.MountPropagationHostToContainer) "";
   mkVolumeMount Provider.ExecWrapperVolumeName Provider.ExecWrapperBinPath
     None ""]
  ++ flat_map
       (fun m =>
          [mkVolumeMount ("user-" +:+ vmName m) (vmMountPath m)
             (vmMountPropagation m) (vmRest m);
           mkVolumeMount ("user-" +:+ vmName m +:+ "-rootfs")
             (Provider.RootfsMountPath +:+ vmMountPath m)
             (vmMountPropagation m) (vmRest m)])
       userMounts.

Definition buildVolumes (userVolumes : list Volume)
    (hostPath hostPathType : string) : list Volume :=
  [mkVolume Provider.PropagatedVolumeName (HostPathSource hostPath hostPathType);
   mkVolume Provider.ExecWrapperVolumeName EmptyDirSource]
  ++ flat_map
       (fun v =>
          [mkVolume ("user-" +:+ volName v) (volSource v);
           mkVolume ("user-" +:+ volName v +:+ "-rootfs") (volSource v)])
       userVolumes.

Definition buildSecurityContext (userCtx : option SecurityContext)
  : SecurityContext :=
  let requiredCaps := ["SYS_CHROOT"] in
  match userCtx with
  | None => mkSecurityContext (Some (mkCapabilities requiredCaps [])) None None ""
  | Some u =>
      let add :=
        match scCapabilities u with
        | Some caps => foldl Provider.mergeCapability requiredCaps (capAdd caps)
        | None => requiredCaps
        end in
      mkSecurityContext (Some (mkCapabilities add [])) (scRunAsGroup u) None ""
  end.

Definition buildAnnotations (userAnnotations : gmap string string)
  : gmap string string :=
  userAnnotations.

Section Builders.

(** [ExecWrapperImage] of [provider_pod.go], and the spec of the provider
    pod ([ProviderPodBuilder.Build]: containers, probes and volumes), on
    which no statement below depends. *)
Variable ExecWrapperImage : string.
Variable providerPodSpec : StoppableContainerInstance -> PodSpec.

(** [ProviderPodBuilder.Build]. *)
Definition ProviderPodBuilder_Build (sci : StoppableContainerInstance) : Pod :=
  mkPod
    (mkObjectMeta (Name (sciMeta sci) +:+ "-provider") (Namespace (sciMeta sci))
       "" 0 false []
       (<[Provider.LabelRole := "provider"]>
          (<[Provider.LabelInstance := Name (sciMeta sci)]>
             (<[Provider.LabelManagedBy := "stoppablecontainer"]> ∅)))
       ∅ [ownerReference sci])
    (providerPodSpec sci)
    emptyPodStatus.

(** [buildInitContainers]: the init containers of the user keep their
    volume mounts and get the prefix [user-] in their name. *)
Definition buildInitContainers (userInitContainers : list Container)
  : list Container :=
  mkContainer Provider.ExecWrapperInitName ExecWrapperImage ""
    ["/bin/sh"; "-c";
     "cp /sc-exec " +:+ Provider.ExecWrapperBinPath +:+ "/ && chmod +x "
     +:+ Provider.ExecWrapperBinPath +:+ "/sc-exec"]
    [] "" []
    [mkVolumeMount Provider.ExecWrapperVolumeName Provider.ExecWrapperBinPath
       None ""]
    None None
    (mkResourceRequirements [("cpu", "10m"); ("memory", "16Mi")]
       [("cpu", "100m"); ("memory", "64Mi")])
    ""
  :: map
       (fun c =>
          mkContainer ("user-" +:+ cName c) (cImage c) (cImagePullPolicy c)
            (cCommand c) (cArgs c) (cWorkingDir c) (cEnv c) (cVolumeMounts c)
            (cSecurityContext c) (cReadinessProbe c) (cResources c) (cRest c))
       userInitContainers.

(** [NewConsumerPodBuilder(sci, nodeName).Build()]. *)
Definition ConsumerPodBuilder_Build (sci : StoppableContainerInstance)
    (nodeName : string) : Pod :=
  let hostPath := GoStrings.JoinPath [GetHostPath sci; "rootfs"] in
  let template := Template (sciSpec sci) in
  let container := tplContainer template in
  let userCommand := buildUserCommand container in
  let entrypointScript :=
    buildEntrypointScript userCommand (csWorkingDir container) in
  mkPod
    (mkObjectMeta (consumerPodName sci) (Namespace (sciMeta sci)) "" 0 false []
       (<[Provider.LabelRole := "consumer"]>
          (<[Provider.LabelInstance := Name (sciMeta sci)]>
             (<[Provider.LabelManagedBy := "stoppablecontainer"]> ∅)))
       (buildAnnotations (Annotations (tplMetadata template)))
       [ownerReference sci])
    (mkPodSpec
       [mkContainer Provider.ConsumerContainerName "busybox:stable"
          "IfNotPresent" ["/bin/sh"; "-c"; entrypointScript] [] ""
          (csEnv container
           ++ [mkEnvVar "SC_ROOTFS" Provider.RootfsMountPath ""])
          (buildVolumeMounts (csVolumeMounts container))
          (Some (buildSecurityContext (csSecurityContext container)))
          (Some (mkProbe
                   (ExecAction ["test"; "-d"; Provider.RootfsMountPath +:+ "/bin"])
                   1 5))
          (csResources container)
          (csRest container)]
       (buildInitContainers (tplInitContainers template))
       (buildVolumes (tplVolumes template) hostPath Provider.HostPathDirectory)
       nodeName Provider.RestartPolicyAlways (tplRest template))
    emptyPodStatus.

End Builders.

End InternalProvider.

(* ================================================================== *)
(** * internal/controller: the reconciler of the instance *)
(* ================================================================== *)

(** The controller is written against [internal/provider]: its pods are
    those of [InternalProvider]. *)
Module Controller.
Import Meta Core Api ApiSingle.

Definition SCIFinalizerName : string :=
  "stoppablecontainerinstance.xtlsoft.top/finalizer".
Definition ConditionTypeReady : string := "Ready".

(** [ctrl.Result]; [RequeueAfter] in seconds. *)
Record Result : Type := mkResult {
  Requeue : bool;
  RequeueAfter : Z
}.

Definition noRequeue : Result := mkResult false 0.

(** Objects are addressed by namespace and name. *)
Definition ObjectKey : Type := (string * string)%type.

Inductive ApiCall : Type :=
| GetInstance (key : ObjectKey)
| UpdateInstance (key : ObjectKey)
| UpdateInstanceStatus (key : ObjectKey)
| UpdateContainerStatus (key : ObjectKey)
| GetPod (key : ObjectKey)
| CreatePod (key : ObjectKey)
| DeletePod (key : ObjectKey).

(** What a reconciliation returns: a result, or the error of an API call. *)
Inductive Outcome : Type :=
| Done (r : Result)
| Failed (call : ApiCall).

(** The objects in the API server, and the phases written to the status
    of instances, oldest first. *)
Record Cluster : Type := mkCluster {
  instances : gmap (string * string) StoppableContainerInstance;
  containers : gmap (string * string) StoppableContainer;
  pods : gmap (string * string) Pod;
  phasesWritten : list (string * string * string)
}.

(** [c'] has the phases written of [c], possibly with [phase] written
    after them. *)
Definition wrote (c c' : Cluster) (phase : string) : Prop :=
  phasesWritten c' = phasesWritten c \/
  exists ns name, phasesWritten c' = phasesWritten c ++ [(ns, name, phase)].

(** [isPodReady], [isPodFailed], [getPodFailureReason]. *)
Definition isPodReady (pod : Pod) : bool :=
  if negb (String.eqb (podPhase (podStatus pod)) "Running") then false
  else existsb
         (fun cond => String.eqb (pcType cond) "Ready"
                      && String.eqb (pcStatus cond) "True")
         (podConditions (podStatus pod)).

Definition isPodFailed (pod : Pod) : bool :=
  String.eqb (podPhase (podStatus pod)) "Failed".

Fixpoint firstContainerReason (statuses : list ContainerStatus) : string :=
  match statuses with
  | [] => "Unknown"
  | cs :: rest =>
      match csWaitingReason cs, csTerminatedReason cs with
      | Some r, t =>
          if negb (String.eqb r "") then r
          else match t with
               | Some r' =>
                   if negb (String.eqb r' "") then r'
                   else firstContainerReason rest
               | None => firstContainerReason rest
               end
      | None, Some r' =>
          if negb (String.eqb r' "") then r' else firstContainerReason rest
      | None, None => firstContainerReason rest
      end
  end.

Definition getPodFailureReason (pod : Pod) : string :=
  if negb (String.eqb (podMessage (podStatus pod)) "")
  then podMessage (podStatus pod)
  else if negb (String.eqb (podReason (podStatus pod)) "")
  then podReason (podStatus pod)
  else firstContainerReason (podContainerStatuses (podStatus pod)).

(** The eight phases of an instance. *)
Definition knownPhase (p : string) : Prop :=
  In p [InstancePhasePending; InstancePhaseProviderStarting;
        InstancePhaseProviderReady; InstancePhaseConsumerStarting;
        InstancePhaseRunning; InstancePhaseStopping; InstancePhaseStopped;
        InstancePhaseFailed].

Definition instanceKey (sci : StoppableContainerInstance) : ObjectKey :=
  (Namespace (sciMeta sci), Name (sciMeta sci)).

(** The names under which [Reconcile] and [handleDeletion] look the two
    pods up. *)
Definition providerPodKey (sci : StoppableContainerInstance) : ObjectKey :=
  (Namespace (sciMeta sci), Name (sciMeta sci) +:+ "-provider").

Definition consumerPodKey (sci : StoppableContainerInstance) : ObjectKey :=
  (Namespace (sciMeta sci), Name (sciMeta sci) +:+ "-consumer").

Definition podKey (pod : Pod) : ObjectKey :=
  (Namespace (podMeta pod), Name (podMeta pod)).

(** The assignments at the start of [updatePhase]: phase, message,
    observed generation and the Ready condition of the object in hand. *)
Definition setPhase (sci : StoppableContainerInstance) (phase message : string)
  : StoppableContainerInstance :=
  let st := sciStatus sci in
  let '(conditionStatus, reason) :=
    if String.eqb phase InstancePhaseRunning then (ConditionTrue, "Running")
    else if String.eqb phase InstancePhaseFailed then (ConditionFalse, "Failed")
    else (ConditionFalse, phase) in
  mkInstance (sciMeta sci) (sciSpec sci)
    (mkInstanceStatus phase (ProviderPodName st) (ProviderPodUID st)
       (ConsumerPodName st) (ConsumerPodUID st) (HostPath st)
       (StatusNodeName st) (RootfsPID st) message
       (SetStatusCondition (Conditions st)
          (mkCondition ConditionTypeReady conditionStatus
             (Generation (sciMeta sci)) reason message))
       (Generation (sciMeta sci))).

(** [r.Update]: metadata and spec are stored, the status subresource is
    not; an object under deletion whose last finalizer is gone
    disappears. *)
Definition storeInstance (sci : StoppableContainerInstance) (c : Cluster)
  : Cluster :=
  let key := instanceKey sci in
  match instances c !! key with
  | None => c
  | Some stored =>
      if Deleting (sciMeta sci) && bool_decide (Finalizers (sciMeta sci) = [])
      then mkCluster (delete key (instances c)) (containers c) (pods c)
             (phasesWritten c)
      else mkCluster
             (<[key := mkInstance (sciMeta sci) (sciSpec sci) (sciStatus stored)]>
                (instances c))
             (containers c) (pods c) (phasesWritten c)
  end.

(** [r.Status().Update]: only the status is stored. *)
Definition storeInstanceStatus (sci : StoppableContainerInstance) (c : Cluster)
  : Cluster :=
  let key := instanceKey sci in
  match instances c !! key with
  | None => c
  | Some stored =>
      mkCluster
        (<[key := mkInstance (sciMeta stored) (sciSpec stored) (sciStatus sci)]>
           (instances c))
        (containers c) (pods c)
        (phasesWritten c ++ [(key.1, key.2, Phase (sciStatus sci))])
  end.

Definition storePod (pod : Pod) (c : Cluster) : Cluster :=
  mkCluster (instances c) (containers c) (<[podKey pod := pod]> (pods c))
    (phasesWritten c).

(** [r.Delete] of a pod: the API server sets its deletion timestamp.  The
    pod stays in the store, terminating, until the kubelet has stopped its
    containers ([podTerminated] below). *)
Definition terminating (pod : Pod) : Pod :=
  let m := podMeta pod in
  mkPod
    (mkObjectMeta (Name m) (Namespace m) (UID m) (Generation m) true
       (Finalizers m) (Labels m) (Annotations m) (OwnerReferences m))
    (podSpec pod) (podStatus pod).

Definition deletePod (key : ObjectKey) (c : Cluster) : Cluster :=
  match pods c !! key with
  | None => c
  | Some pod =>
      mkCluster (instances c) (containers c)
        (<[key := terminating pod]> (pods c)) (phasesWritten c)
  end.

Section Reconcilers.

(** Transient failures of the API server ([apiFault call] when [call]
    returns an error other than NotFound or AlreadyExists; one
    reconciliation issues no call twice), and the configuration of the
    builders. *)
Variable apiFault : ApiCall -> bool.
Variable ExecWrapperImage : string.
Variable providerPodSpec : StoppableContainerInstance -> PodSpec.

(** [updatePhase]. *)
Definition updatePhase (c : Cluster) (sci : StoppableContainerInstance)
    (phase message : string) : Cluster * Outcome :=
  let sci := setPhase sci phase message in
  if apiFault (UpdateInstanceStatus (instanceKey sci))
  then (c, Failed (UpdateInstanceStatus (instanceKey sci)))
  else
    (storeInstanceStatus sci c,
     if negb (String.eqb phase InstancePhaseRunning)
        && negb (String.eqb phase InstancePhaseStopped)
        && negb (String.eqb phase InstancePhaseFailed)
     then Done (mkResult false 2)
     else Done noRequeue).

(** [createProviderPod]. *)
Definition createProviderPod (c : Cluster) (sci : StoppableContainerInstance)
  : Cluster * Outcome :=
  let pod := InternalProvider.ProviderPodBuilder_Build providerPodSpec sci in
  if apiFault (CreatePod (podKey pod)) then (c, Failed (CreatePod (podKey pod)))
  else
    match pods c !! podKey pod with
    | Some _ => (c, Done (mkResult true 0))
    | None =>
        updatePhase (storePod pod c) sci InstancePhaseProviderStarting
          "Provider pod created"
    end.

(** [createConsumerPod]. *)
Definition createConsumerPod (c : Cluster) (sci : StoppableContainerInstance)
  : Cluster * Outcome :=
  if String.eqb (StatusNodeName (sciStatus sci)) ""
  then (c, Done (mkResult false 1))
  else
    let pod :=
      InternalProvider.ConsumerPodBuilder_Build ExecWrapperImage sci
        (StatusNodeName (sciStatus sci)) in
    if apiFault (CreatePod (podKey pod)) then (c, Failed (CreatePod (podKey pod)))
    else
      match pods c !! podKey pod with
      | Some _ => (c, Done (mkResult true 0))
      | None =>
          updatePhase (storePod pod c) sci InstancePhaseConsumerStarting
            "Consumer pod created"
      end.

(** [handleDeletion]. *)
Definition handleDeletion (c : Cluster) (sci : StoppableContainerInstance)
  : Cluster * Outcome :=
  if negb (ContainsFinalizer (sciMeta sci) SCIFinalizerName)
  then (c, Done noRequeue)
  else
    let deleteIfFound (key : ObjectKey) (next : Cluster * Outcome) :=
      match (if apiFault (GetPod key) then None else pods c !! key) with
      | Some _ =>
          if apiFault (DeletePod key) then (c, Failed (DeletePod key))
          else (deletePod key c, Done (mkResult false 1))
      | None => next
      end in
    deleteIfFound (consumerPodKey sci)
      (deleteIfFound (providerPodKey sci)
         (let sci := mkInstance (RemoveFinalizer (sciMeta sci) SCIFinalizerName)
                       (sciSpec sci) (sciStatus sci) in
          if apiFault (UpdateInstance (instanceKey sci))
          then (c, Failed (UpdateInstance (instanceKey sci)))
          else (storeInstance sci c, Done noRequeue))).

(** The status fields taken from a ready provider pod. *)
Definition withProvider (sci : StoppableContainerInstance) (providerPod : Pod)
  : StoppableContainerInstance :=
  let st := sciStatus sci in
  mkInstance (sciMeta sci) (sciSpec sci)
    (mkInstanceStatus (Phase st) (Name (podMeta providerPod))
       (UID (podMeta providerPod)) (ConsumerPodName st) (ConsumerPodUID st)
       (GoStrings.JoinPath [InternalProvider.GetHostPath sci; "rootfs"])
       (NodeName (podSpec providerPod)) (RootfsPID st) (Message st)
       (Conditions st) (ObservedGeneration st)).

Definition withConsumer (sci : StoppableContainerInstance) (consumerPod : Pod)
  : StoppableContainerInstance :=
  let st := sciStatus sci in
  mkInstance (sciMeta sci) (sciSpec sci)
    (mkInstanceStatus (Phase st) (ProviderPodName st) (ProviderPodUID st)
       (Name (podMeta consumerPod)) (UID (podMeta consumerPod)) (HostPath st)
       (StatusNodeName st) (RootfsPID st) (Message st) (Conditions st)
       (ObservedGeneration st)).

(** [StoppableContainerInstanceReconciler.Reconcile]. *)
Definition Reconcile (c : Cluster) (req : ObjectKey) : Cluster * Outcome :=
  if apiFault (GetInstance req) then (c, Failed (GetInstance req))
  else
  match instances c !! req with
  | None => (c, Done noRequeue)
  | Some sci =>
  if Deleting (sciMeta sci) then handleDeletion c sci
  else if negb (ContainsFinalizer (sciMeta sci) SCIFinalizerName)
  then
    let sci := mkInstance (AddFinalizer (sciMeta sci) SCIFinalizerName)
                 (sciSpec sci) (sciStatus sci) in
    if apiFault (UpdateInstance (instanceKey sci))
    then (c, Failed (UpdateInstance (instanceKey sci)))
    else (storeInstance sci c, Done (mkResult true 0))
  else
  if apiFault (GetPod (providerPodKey sci))
  then (c, Failed (GetPod (providerPodKey sci)))
  else
  if apiFault (GetPod (consumerPodKey sci))
  then (c, Failed (GetPod (consumerPodKey sci)))
  else
  match pods c !! providerPodKey sci with
  | None => createProviderPod c sci
  | Some providerPod =>
  if negb (isPodReady providerPod)
  then updatePhase c sci InstancePhaseProviderStarting
         "Waiting for provider pod to be ready"
  else
  let sci := withProvider sci providerPod in
  if negb (Running (sciSpec sci))
  then
    match pods c !! consumerPodKey sci with
    | Some consumerPod =>
        if apiFault (DeletePod (consumerPodKey sci))
        then (c, Failed (DeletePod (consumerPodKey sci)))
        else updatePhase (deletePod (consumerPodKey sci) c) sci
               InstancePhaseStopping "Stopping consumer pod"
    | None =>
        updatePhase c sci InstancePhaseStopped
          "Consumer stopped, provider maintaining filesystem"
    end
  else
  match pods c !! consumerPodKey sci with
  | None =>
      if String.eqb (StatusNodeName (sciStatus sci)) ""
      then updatePhase c sci InstancePhaseProviderReady
             "Provider ready, waiting for node assignment"
      else createConsumerPod c sci
  | Some consumerPod =>
      let sci := withConsumer sci consumerPod in
      if isPodFailed consumerPod
      then updatePhase c sci InstancePhaseFailed
             ("Consumer pod failed: " +:+ getPodFailureReason consumerPod)
      else if negb (isPodReady consumerPod)
      then updatePhase c sci InstancePhaseConsumerStarting
             "Waiting for consumer pod to be ready"
      else updatePhase c sci InstancePhaseRunning "All pods running"
  end end end.

(** The assignments of [updateStatusFromInstance] to the container in
    hand: the projected phase, the mirrored fields and the Ready
    condition. *)
Definition projectStatus (sc : StoppableContainer)
    (sci : StoppableContainerInstance) : StoppableContainer :=
  let p := Phase (sciStatus sci) in
  let '(phase, conditionStatus, reason, message) :=
    if String.eqb p InstancePhasePending
       || String.eqb p InstancePhaseProviderStarting
    then (PhasePending, ConditionFalse, "Pending", "Instance is starting up")
    else if String.eqb p InstancePhaseProviderReady
            || String.eqb p InstancePhaseConsumerStarting
    then (PhaseProviderReady, ConditionFalse, "ProviderReady",
          "Provider is ready, consumer is starting")
    else if String.eqb p InstancePhaseRunning
    then (PhaseRunning, ConditionTrue, "Running", "Container is running")
    else if String.eqb p InstancePhaseStopping
            || String.eqb p InstancePhaseStopped
    then (PhaseStopped, ConditionFalse, "Stopped",
          "Container is stopped, filesystem preserved")
    else if String.eqb p InstancePhaseFailed
    then (PhaseFailed, ConditionFalse, "Failed", Message (sciStatus sci))
    else (PhasePending, ConditionUnknown, "Unknown", "Unknown state") in
  mkStoppableContainer (scMeta sc) (scSpec sc)
    (mkContainerStatus phase (Name (sciMeta sci))
       (ProviderPodName (sciStatus sci)) (ConsumerPodName (sciStatus sci))
       (HostPath (sciStatus sci)) (StatusNodeName (sciStatus sci))
       (SetStatusCondition (scConditions (scStatus sc))
          (mkCondition ConditionTypeReady conditionStatus
             (Generation (scMeta sc)) reason message))
       (Generation (scMeta sc))).

Definition containerKey (sc : StoppableContainer) : ObjectKey :=
  (Namespace (scMeta sc), Name (scMeta sc)).

Definition storeContainerStatus (sc : StoppableContainer) (c : Cluster)
  : Cluster :=
  match containers c !! containerKey sc with
  | None => c
  | Some stored =>
      mkCluster (instances c)
        (<[containerKey sc :=
             mkStoppableContainer (scMeta stored) (scSpec stored) (scStatus sc)]>
           (containers c))
        (pods c) (phasesWritten c)
  end.

(** [StoppableContainerReconciler.updateStatusFromInstance]. *)
Definition updateStatusFromInstance (c : Cluster) (sc : StoppableContainer)
    (sci : StoppableContainerInstance) : Cluster * Outcome :=
  let sc := projectStatus sc sci in
  if apiFault (UpdateContainerStatus (containerKey sc))
  then (c, Failed (UpdateContainerStatus (containerKey sc)))
  else
    (storeContainerStatus sc c,
     if negb (String.eqb (scPhase (scStatus sc)) PhaseRunning)
        && negb (String.eqb (scPhase (scStatus sc)) PhaseStopped)
        && negb (String.eqb (scPhase (scStatus sc)) PhaseFailed)
     then Done (mkResult false 2)
     else Done noRequeue).

End Reconcilers.

(** [c'] differs from [c] in the instance [req] at most, and there in the
    status and the finalizers only; the instance may be gone if it was
    being deleted and held no finalizer but that of the controller. *)
Definition sameInstances (req : ObjectKey) (c c' : Cluster) : Prop :=
  containers c' = containers c /\
  (forall k, k <> req -> instances c' !! k = instances c !! k) /\
  match instances c !! req with
  | None => instances c' !! req = None
  | Some sci =>
      (exists sci',
         instances c' !! req = Some sci' /\
         sciSpec sci' = sciSpec sci /\
         setFinalizers (sciMeta sci') (Finalizers (sciMeta sci)) = sciMeta sci)
      \/
      (instances c' !! req = None /\
       Deleting (sciMeta sci) = true /\
       forall f, In f (Finalizers (sciMeta sci)) -> f = SCIFinalizerName)
  end.

(** The deletion of the instance [req] is complete: the two pods that
    [handleDeletion] looks up are gone, and the instance is gone or no
    longer holds the finalizer of the controller. *)
Definition deletionDone (req : ObjectKey) (sci : StoppableContainerInstance)
    (c : Cluster) : Prop :=
  pods c !! consumerPodKey sci = None /\
  pods c !! providerPodKey sci = None /\
  match instances c !! req with
  | None => True
  | Some sci' =>
      Deleting (sciMeta sci') = true /\
      ContainsFinalizer (sciMeta sci') SCIFinalizerName = false
  end.

(** What the rest of the cluster does between reconciliations: the
    desired state of an instance is switched (by the workload controller),
    the scheduler binds a pod to a node, the kubelet reports a pod's
    status, and a pod whose deletion was requested is gone once the
    kubelet has stopped it. *)
Definition setRunning (key : ObjectKey) (running : bool) (c : Cluster)
  : Cluster :=
  match instances c !! key with
  | None => c
  | Some sci =>
      mkCluster
        (<[key := mkInstance (sciMeta sci)
                    (mkInstanceSpec (StoppableContainerName (sciSpec sci)) running
                       (Template (sciSpec sci)) (Provider (sciSpec sci))
                       (HostPathPrefix (sciSpec sci)))
                    (sciStatus sci)]> (instances c))
        (containers c) (pods c) (phasesWritten c)
  end.

Definition bindPod (key : ObjectKey) (node : string) (c : Cluster) : Cluster :=
  match pods c !! key with
  | None => c
  | Some pod =>
      let sp := podSpec pod in
      storePod
        (mkPod (podMeta pod)
           (mkPodSpec (Containers sp) (InitContainers sp) (Volumes sp) node
              (RestartPolicy sp) (specRest sp))
           (podStatus pod)) c
  end.

Definition reportPodStatus (key : ObjectKey) (status : PodStatus) (c : Cluster)
  : Cluster :=
  match pods c !! key with
  | None => c
  | Some pod => storePod (mkPod (podMeta pod) (podSpec pod) status) c
  end.

Definition removePod (key : ObjectKey) (c : Cluster) : Cluster :=
  mkCluster (instances c) (containers c) (delete key (pods c)) (phasesWritten c).

Definition podTerminated (key : ObjectKey) (c : Cluster) : Cluster :=
  match pods c !! key with
  | None => c
  | Some pod => if Deleting (podMeta pod) then removePod key c else c
  end.

(** One step of the system around one instance controller. *)
Inductive step (apiFault : ApiCall -> bool) (image : string)
    (providerPodSpec : StoppableContainerInstance -> PodSpec)
  : Cluster -> Cluster -> Prop :=
| step_reconcile (c : Cluster) (req : ObjectKey) :
    step apiFault image providerPodSpec c
      (Reconcile apiFault image providerPodSpec c req).1
| step_setRunning (c : Cluster) (key : ObjectKey) (running : bool) :
    step apiFault image providerPodSpec c (setRunning key running c)
| step_bindPod (c : Cluster) (key : ObjectKey) (node : string) :
    step apiFault image providerPodSpec c (bindPod key node c)
| step_reportPodStatus (c : Cluster) (key : ObjectKey) (status : PodStatus) :
    step apiFault image providerPodSpec c (reportPodStatus key status c)
| step_podTerminated (c : Cluster) (key : ObjectKey) :
    step apiFault image providerPodSpec c (podTerminated key c).

(** Scenario S1/S2 of the specification: the instance demo in namespace
    default, freshly created with [running = true] and one busybox
    container. *)
Definition noApiFault : ApiCall -> bool := fun _ => false.

Definition demoTemplate : PodTemplateSpec :=
  mkPodTemplateSpec
    (mkObjectMeta "" "" "" 0 false [] ∅ ∅ [])
    (mkSingleContainer "busybox:stable" ""
       ["/bin/sh"; "-c"; "echo hi; sleep 3600"] [] "" []
       (mkResourceRequirements [] []) [] None "")
    [] [] ∅ "".

Definition demoInstance : StoppableContainerInstance :=
  mkInstance
    (mkObjectMeta "demo" "default" "uid-demo" 1 false [] ∅ ∅ [])
    (mkInstanceSpec "demo" true demoTemplate
       (mkProviderSpec (mkResourceRequirements [] []) ∅ "") "")
    (mkInstanceStatus "" "" "" "" "" "" "" 0 "" [] 0).

Definition demoContainer : StoppableContainer :=
  mkStoppableContainer
    (mkObjectMeta "demo" "default" "uid-sc" 3 false [] ∅ ∅ [])
    (mkContainerSpec true demoTemplate
       (mkProviderSpec (mkResourceRequirements [] []) ∅ "") "")
    (mkContainerStatus "" "" "" "" "" "" [] 0).

Definition demoKey : ObjectKey := ("default", "demo").

Definition demoCluster : Cluster :=
  mkCluster {[demoKey := demoInstance]} {[demoKey := demoContainer]} ∅ [].

Definition demoProviderSpec (sci : StoppableContainerInstance) : PodSpec :=
  mkPodSpec [] [] [] "" "Always" "".

Definition readyStatus : PodStatus :=
  mkPodStatus "Running" [mkPodCondition "Ready" "True"] "" "" [].

Definition demoReconcile (c : Cluster) : Cluster :=
  (Reconcile noApiFault "exec:latest" demoProviderSpec c demoKey).1.

(** The instance is created, its provider comes up on node-1, the
    consumer is created and becomes ready, then the instance is switched
    off. *)
Definition demoRunning : Cluster :=
  demoReconcile
    (reportPodStatus ("default", "demo-consumer") readyStatus
       (demoReconcile
          (reportPodStatus ("default", "demo-provider") readyStatus
             (bindPod ("default", "demo-provider") "node-1"
                (demoReconcile (demoReconcile demoCluster)))))).

Definition demoSwitchedOff : Cluster := setRunning demoKey false demoRunning.

(** The next reconciliation requests the deletion of the consumer pod;
    then the pod comes to its end. *)
Definition demoStopping : Cluster := demoReconcile demoSwitchedOff.

Definition demoConsumerGone : Cluster :=
  podTerminated ("default", "demo-consumer") demoStopping.

(** One reconciliation of [req] when no call fails. *)
Definition reconcileOnce (image : string)
    (providerPodSpec : StoppableContainerInstance -> PodSpec)
    (req : ObjectKey) (c : Cluster) : Cluster :=
  (Reconcile noApiFault image providerPodSpec c req).1.

(** The instance with the finalizer of the controller removed, as
    [handleDeletion] stores it. *)
Definition released (sci : StoppableContainerInstance)
  : StoppableContainerInstance :=
  mkInstance (RemoveFinalizer (sciMeta sci) SCIFinalizerName) (sciSpec sci)
    (sciStatus sci).

(** The instance demo with the finalizer of the controller, its provider
    pod ready on node-1, and a ready pod under the name demo-consumer. *)
Definition demoManaged : StoppableContainerInstance :=
  mkInstance (AddFinalizer (sciMeta demoInstance) SCIFinalizerName)
    (sciSpec demoInstance) (sciStatus demoInstance).

Definition demoProviderPod : Pod :=
  mkPod (mkObjectMeta "demo-provider" "default" "uid-provider" 1 false [] ∅ ∅ [])
    (mkPodSpec [] [] [] "node-1" "Always" "") readyStatus.

Definition demoConsumerPod : Pod :=
  mkPod (mkObjectMeta "demo-consumer" "default" "uid-consumer" 1 false [] ∅ ∅ [])
    (mkPodSpec [] [] [] "node-1" "Always" "") readyStatus.

Definition demoProviderReady : Cluster :=
  mkCluster {[demoKey := demoManaged]} ∅
    {[("default", "demo-provider") := demoProviderPod]} [].

Definition demoBothReady : Cluster :=
  mkCluster {[demoKey := demoManaged]} ∅
    (<[("default", "demo-consumer") := demoConsumerPod]>
       {[("default", "demo-provider") := demoProviderPod]}) [].


(** The same cluster once the deletion of the instance was requested. *)
Definition demoDeletingInstance : StoppableContainerInstance :=
  mkInstance
    (mkObjectMeta "demo" "default" "uid-demo" 1 true [SCIFinalizerName] ∅ ∅ [])
    (sciSpec demoInstance) (sciStatus demoInstance).

Definition demoDeleting : Cluster :=
  mkCluster {[demoKey := demoDeletingInstance]} ∅ (pods demoBothReady) [].

End Controller.

(* ================================================================== *)
(** * The workload controller (StoppableContainerReconciler) *)
(* ================================================================== *)

Module Workload.
Import Meta Core Api ApiSingle Controller.

Definition FinalizerName : string := "stoppablecontainer.xtlsoft.top/finalizer".

(** The calls of this controller that the instance controller does not
    issue. *)
Inductive WorkloadCall : Type :=
| GetContainer (key : ObjectKey)
| UpdateContainer (key : ObjectKey)
| CreateInstance (key : ObjectKey)
| DeleteInstance (key : ObjectKey).

(** What a reconciliation returns: a result, or the error of a call. *)
Inductive Reconciled : Type :=
| Finished (r : Result)
| Erred (call : ApiCall + WorkloadCall).

Definition ofOutcome (o : Outcome) : Reconciled :=
  match o with
  | Done r => Finished r
  | Failed call => Erred (inl call)
  end.

(** [r.Update] of a workload object: metadata and spec are stored, the
    status is not; an object under deletion whose last finalizer is gone
    disappears. *)
Definition storeContainer (sc : StoppableContainer) (c : Cluster) : Cluster :=
  let key := containerKey sc in
  match containers c !! key with
  | None => c
  | Some stored =>
      if Deleting (scMeta sc) && bool_decide (Finalizers (scMeta sc) = [])
      then mkCluster (instances c) (delete key (containers c)) (pods c)
             (phasesWritten c)
      else mkCluster (instances c)
             (<[key := mkStoppableContainer (scMeta sc) (scSpec sc)
                         (scStatus stored)]> (containers c))
             (pods c) (phasesWritten c)
  end.

(** [r.Create] of an instance that is not there yet.  The object is
    stored as it was built; the UID and the generation that the API server
    assigns are not read by [createInstance]. *)
Definition addInstance (sci : StoppableContainerInstance) (c : Cluster)
  : Cluster :=
  mkCluster (<[instanceKey sci := sci]> (instances c)) (containers c) (pods c)
    (phasesWritten c).

(** [r.Delete] of an instance: it is marked as being deleted while it
    holds a finalizer, and removed at once otherwise. *)
Definition deleteInstance (key : ObjectKey) (c : Cluster) : Cluster :=
  match instances c !! key with
  | None => c
  | Some sci =>
      let m := sciMeta sci in
      if bool_decide (Finalizers m = [])
      then mkCluster (delete key (instances c)) (containers c) (pods c)
             (phasesWritten c)
      else mkCluster
             (<[key := mkInstance
                         (mkObjectMeta (Name m) (Namespace m) (UID m)
                            (Generation m) true (Finalizers m) (Labels m)
                            (Annotations m) (OwnerReferences m))
                         (sciSpec sci) (sciStatus sci)]> (instances c))
             (containers c) (pods c) (phasesWritten c)
  end.

(** The instance in hand with [Spec.Running] assigned. *)
Definition withRunning (sci : StoppableContainerInstance) (running : bool)
  : StoppableContainerInstance :=
  mkInstance (sciMeta sci)
    (mkInstanceSpec (StoppableContainerName (sciSpec sci)) running
       (Template (sciSpec sci)) (Provider (sciSpec sci))
       (HostPathPrefix (sciSpec sci)))
    (sciStatus sci).

(** The instance that [createInstance] builds. *)
Definition newInstance (sc : StoppableContainer) : StoppableContainerInstance :=
  mkInstance
    (mkObjectMeta (Name (scMeta sc)) (Namespace (scMeta sc)) "" 0 false [] ∅ ∅
       [mkOwnerReference GroupVersion "StoppableContainer" (Name (scMeta sc))
          (UID (scMeta sc)) (Some true) (Some true)])
    (mkInstanceSpec (Name (scMeta sc)) true (scTemplate (scSpec sc))
       (scProvider (scSpec sc)) (scHostPathPrefix (scSpec sc)))
    (mkInstanceStatus "" "" "" "" "" "" "" 0 "" [] 0).

(** The assignments to the status of the object in hand in
    [createInstance] and in [updateStatusStopped]. *)
Definition statusCreated (sc : StoppableContainer) : StoppableContainer :=
  let st := scStatus sc in
  mkStoppableContainer (scMeta sc) (scSpec sc)
    (mkContainerStatus PhasePending (Name (scMeta sc)) (scProviderPodName st)
       (scConsumerPodName st) (scHostPath st) (scNodeName st)
       (SetStatusCondition (scConditions st)
          (mkCondition ConditionTypeReady ConditionFalse
             (Generation (scMeta sc)) "InstanceCreated"
             "StoppableContainerInstance has been created"))
       (Generation (scMeta sc))).

Definition statusStopped (sc : StoppableContainer) : StoppableContainer :=
  let st := scStatus sc in
  mkStoppableContainer (scMeta sc) (scSpec sc)
    (mkContainerStatus PhaseStopped (scInstanceName st) (scProviderPodName st)
       (scConsumerPodName st) (scHostPath st) (scNodeName st)
       (SetStatusCondition (scConditions st)
          (mkCondition ConditionTypeReady ConditionFalse
             (Generation (scMeta sc)) "Stopped"
             "Container is stopped, no instance exists"))
       (Generation (scMeta sc))).

Section Reconciler.

(** Transient failures of the API server, for the calls shared with the
    instance controller and for the calls of this controller. *)
Variable apiFault : ApiCall -> bool.
Variable workloadFault : WorkloadCall -> bool.

(** [handleDeletion]. *)
Definition handleDeletion (c : Cluster) (sc : StoppableContainer)
  : Cluster * Reconciled :=
  if negb (ContainsFinalizer (scMeta sc) FinalizerName)
  then (c, Finished noRequeue)
  else
    let sciName := (Namespace (scMeta sc), Name (scMeta sc)) in
    if apiFault (GetInstance sciName)
    then (c, Erred (inl (GetInstance sciName)))
    else
      match instances c !! sciName with
      | Some sci =>
          if workloadFault (DeleteInstance sciName)
          then (c, Erred (inr (DeleteInstance sciName)))
          else (deleteInstance sciName c, Finished (mkResult false 1))
      | None =>
          let sc := mkStoppableContainer
                      (RemoveFinalizer (scMeta sc) FinalizerName)
                      (scSpec sc) (scStatus sc) in
          if workloadFault (UpdateContainer (containerKey sc))
          then (c, Erred (inr (UpdateContainer (containerKey sc))))
          else (storeContainer sc c, Finished noRequeue)
      end.

(** [createInstance]. *)
Definition createInstance (c : Cluster) (sc : StoppableContainer)
  : Cluster * Reconciled :=
  let sci := newInstance sc in
  if workloadFault (CreateInstance (instanceKey sci))
  then (c, Erred (inr (CreateInstance (instanceKey sci))))
  else
    match instances c !! instanceKey sci with
    | Some _ => (c, Finished (mkResult true 0))
    | None =>
        let c := addInstance sci c in
        let sc := statusCreated sc in
        if apiFault (UpdateContainerStatus (containerKey sc))
        then (c, Erred (inl (UpdateContainerStatus (containerKey sc))))
        else (storeContainerStatus sc c, Finished (mkResult false 1))
    end.

(** [updateStatusStopped]. *)
Definition updateStatusStopped (c : Cluster) (sc : StoppableContainer)
  : Cluster * Reconciled :=
  let sc := statusStopped sc in
  if apiFault (UpdateContainerStatus (containerKey sc))
  then (c, Erred (inl (UpdateContainerStatus (containerKey sc))))
  else (storeContainerStatus sc c, Finished noRequeue).

(** The two branches of [Reconcile] that set [Spec.Running] of the
    instance found and then project its status. *)
Definition syncRunning (c : Cluster) (sc : StoppableContainer)
    (sci : StoppableContainerInstance) (running : bool)
  : Cluster * Reconciled :=
  if bool_decide (Running (sciSpec sci) = running)
  then
    let '(c, o) := updateStatusFromInstance apiFault c sc sci in
    (c, ofOutcome o)
  else
    let sci := withRunning sci running in
    if apiFault (UpdateInstance (instanceKey sci))
    then (c, Erred (inl (UpdateInstance (instanceKey sci))))
    else
      let '(c, o) :=
        updateStatusFromInstance apiFault (storeInstance sci c) sc sci in
      (c, ofOutcome o).

(** [StoppableContainerReconciler.Reconcile]. *)
Definition Reconcile (c : Cluster) (req : ObjectKey) : Cluster * Reconciled :=
  if workloadFault (GetContainer req)
  then (c, Erred (inr (GetContainer req)))
  else
  match containers c !! req with
  | None => (c, Finished noRequeue)
  | Some sc =>
  if Deleting (scMeta sc) then handleDeletion c sc
  else if negb (ContainsFinalizer (scMeta sc) FinalizerName)
  then
    let sc := mkStoppableContainer (AddFinalizer (scMeta sc) FinalizerName)
                (scSpec sc) (scStatus sc) in
    if workloadFault (UpdateContainer (containerKey sc))
    then (c, Erred (inr (UpdateContainer (containerKey sc))))
    else (storeContainer sc c, Finished (mkResult true 0))
  else
  let sciName := (Namespace (scMeta sc), Name (scMeta sc)) in
  if apiFault (GetInstance sciName)
  then (c, Erred (inl (GetInstance sciName)))
  else
  if scRunning (scSpec sc)
  then
    match instances c !! sciName with
    | None => createInstance c sc
    | Some sci => syncRunning c sc sci true
    end
  else
    match instances c !! sciName with
    | Some sci => syncRunning c sc sci false
    | None => updateStatusStopped c sc
    end
  end.

End Reconciler.

Definition noWorkloadFault : WorkloadCall -> bool := fun _ => false.

(** The workload object demo with the finalizer of its controller. *)
Definition demoWorkload : StoppableContainer :=
  mkStoppableContainer (AddFinalizer (scMeta demoContainer) FinalizerName)
    (scSpec demoContainer) (scStatus demoContainer).

Definition demoWorkloadOnly : Cluster :=
  mkCluster ∅ {[demoKey := demoWorkload]} ∅ [].

(** One reconciliation of the workload object [req] when no call fails. *)
Definition reconcileWorkloadOnce (req : ObjectKey) (c : Cluster) : Cluster :=
  (Reconcile noApiFault noWorkloadFault c req).1.

(** The workload object demo under deletion, with its instance and both
    pods still there. *)
Definition demoWorkloadDeleting : StoppableContainer :=
  mkStoppableContainer
    (mkObjectMeta "demo" "default" "uid-sc" 3 true [FinalizerName] ∅ ∅ [])
    (scSpec demoContainer) (scStatus demoContainer).

Definition demoCascade : Cluster :=
  mkCluster {[demoKey := demoManaged]} {[demoKey := demoWorkloadDeleting]}
    (pods demoBothReady) [].

End Workload.

(* ================================================================== *)
(** * Theorems *)
(* ================================================================== *)

Section GoStringsFacts.
Import GoStrings.

Lemma HasPrefix_app (p t : list ascii) : HasPrefix (p ++ t) p = true.
Proof.
  induction p as [|a p IH]; simpl; [done|].
  by rewrite Ascii.eqb_refl, IH.
Qed.

Lemma HasPrefix_inv (s p : list ascii) :
  HasPrefix s p = true -> exists t, s = p ++ t.
Proof.
  revert s; induction p as [|a p IH]; intros s H.
  - by exists s.
  - destruct s as [|c s]; simpl in H; [done|].
    apply andb_true_iff in H as [Hc Hs].
    apply Ascii.eqb_eq in Hc as ->.
    destruct (IH _ Hs) as [t ->]. by exists t.
Qed.

Lemma HasPrefix_length (s p : list ascii) :
  HasPrefix s p = true -> length p <= length s.
Proof.
  intros H. destruct (HasPrefix_inv _ _ H) as [t ->].
  rewrite length_app. lia.
Qed.

(** A byte that does not occur in [p] ends every attempt to match [p]. *)
Lemma HasPrefix_app_sep (a b p : list ascii) (c : ascii) :
  ~ In c p -> HasPrefix (a ++ c :: b) p = HasPrefix a p.
Proof.
  revert a; induction p as [|x p IH]; intros a Hc.
  - by destruct a.
  - destruct a as [|y a]; simpl.
    + destruct (Ascii.eqb_spec c x) as [->|]; [|done].
      exfalso. apply Hc. by left.
    + rewrite IH; [done|]. intros Hin. apply Hc. by right.
Qed.

Lemma Contains_app_l (a b p : list ascii) :
  Contains a p = true -> Contains (a ++ b) p = true.
Proof.
  induction a as [|x a IH]; simpl.
  - rewrite orb_false_r. destruct p; [|done]. by destruct b.
  - intros H. apply orb_true_iff in H as [H|H].
    + destruct (HasPrefix_inv _ _ H) as [t Ht].
      change (x :: a ++ b) with ((x :: a) ++ b).
      rewrite Ht, <- app_assoc, HasPrefix_app. done.
    + rewrite (IH H). apply orb_true_r.
Qed.

Lemma Contains_app_r (a b p : list ascii) :
  Contains (a ++ b) p = false -> Contains b p = false.
Proof.
  induction a as [|x a IH]; simpl; [done|].
  intros H. apply orb_false_iff in H as [_ H]. auto.
Qed.

Section Replace.
Variables old new : list ascii.
Hypothesis old_nonempty : old <> [].

Lemma ReplaceAll_unfold (s : list ascii) :
  ReplaceAll s old new = replaceFrom old new 0 s.
Proof using old_nonempty. unfold ReplaceAll. by destruct old. Qed.

Lemma replaceFrom_drop (l t : list ascii) :
  replaceFrom old new (length l) (l ++ t) = replaceFrom old new 0 t.
Proof. induction l as [|x l IH]; simpl; [by destruct t|done]. Qed.

(** The three equations that determine [ReplaceAll]. *)
Lemma ReplaceAll_nil : ReplaceAll [] old new = [].
Proof using old_nonempty. by rewrite ReplaceAll_unfold. Qed.

Lemma replaceFrom_cons_match (c : ascii) (s : list ascii) :
  HasPrefix (c :: s) old = true ->
  replaceFrom old new 0 (c :: s)
  = new ++ replaceFrom old new (length old - 1) s.
Proof. intros H. cbn [replaceFrom]. by rewrite H. Qed.

Lemma ReplaceAll_match (t : list ascii) :
  ReplaceAll (old ++ t) old new = new ++ ReplaceAll t old new.
Proof using old_nonempty.
  rewrite !ReplaceAll_unfold.
  assert (exists o old', old = o :: old') as (o & old' & E)
    by (destruct old; [done|eauto]).
  assert (old ++ t = o :: (old' ++ t)) as Happ by (by rewrite E).
  rewrite Happ, replaceFrom_cons_match
    by (rewrite <- Happ; apply HasPrefix_app).
  replace (length old - 1) with (length old') by (rewrite E; simpl; lia).
  by rewrite replaceFrom_drop.
Qed.

Lemma ReplaceAll_step (c : ascii) (s : list ascii) :
  HasPrefix (c :: s) old = false ->
  ReplaceAll (c :: s) old new = c :: ReplaceAll s old new.
Proof using old_nonempty.
  intros H. rewrite !ReplaceAll_unfold. cbn [replaceFrom]. by rewrite H.
Qed.

(** Without an occurrence of [old] nothing changes. *)
Lemma ReplaceAll_absent (s : list ascii) :
  Contains s old = false -> ReplaceAll s old new = s.
Proof using old_nonempty.
  induction s as [|c s IH]; intros H.
  - apply ReplaceAll_nil.
  - cbn [Contains] in H. apply orb_false_iff in H as [H1 H2].
    rewrite ReplaceAll_step by done. by rewrite IH.
Qed.

(** Replacement never crosses a byte that [old] does not contain. *)
Lemma replaceFrom_sep (c : ascii) (b a : list ascii) (k : nat) :
  ~ In c old -> k <= length a ->
  replaceFrom old new k (a ++ c :: b)
  = replaceFrom old new k a ++ c :: replaceFrom old new 0 b.
Proof using old_nonempty.
  intros Hc. revert k. induction a as [|x a IH]; intros k Hk.
  - assert (k = 0) as -> by (simpl in Hk; lia).
    pose proof (HasPrefix_app_sep [] b old c Hc) as H0.
    cbn [app] in H0. cbn [app replaceFrom]. rewrite H0.
    by destruct old.
  - destruct k as [|k].
    + change ((x :: a) ++ c :: b) with (x :: (a ++ c :: b)).
      cbn [replaceFrom].
      change (x :: a ++ c :: b) with ((x :: a) ++ c :: b).
      rewrite (HasPrefix_app_sep (x :: a) b old c Hc).
      destruct (HasPrefix (x :: a) old) eqn:E.
      * apply HasPrefix_length in E. simpl in E.
        rewrite IH by lia. by rewrite app_assoc.
      * rewrite IH by lia. done.
    + simpl in Hk. cbn [app replaceFrom]. apply IH. lia.
Qed.

Lemma ReplaceAll_sep (c : ascii) (a b : list ascii) :
  ~ In c old ->
  ReplaceAll (a ++ c :: b) old new
  = ReplaceAll a old new ++ c :: ReplaceAll b old new.
Proof using old_nonempty.
  intros Hc. rewrite !ReplaceAll_unfold. apply replaceFrom_sep; [done|lia].
Qed.

(** Lengths, when the replacement is at least as long as [old]. *)
Lemma replaceFrom_length_ge (k : nat) (s : list ascii) :
  length old <= length new ->
  length s <= length (replaceFrom old new k s) + k.
Proof using old_nonempty.
  intros Hlen. revert k. induction s as [|c s IH]; intros k; [simpl; lia|].
  destruct k as [|k]; cbn [replaceFrom].
  - destruct (HasPrefix (c :: s) old).
    + rewrite length_app. specialize (IH (length old - 1)).
      assert (0 < length old) by (destruct old; [done|simpl; lia]).
      cbn [length]. lia.
    + specialize (IH 0). cbn [length]. lia.
  - specialize (IH k). cbn [length]. lia.
Qed.

Lemma ReplaceAll_length_gt (s : list ascii) :
  length old < length new ->
  Contains s old = true ->
  length s < length (ReplaceAll s old new).
Proof using old_nonempty.
  intros Hlen. rewrite ReplaceAll_unfold.
  induction s as [|c s IH]; intros H.
  - simpl in H. rewrite orb_false_r in H. by destruct old.
  - cbn [Contains] in H. cbn [replaceFrom].
    destruct (HasPrefix (c :: s) old) eqn:E.
    + rewrite length_app.
      pose proof (replaceFrom_length_ge (length old - 1) s ltac:(lia)).
      assert (0 < length old) by (destruct old; [done|simpl; lia]).
      cbn [length]. lia.
    + simpl in H. specialize (IH H). cbn [length]. lia.
Qed.

(** When [new] itself contains [old], replacing keeps an occurrence. *)
Lemma ReplaceAll_still_contains (s : list ascii) :
  Contains new old = true ->
  Contains s old = true ->
  Contains (ReplaceAll s old new) old = true.
Proof using old_nonempty.
  intros Hnew. rewrite ReplaceAll_unfold.
  induction s as [|c s IH]; intros H.
  - simpl in H. rewrite orb_false_r in H. by destruct old.
  - cbn [Contains] in H. cbn [replaceFrom].
    destruct (HasPrefix (c :: s) old) eqn:E.
    + by apply Contains_app_l.
    + simpl in H. cbn [Contains]. rewrite (IH H). apply orb_true_r.
Qed.

End Replace.
End GoStringsFacts.

(* ------------------------------------------------------------------ *)
(** ** Path adjustment of the mount agent *)
(* ------------------------------------------------------------------ *)

Section AdjustPaths.
Import GoStrings MountHelper OverlayOptions.

Lemma ContainerdPath_nonempty : ContainerdPath <> [].
Proof. discriminate. Qed.

Lemma adjusted_prefix_contains_prefix :
  Contains (HostRootPath ++ ContainerdPath) ContainerdPath = true.
Proof. reflexivity. Qed.

Lemma adjustPathsForHost_absent (s : list ascii) :
  Contains s ContainerdPath = false -> adjustPathsForHost s = s.
Proof. apply ReplaceAll_absent, ContainerdPath_nonempty. Qed.

Lemma adjustPathsForHost_grows (s : list ascii) :
  Contains s ContainerdPath = true ->
  length s < length (adjustPathsForHost s).
Proof.
  apply ReplaceAll_length_gt; [apply ContainerdPath_nonempty|].
  vm_compute. lia.
Qed.

Lemma separator_not_in_prefix (c : ascii) :
  c = ","%char \/ c = "="%char \/ c = ":"%char -> ~ In c ContainerdPath.
Proof.
  intros Hc Hin. apply list_elem_of_In in Hin.
  destruct Hc as [ -> | [ -> | -> ] ];
    revert Hin; apply (bool_decide_unpack _); vm_compute; exact I.
Qed.

Lemma adjustPathsForHost_sep (c : ascii) (a b : list ascii) :
  c = ","%char \/ c = "="%char \/ c = ":"%char ->
  adjustPathsForHost (a ++ c :: b)
  = adjustPathsForHost a ++ c :: adjustPathsForHost b.
Proof.
  intros Hc. apply ReplaceAll_sep; [apply ContainerdPath_nonempty|].
  by apply separator_not_in_prefix.
Qed.

Lemma adjustPathsForHost_joinWith (c : ascii) (l : list (list ascii)) :
  c = ","%char \/ c = "="%char \/ c = ":"%char ->
  adjustPathsForHost (joinWith c l) = joinWith c (map adjustPathsForHost l).
Proof.
  intros Hc. induction l as [|x [|y l] IH].
  - apply ReplaceAll_nil, ContainerdPath_nonempty.
  - done.
  - change (joinWith c (x :: y :: l)) with (x ++ c :: joinWith c (y :: l)).
    rewrite adjustPathsForHost_sep, IH by done. done.
Qed.

(** On a path in which the prefix occurs at the start or not at all,
    the agent does what the specification says. *)
Lemma adjustPathsForHost_path (p : list ascii) :
  prefixOnlyAtStart p -> adjustPathsForHost p = rewritePath p.
Proof.
  unfold prefixOnlyAtStart, rewritePath. intros Hp.
  destruct (HasPrefix p ContainerdPath) eqn:E.
  - destruct (HasPrefix_inv _ _ E) as [t ->].
    unfold adjustPathsForHost.
    rewrite ReplaceAll_match by apply ContainerdPath_nonempty.
    change (tail (ContainerdPath ++ t)) with (tail ContainerdPath ++ t) in Hp.
    apply Contains_app_r in Hp.
    rewrite (ReplaceAll_absent _ _ ContainerdPath_nonempty t Hp).
    by rewrite app_assoc.
  - apply adjustPathsForHost_absent.
    destruct p as [|c p]; [done|].
    cbn [Contains]. simpl in Hp. by rewrite E, Hp.
Qed.

Lemma adjustPathsForHost_option (o : option_) :
  wellPlaced o ->
  adjustPathsForHost (renderOption o) = renderOption (mapPaths rewritePath o).
Proof.
  destruct o as [name|key paths]; simpl.
  - apply adjustPathsForHost_absent.
  - intros [Hkey Hpaths].
    rewrite adjustPathsForHost_sep by auto.
    rewrite adjustPathsForHost_absent by done.
    rewrite adjustPathsForHost_joinWith by auto.
    assert (map adjustPathsForHost paths = map rewritePath paths) as ->; [|done].
    apply map_ext_Forall.
    eapply Forall_impl; [exact Hpaths|]. apply adjustPathsForHost_path.
Qed.

(** The cases of [TestAdjustPathsForHost]. *)
Example adjustPathsForHost_simple_path :
  adjustPathsForHost
    (bytes "lowerdir=/var/lib/containerd/io.containerd.snapshotter.v1.overlayfs/snapshots/1/fs")
  = bytes "lowerdir=/host/var/lib/containerd/io.containerd.snapshotter.v1.overlayfs/snapshots/1/fs".
Proof. reflexivity. Qed.

Example adjustPathsForHost_multiple_paths :
  adjustPathsForHost
    (bytes "lowerdir=/var/lib/containerd/a,upperdir=/var/lib/containerd/b,workdir=/var/lib/containerd/c")
  = bytes "lowerdir=/host/var/lib/containerd/a,upperdir=/host/var/lib/containerd/b,workdir=/host/var/lib/containerd/c".
Proof. reflexivity. Qed.

Example adjustPathsForHost_no_containerd_paths :
  adjustPathsForHost (bytes "lowerdir=/other/path,upperdir=/other/path2")
  = bytes "lowerdir=/other/path,upperdir=/other/path2".
Proof. reflexivity. Qed.

Example adjustPathsForHost_mixed_paths :
  adjustPathsForHost
    (bytes "lowerdir=/var/lib/containerd/a:/other/b,upperdir=/var/lib/containerd/c")
  = bytes "lowerdir=/host/var/lib/containerd/a:/other/b,upperdir=/host/var/lib/containerd/c".
Proof. reflexivity. Qed.


(** C3, as the specification states it, fails: a second application
    changes an adjusted string again. *)
Lemma adjustPathsForHost_not_idempotent :
  ~ (forall opts : list ascii,
       adjustPathsForHost (adjustPathsForHost opts) = adjustPathsForHost opts).
Proof.
  intros H.
  specialize (H (bytes "lowerdir=/var/lib/containerd/a")).
  vm_compute in H. discriminate H.
Qed.

(** C3 (amended): applying the path adjustment twice gives the result of
    applying it once exactly for the option strings without an occurrence
    of /var/lib/containerd, which the adjustment does not change; every
    string it changes is changed again by a second application. *)
Theorem adjustPathsForHost_twice_iff (opts : list ascii) :
  adjustPathsForHost (adjustPathsForHost opts) = adjustPathsForHost opts
  <-> Contains opts ContainerdPath = false.
Proof.
  split.
  - intros Heq. destruct (Contains opts ContainerdPath) eqn:E; [|done].
    exfalso.
    assert (Contains (adjustPathsForHost opts) ContainerdPath = true) as H.
    { apply ReplaceAll_still_contains;
        [apply ContainerdPath_nonempty|reflexivity|done]. }
    apply adjustPathsForHost_grows in H. rewrite Heq in H. lia.
  - intros H. by rewrite !(adjustPathsForHost_absent opts H).
Qed.

(** C4, as the specification states it, fails: a path that does not
    begin with the prefix but contains it further on is rewritten. *)
Lemma adjustPathsForHost_rewrites_inner_occurrence :
  ~ (forall os : list option_,
       adjustPathsForHost (renderOptions os)
       = renderOptions (map (mapPaths rewritePath) os)).
Proof.
  intros H.
  specialize (H [KeyPaths (bytes "lowerdir") [bytes "/opt/var/lib/containerd/a"];
                 KeyPaths (bytes "upperdir") [bytes "/u"];
                 KeyPaths (bytes "workdir") [bytes "/w"]]).
  vm_compute in H. discriminate H.
Qed.

(** C4 (amended): in an option string where the prefix
    /var/lib/containerd occurs only at the start of paths (not in a key
    or flag, and not further on in a path), the adjustment prepends the
    host root to exactly the paths that begin with the prefix and leaves
    every other path, and all keys and separators, unchanged. *)
Theorem adjustPathsForHost_paths (os : list option_) :
  Forall wellPlaced os ->
  adjustPathsForHost (renderOptions os)
  = renderOptions (map (mapPaths rewritePath) os).
Proof.
  intros Hos. unfold renderOptions.
  rewrite adjustPathsForHost_joinWith by auto.
  rewrite !map_map. f_equal. apply map_ext_Forall.
  eapply Forall_impl; [exact Hos|]. apply adjustPathsForHost_option.
Qed.

Lemma adjustPathsForHost_paths_witness :
  Forall wellPlaced exampleOptions /\
  adjustPathsForHost (renderOptions exampleOptions)
  = renderOptions (map (mapPaths rewritePath) exampleOptions).
Proof.
  split; [repeat constructor|].
  apply (adjustPathsForHost_paths exampleOptions). repeat constructor.
Defined.

Example adjustPathsForHost_exampleOptions :
  adjustPathsForHost (renderOptions exampleOptions)
  = bytes "lowerdir=/host/var/lib/containerd/a:/other/b,upperdir=/host/var/lib/containerd/c,rw".
Proof. reflexivity. Qed.

End AdjustPaths.

(* ------------------------------------------------------------------ *)
(** ** Directory order *)
(* ------------------------------------------------------------------ *)

Section DirectoryOrder.
Import GoStrings.

Lemma N_of_ascii_inj (x y : ascii) : N_of_ascii x = N_of_ascii y -> x = y.
Proof.
  intros H. rewrite <- (ascii_N_embedding x), <- (ascii_N_embedding y).
  by rewrite H.
Qed.

Lemma lexLeb_total (a b : list ascii) : lexLeb a b = true \/ lexLeb b a = true.
Proof.
  revert b; induction a as [|x a IH]; intros [|y b]; simpl; auto.
  rewrite (N.compare_antisym (N_of_ascii x) (N_of_ascii y)).
  destruct (N_of_ascii x ?= N_of_ascii y)%N; simpl; auto.
Qed.

Lemma lexLeb_trans (a b c : list ascii) :
  lexLeb a b = true -> lexLeb b c = true -> lexLeb a c = true.
Proof.
  revert b c; induction a as [|x a IH]; intros [|y b] [|z c]; simpl; try done.
  destruct (N.compare_spec (N_of_ascii x) (N_of_ascii y)) as [E1|L1|G1];
    destruct (N.compare_spec (N_of_ascii y) (N_of_ascii z)) as [E2|L2|G2];
    try done; intros H1 H2.
  - rewrite E1, E2, N.compare_refl. eauto.
  - rewrite E1. by apply N.compare_lt_iff in L2 as ->.
  - rewrite <- E2. by apply N.compare_lt_iff in L1 as ->.
  - assert (N_of_ascii x < N_of_ascii z)%N as L by lia.
    by apply N.compare_lt_iff in L as ->.
Qed.

Lemma In_insertEntry (x e : DirEntry) (l : list DirEntry) :
  In x (insertEntry e l) <-> x = e \/ In x l.
Proof.
  induction l as [|y l IH]; simpl; [intuition congruence|].
  destruct (lexLeb (entName e) (entName y)); simpl; intuition congruence.
Qed.

Lemma In_sortEntries (x : DirEntry) (l : list DirEntry) :
  In x (sortEntries l) <-> In x l.
Proof.
  induction l as [|y l IH]; simpl; [done|].
  rewrite In_insertEntry. intuition congruence.
Qed.

Lemma insertEntry_sorted (e : DirEntry) (l : list DirEntry) :
  StronglySorted nameLe l -> StronglySorted nameLe (insertEntry e l).
Proof.
  induction l as [|y l IH]; intros Hs; simpl.
  - by repeat constructor.
  - apply StronglySorted_inv in Hs as [Hs Hy].
    destruct (lexLeb (entName e) (entName y)) eqn:E.
    + constructor; [by constructor|].
      constructor; [done|].
      eapply Forall_impl; [exact Hy|].
      intros z Hz. by eapply lexLeb_trans.
    + constructor; [by apply IH|].
      apply List.Forall_forall. intros z Hz.
      apply In_insertEntry in Hz as [->|Hz].
      * destruct (lexLeb_total (entName e) (entName y)); [congruence|done].
      * rewrite List.Forall_forall in Hy. by apply Hy.
Qed.

Lemma sortEntries_sorted (l : list DirEntry) :
  StronglySorted nameLe (sortEntries l).
Proof.
  induction l as [|y l IH]; simpl; [constructor|by apply insertEntry_sorted].
Qed.

End DirectoryOrder.

(* ------------------------------------------------------------------ *)
(** ** The search for the rootfs container *)
(* ------------------------------------------------------------------ *)

Section FindRootfsContainer.
Import GoStrings MountHelper.
Variable fault : Syscall -> option (list ascii).

Lemma StronglySorted_app_tail {A} (R : A -> A -> Prop) (l1 l2 : list A) (e : A) :
  StronglySorted R (l1 ++ e :: l2) -> List.Forall (R e) l2.
Proof.
  induction l1 as [|x l1 IH]; simpl; intros H;
    apply StronglySorted_inv in H as [H1 H2]; auto.
Qed.

(** The loop returns the first entry, in the order given, that is a
    numeric name satisfying both conditions. *)
Lemma scanProcEntries_spec (h : Host) (podUID : list ascii)
    (entries : list DirEntry) :
  match scanProcEntries fault h
          (ReplaceAll podUID (bytes "-") (bytes "_")) entries with
  | Some pid =>
      exists l1 e l2,
        entries = l1 ++ e :: l2 /\
        Atoi (entName e) = Some pid /\
        isRootfsProcess fault h podUID (entName e) /\
        forall e', In e' l1 -> is_Some (Atoi (entName e')) ->
                   ~ isRootfsProcess fault h podUID (entName e')
  | None =>
      forall e, In e entries -> is_Some (Atoi (entName e)) ->
                ~ isRootfsProcess fault h podUID (entName e)
  end.
Proof.
  induction entries as [|entry rest IH]; [by intros e []|].
  assert (forall skip : ~ (is_Some (Atoi (entName entry)) /\
                           isRootfsProcess fault h podUID (entName entry)),
    match scanProcEntries fault h
            (ReplaceAll podUID (bytes "-") (bytes "_")) rest with
    | Some pid =>
        exists l1 e l2,
          entry :: rest = l1 ++ e :: l2 /\
          Atoi (entName e) = Some pid /\
          isRootfsProcess fault h podUID (entName e) /\
          forall e', In e' l1 -> is_Some (Atoi (entName e')) ->
                     ~ isRootfsProcess fault h podUID (entName e')
    | None =>
        forall e, In e (entry :: rest) -> is_Some (Atoi (entName e)) ->
                  ~ isRootfsProcess fault h podUID (entName e)
    end) as Hskip.
  { intros Hno.
    destruct (scanProcEntries fault h _ rest) as [pid|].
    - destruct IH as (l1 & e & l2 & -> & Hpid & Hm & Hbefore).
      exists (entry :: l1), e, l2. repeat split; [done..|].
      intros e' [<-|Hin] Hnum; [tauto|by apply Hbefore].
    - intros e [<-|Hin] Hnum; [tauto|by apply IH]. }
  cbn [scanProcEntries].
  destruct (Atoi (entName entry)) as [pid|] eqn:Hatoi;
    [|apply Hskip; by intros [[? [=]] _]].
  destruct (ReadFile fault h (Join (Join (bytes "/proc") (entName entry))
                                (bytes "cgroup"))) as [cg|] eqn:Hcg;
    [|apply Hskip; intros [_ (? & ? & Hr & _)]; congruence].
  destruct (Contains cg _) eqn:Hcgc; cbn [negb];
    [|apply Hskip; intros [_ (? & ? & Hr & Hc & _)]; congruence].
  destruct (ReadFile fault h (Join (Join (bytes "/proc") (entName entry))
                                (bytes "environ"))) as [env|] eqn:Henv;
    [|apply Hskip; intros [_ (? & ? & _ & _ & Hr & _)]; congruence].
  destruct (Contains env RootfsMarkerEnv) eqn:Henvc;
    [|apply Hskip; intros [_ (? & ? & _ & _ & Hr & Hc)]; congruence].
  exists [], entry, rest. repeat split; [done| |by intros e' []].
  by exists cg, env.
Qed.

(** C5, as the specification states it, fails: of two matching processes
    9 and 10 the search returns 10, which [os.ReadDir] lists first. *)
Lemma findRootfsContainer_not_lowest_pid :
  ~ (forall (flt : Syscall -> option (list ascii)) (h : Host)
            (podUID : list ascii) (l : list DirEntry) (pid : Z),
       flt (SysReadDir (bytes "/proc")) = None ->
       dirs h !! bytes "/proc" = Some l ->
       findRootfsContainer flt h podUID = Ok pid ->
       forall (e : DirEntry) (pid' : Z),
         In e l -> Atoi (entName e) = Some pid' ->
         isRootfsProcess flt h podUID (entName e) ->
         (pid <= pid')%Z).
Proof.
  intros H.
  specialize (H noFault twoRootfsHost (bytes "abc-123") twoRootfsProc
                10%Z eq_refl).
  specialize (H ltac:(by vm_compute) ltac:(by vm_compute)
                (mkDirEntry (bytes "9") true) 9%Z).
  assert (10 <= 9)%Z; [|lia].
  apply H; [by left|by vm_compute|].
  eexists _, _. repeat split; by vm_compute.
Qed.

(** C5 (amended): when /proc can be listed, the search returns a pid whose
    cgroup file contains the pod UID with dashes replaced by underscores
    and whose environ file contains the rootfs marker; it fails with
    "rootfs container not found for pod <uid>" exactly when no numeric
    entry satisfies both conditions; and when several do, it returns the
    first in the order of [os.ReadDir], that is the one whose entry name is
    least as a byte string (not in general the one with the lowest pid). *)
Theorem findRootfsContainer_first_match (h : Host) (podUID : list ascii)
    (l : list DirEntry) :
  fault (SysReadDir (bytes "/proc")) = None ->
  dirs h !! bytes "/proc" = Some l ->
  match findRootfsContainer fault h podUID with
  | Ok pid =>
      exists e, In e l /\ Atoi (entName e) = Some pid /\
        isRootfsProcess fault h podUID (entName e) /\
        forall e', In e' l -> is_Some (Atoi (entName e')) ->
                   isRootfsProcess fault h podUID (entName e') ->
                   lexLeb (entName e) (entName e') = true
  | Err msg =>
      msg = bytes "rootfs container not found for pod " ++ podUID /\
      forall e, In e l -> is_Some (Atoi (entName e)) ->
                ~ isRootfsProcess fault h podUID (entName e)
  end.
Proof.
  intros Hfault Hdir. unfold findRootfsContainer, ReadDir.
  rewrite Hfault, Hdir.
  pose proof (scanProcEntries_spec h podUID (sortEntries l)) as Hscan.
  destruct (scanProcEntries fault h _ (sortEntries l)) as [pid|].
  - destruct Hscan as (l1 & e & l2 & Hsplit & Hpid & Hm & Hbefore).
    pose proof (sortEntries_sorted l) as Hsorted. rewrite Hsplit in Hsorted.
    exists e. repeat split; [|done..|].
    { apply In_sortEntries. rewrite Hsplit. apply in_or_app. right. by left. }
    intros e' Hin Hnum Hm'.
    apply In_sortEntries in Hin. rewrite Hsplit in Hin.
    apply in_app_or in Hin as [Hin|[<-|Hin]].
    + by destruct (Hbefore e' Hin Hnum).
    + by destruct (lexLeb_total (entName e) (entName e)).
    + apply StronglySorted_app_tail in Hsorted.
      rewrite List.Forall_forall in Hsorted. by apply Hsorted.
  - split; [done|]. intros e Hin. apply Hscan. by apply In_sortEntries.
Qed.

End FindRootfsContainer.

Lemma findRootfsContainer_first_match_witness :
  MountHelper.noFault (MountHelper.SysReadDir (bytes "/proc")) = None /\
  MountHelper.dirs MountHelper.twoRootfsHost !! bytes "/proc"
    = Some MountHelper.twoRootfsProc /\
  exists e, In e MountHelper.twoRootfsProc /\
    GoStrings.Atoi (GoStrings.entName e) = Some 10%Z /\
    MountHelper.isRootfsProcess MountHelper.noFault MountHelper.twoRootfsHost
      (bytes "abc-123") (GoStrings.entName e) /\
    forall e', In e' MountHelper.twoRootfsProc ->
      is_Some (GoStrings.Atoi (GoStrings.entName e')) ->
      MountHelper.isRootfsProcess MountHelper.noFault MountHelper.twoRootfsHost
        (bytes "abc-123") (GoStrings.entName e') ->
      GoStrings.lexLeb (GoStrings.entName e) (GoStrings.entName e') = true.
Proof.
  split; [reflexivity|]. split; [by vm_compute|].
  exact (findRootfsContainer_first_match MountHelper.noFault
           MountHelper.twoRootfsHost (bytes "abc-123")
           MountHelper.twoRootfsProc eq_refl ltac:(by vm_compute)).
Defined.


(* ------------------------------------------------------------------ *)
(** ** Processing of one mount request *)
(* ------------------------------------------------------------------ *)

Section ProcessRequest.
Import GoStrings MountHelper.
Variable fault : Syscall -> option (list ascii).
Variable Unmarshal : list ascii -> result MountRequest.
Variable Marshal : MountResponse -> list ascii.

Lemma setupOnly_refl (h : Host) : setupOnly h h.
Proof.
  repeat split. exists []. split; [by rewrite app_nil_r|constructor].
Qed.

Lemma setupOnly_trans (h1 h2 h3 : Host) :
  setupOnly h1 h2 -> setupOnly h2 h3 -> setupOnly h1 h3.
Proof.
  intros (Hf1 & Hd1 & c1 & Hi1 & Hc1) (Hf2 & Hd2 & c2 & Hi2 & Hc2).
  repeat split; [congruence..|].
  exists (c1 ++ c2). split; [by rewrite Hi2, Hi1, app_assoc|].
  by apply List.Forall_app.
Qed.

Lemma setupOnly_logCall (c : Syscall) (h : Host) :
  isSetupCall c -> setupOnly h (logCall c h).
Proof. intros Hc. repeat split. exists [c]. split; [done|by repeat constructor]. Qed.

Lemma MkdirAll_setup (path : list ascii) (mode : N) (h : Host) :
  setupOnly h (MkdirAll fault path mode h).2.
Proof. by apply setupOnly_logCall. Qed.

Lemma Mount_setup (source target fstype : list ascii) (flags : N)
    (data : list ascii) (h : Host) :
  setupOnly h (Mount fault source target fstype flags data h).2.
Proof. by apply setupOnly_logCall. Qed.

Lemma mkdirAndMount_setup (label dir source fstype : list ascii) (flags : N)
    (remount : bool) (errs : list (list ascii)) (h : Host) :
  setupOnly h (mkdirAndMount fault label dir source fstype flags remount errs h).2.
Proof.
  unfold mkdirAndMount.
  pose proof (MkdirAll_setup dir 493 h) as H1.
  destruct (MkdirAll fault dir 493 h) as [[e|] h1]; [done|].
  pose proof (Mount_setup source dir fstype flags [] h1) as H2.
  destruct (Mount fault source dir fstype flags [] h1) as [[e|] h2];
    [by eapply setupOnly_trans|].
  destruct remount; simpl.
  - eapply setupOnly_trans; [done|]. eapply setupOnly_trans; [done|].
    apply Mount_setup.
  - by eapply setupOnly_trans.
Qed.

Lemma bindIfPresent_setup (hostPath dir : list ascii) (h : Host) :
  setupOnly h (bindIfPresent fault hostPath dir h).
Proof.
  unfold bindIfPresent. destruct (Stat fault h hostPath); [|apply setupOnly_refl].
  pose proof (MkdirAll_setup dir 493 h) as H1.
  destruct (MkdirAll fault dir 493 h) as [[e|] h1]; [done|].
  eapply setupOnly_trans; [done|]. apply Mount_setup.
Qed.

Lemma mountProcDevSys_setup (rootfsDir : list ascii) (h : Host) :
  setupOnly h (mountProcDevSys fault rootfsDir h).2.
Proof.
  unfold mountProcDevSys.
  match goal with |- context [mkdirAndMount fault ?l ?d ?s ?f ?fl ?r ?e h] =>
    pose proof (mkdirAndMount_setup l d s f fl r e h) as H1;
    destruct (mkdirAndMount fault l d s f fl r e h) as [errs1 h1] end.
  match goal with |- context [mkdirAndMount fault ?l ?d ?s ?f ?fl ?r ?e h1] =>
    pose proof (mkdirAndMount_setup l d s f fl r e h1) as H2;
    destruct (mkdirAndMount fault l d s f fl r e h1) as [errs2 h2] end.
  match goal with |- context [mkdirAndMount fault ?l ?d ?s ?f ?fl ?r ?e h2] =>
    pose proof (mkdirAndMount_setup l d s f fl r e h2) as H3;
    destruct (mkdirAndMount fault l d s f fl r e h2) as [errs3 h3] end.
  match goal with |- context [bindIfPresent fault ?a ?b h3] =>
    pose proof (bindIfPresent_setup a b h3) as H4;
    set (h4 := bindIfPresent fault a b h3) in * end.
  match goal with |- context [bindIfPresent fault ?a ?b h4] =>
    pose proof (bindIfPresent_setup a b h4) as H5;
    set (h5 := bindIfPresent fault a b h4) in * end.
  match goal with |- context [MkdirAll fault ?a ?m h5] =>
    pose proof (MkdirAll_setup a m h5) as H6;
    destruct (MkdirAll fault a m h5) as [[e|] h6] end;
  simpl in *.
  all: assert (setupOnly h h6) as Hall
    by (repeat (eapply setupOnly_trans; [eassumption|]); apply setupOnly_refl).
  all: by repeat case_match.
Qed.



End ProcessRequest.

Section ProcessEntry.
Import GoStrings MountHelper.
Variable fault : Syscall -> option (list ascii).
Variable Unmarshal : list ascii -> result MountRequest.
Variable Marshal : MountResponse -> list ascii.

Lemma ReadFile_Ok_files (h : Host) (path data : list ascii) :
  ReadFile fault h path = Ok data -> files h !! path = Some data.
Proof.
  unfold ReadFile. destruct (fault _); [done|].
  destruct (files h !! path); [|done]. by intros [= ->].
Qed.

Lemma request_ready_distinct (workDir : list ascii) :
  Join workDir ReadyFileName <> Join workDir RequestFileName.
Proof. unfold Join. intros H. by apply app_inv_head in H. Qed.

Lemma setupOnly_calls (h h' : Host) :
  setupOnly h h' ->
  exists calls, issued h' = issued h ++ calls /\ List.Forall isSetupCall calls.
Proof. by intros (_ & _ & H). Qed.

Lemma reportedError_now (h hp : Host) (workDir msg : list ascii)
    (calls : list Syscall) :
  files hp = files h ->
  issued hp = issued h ++ calls ->
  List.Forall (mountedNothing fault) calls ->
  reportedError fault Marshal h
    (writeResponse fault Marshal workDir (mkMountResponse (bytes "error") msg) hp).2
    workDir msg.
Proof.
  intros Hfiles Hissued Hcalls. unfold reportedError, writeResponse, WriteFile.
  destruct (fault (SysWriteFile _ _ 420)) as [e|]; cbn [snd].
  - split; [|split; [by rewrite <- Hfiles|done]].
    exists calls. split; [|done].
    cbn [issued logCall]. by rewrite Hissued, <- app_assoc.
  - split; [|cbn [files logCall]; split].
    + exists calls. split; [|done].
      cbn [issued logCall]. by rewrite Hissued, <- app_assoc.
    + rewrite lookup_insert_ne by apply request_ready_distinct.
      by rewrite Hfiles.
    + intros _. apply lookup_insert_eq.
Qed.

(** C2 (amended): for a work directory that holds a request, when reading
    and parsing the request, finding the rootfs container, extracting the
    overlay options, creating the rootfs directory and mounting the
    overlay all succeed, the agent removes request.json and then writes
    ready.json with status "ready" -- whether or not mounting proc, dev,
    sys and tmp reported errors, which are only logged; when one of those
    earlier steps returns an error, it writes ready.json with status
    "error" and that error's message and leaves request.json in place.
    The steps are taken in this order, and the first one that fails
    decides the message. *)
Theorem processEntry_commit (entry : DirEntry) (h : Host) :
  let workDir := Join hostWorkBase (entName entry) in
  let requestFile := Join workDir RequestFileName in
  let rootfsDir := Join workDir (bytes "rootfs") in
  let h' := processEntry fault Unmarshal Marshal hostWorkBase entry h in
  let error := reportedError fault Marshal h h' workDir in
  entIsDir entry = true ->
  Stat fault h requestFile = true ->
  match ReadFile fault h requestFile with
  | Err e => error (bytes "failed to read request: " ++ e)
  | Ok data =>
  match Unmarshal data with
  | Err e => error (bytes "failed to parse request: " ++ e)
  | Ok request =>
  match findRootfsContainer fault h (PodUID request) with
  | Err e => error (bytes "failed to find rootfs container: " ++ e)
  | Ok pid =>
  match getOverlayfsOptions fault h pid with
  | Err e => error (bytes "failed to get overlayfs options: " ++ e)
  | Ok opts =>
  let options := adjustPathsForHost opts in
  match fault (SysMkdirAll rootfsDir 493) with
  | Some e => error (bytes "failed to create rootfs dir: " ++ e)
  | None =>
  if negb (Contains options (bytes "lowerdir="))
     || negb (Contains options (bytes "upperdir="))
  then error (bytes "failed to mount overlay: invalid overlay options: missing lowerdir or upperdir")
  else
  match fault (SysMount (bytes "overlay") rootfsDir (bytes "overlay") 0 options) with
  | Some e => error (bytes "failed to mount overlay: mount syscall failed: " ++ e)
  | None => committedReady fault Marshal h h' workDir options
  end end end end end end.
Proof.
  intros workDir requestFile rootfsDir h' error Hdir Hstat.
  subst h' error. unfold processEntry.
  rewrite Hdir. cbn [negb]. fold workDir. fold requestFile.
  rewrite Hstat. cbn [negb]. unfold processRequest. fold rootfsDir.
  destruct (ReadFile fault h requestFile) as [data|e] eqn:Hread.
  2: { apply (reportedError_now h h workDir _ []);
         [done|by rewrite app_nil_r|constructor]. }
  destruct (Unmarshal data) as [request|e].
  2: { apply (reportedError_now h h workDir _ []);
         [done|by rewrite app_nil_r|constructor]. }
  destruct (findRootfsContainer fault h (PodUID request)) as [pid|e].
  2: { apply (reportedError_now h h workDir _ []);
         [done|by rewrite app_nil_r|constructor]. }
  destruct (getOverlayfsOptions fault h pid) as [opts|e].
  2: { apply (reportedError_now h h workDir _ []);
         [done|by rewrite app_nil_r|constructor]. }
  cbv zeta. unfold MkdirAll.
  set (mkdir := SysMkdirAll rootfsDir 493).
  destruct (fault mkdir) as [e|] eqn:Hmkdir.
  { apply (reportedError_now h (logCall mkdir h) workDir _ [mkdir]);
      [done|done|by repeat constructor]. }
  unfold mountOverlay.
  destruct (negb _ || negb _).
  { apply (reportedError_now h (logCall mkdir h) workDir _ [mkdir]);
      [done|done|by repeat constructor]. }
  unfold Mount. cbv zeta.
  set (overlay := SysMount _ rootfsDir _ 0 _).
  destruct (fault overlay) as [e|] eqn:Hoverlay.
  { apply (reportedError_now h (logCall overlay (logCall mkdir h)) workDir _
             [mkdir; overlay]); [done| |].
    - cbn [issued logCall]. by rewrite <- app_assoc.
    - repeat constructor. unfold mountedNothing. fold overlay.
      by rewrite Hoverlay. }
  set (h2 := logCall overlay (logCall mkdir h)).
  pose proof (mountProcDevSys_setup fault rootfsDir h2) as Hsetup.
  destruct (mountProcDevSys fault rootfsDir h2) as [warning h3].
  cbn [snd] in Hsetup.
  pose proof Hsetup as (Hfiles & _ & calls & Hissued & Hcalls).
  apply ReadFile_Ok_files in Hread.
  assert (files h3 !! requestFile = Some data) as Hreq
    by (by rewrite Hfiles).
  unfold committedReady, writeResponse, WriteFile, Remove.
  fold workDir requestFile rootfsDir overlay. rewrite Hreq.
  assert (issued h3 = issued h ++ (mkdir :: overlay :: calls)) as Hall.
  { rewrite Hissued. unfold h2. cbn [issued logCall].
    by rewrite <- !app_assoc. }
  assert (List.Forall isSetupCall (mkdir :: overlay :: calls)) as Hsetups
    by (by repeat constructor).
  assert (In overlay (mkdir :: overlay :: calls)) as Hin by (right; by left).
  destruct (fault (SysRemove requestFile)) as [e1|]; cbn [snd];
    destruct (fault (SysWriteFile _ _ 420)) as [e2|]; cbn [snd];
    (split; [exists (mkdir :: overlay :: calls);
             split; [cbn [issued logCall]; by rewrite Hall, <- !app_assoc|done]
            |]);
    try done.
  intros _ _. cbn [files logCall]. split.
  - rewrite lookup_insert_ne by apply request_ready_distinct.
    apply lookup_delete_eq.
  - apply lookup_insert_eq.
Qed.

End ProcessEntry.

Lemma processEntry_commit_witness :
  GoStrings.entIsDir MountHelper.demoEntry = true /\
  MountHelper.Stat MountHelper.noFault
    (MountHelper.demoHost MountHelper.fullOverlayMounts)
    (GoStrings.Join MountHelper.demoWorkDir MountHelper.RequestFileName) = true /\
  MountHelper.committedReady MountHelper.noFault MountHelper.plainMarshal
    (MountHelper.demoHost MountHelper.fullOverlayMounts)
    (MountHelper.processEntry MountHelper.noFault MountHelper.exampleUnmarshal
       MountHelper.plainMarshal MountHelper.hostWorkBase MountHelper.demoEntry
       (MountHelper.demoHost MountHelper.fullOverlayMounts))
    MountHelper.demoWorkDir
    (bytes "rw,relatime,lowerdir=/host/var/lib/containerd/l1:/host/var/lib/containerd/l2,upperdir=/host/var/lib/containerd/u,workdir=/host/var/lib/containerd/w").
Proof.
  split; [reflexivity|]. split; [by vm_compute|].
  exact (processEntry_commit MountHelper.noFault MountHelper.exampleUnmarshal
           MountHelper.plainMarshal MountHelper.demoEntry
           (MountHelper.demoHost MountHelper.fullOverlayMounts)
           eq_refl ltac:(by vm_compute)).
Defined.

(** C2, as the specification states it, fails: when the mount of proc is
    refused, phase E returns an error, and the agent still removes
    request.json and writes status "ready". *)
Lemma processEntry_ready_despite_phase_error :
  ~ (forall (fault : MountHelper.Syscall -> option (list ascii))
            (Unmarshal : list ascii -> result MountHelper.MountRequest)
            (Marshal : MountHelper.MountResponse -> list ascii)
            (entry : GoStrings.DirEntry) (h : MountHelper.Host)
            (msg : list ascii),
       let workDir := GoStrings.Join MountHelper.hostWorkBase
                        (GoStrings.entName entry) in
       let requestFile := GoStrings.Join workDir MountHelper.RequestFileName in
       let readyFile := GoStrings.Join workDir MountHelper.ReadyFileName in
       let outcome :=
         MountHelper.processRequest fault Unmarshal Marshal workDir requestFile h in
       let h' :=
         MountHelper.processEntry fault Unmarshal Marshal
           MountHelper.hostWorkBase entry h in
       GoStrings.entIsDir entry = true ->
       MountHelper.Stat fault h requestFile = true ->
       outcome.1.1 = Some msg \/ outcome.1.2 = Some msg ->
       MountHelper.files h' !! requestFile = MountHelper.files h !! requestFile /\
       exists m,
         MountHelper.files h' !! readyFile
         = Some (Marshal (MountHelper.mkMountResponse (bytes "error") m))).
Proof.
  intros H.
  specialize (H MountHelper.procMountFails MountHelper.exampleUnmarshal
                MountHelper.plainMarshal MountHelper.demoEntry
                (MountHelper.demoHost MountHelper.fullOverlayMounts)
                (bytes "mount errors: proc: operation not permitted")
                eq_refl ltac:(by vm_compute)
                ltac:(right; by vm_compute)).
  destruct H as [H _]. vm_compute in H. discriminate H.
Qed.

(* ------------------------------------------------------------------ *)
(** ** The checks before the overlay mount *)
(* ------------------------------------------------------------------ *)

Section OverlayChecks.
Import GoStrings MountHelper.

(** The adjustment inserts /host in front of a slash, so it neither makes
    nor breaks a slash-free text such as an option key. *)
Lemma adjustPathsForHost_HasPrefix (s k : list ascii) :
  ~ In "/"%char k ->
  HasPrefix (adjustPathsForHost s) k = HasPrefix s k.
Proof.
  unfold adjustPathsForHost.
  revert k; induction s as [|c s IH]; intros k Hk.
  - by rewrite ReplaceAll_nil by apply ContainerdPath_nonempty.
  - destruct k as [|x k]; [done|].
    assert (x <> "/"%char) as Hx by (intros ->; apply Hk; by left).
    destruct (HasPrefix (c :: s) ContainerdPath) eqn:E.
    + destruct (HasPrefix_inv _ _ E) as [t Ht]. rewrite Ht.
      rewrite ReplaceAll_match by apply ContainerdPath_nonempty.
      assert (forall r, HasPrefix ("/"%char :: r) (x :: k) = false) as Hno.
      { intros r. cbn [HasPrefix].
        destruct (Ascii.eqb_spec "/"%char x); [congruence|done]. }
      change (HostRootPath ++ ContainerdPath)
        with ("/"%char :: bytes "host/var/lib/containerd").
      change ContainerdPath with ("/"%char :: bytes "var/lib/containerd").
      by rewrite <- !app_comm_cons, !Hno.
    + rewrite ReplaceAll_step by (apply ContainerdPath_nonempty || done).
      cbn [HasPrefix]. rewrite IH; [done|]. intros Hin. apply Hk. by right.
Qed.

Section Key.
Variable k : list ascii.
Hypothesis k_no_slash : ~ In "/"%char k.
Hypothesis k_not_in_prefix :
  forall x, Contains (ContainerdPath ++ x) k = Contains x k.
Hypothesis k_not_in_replacement :
  forall x, Contains ((HostRootPath ++ ContainerdPath) ++ x) k = Contains x k.

Lemma adjustPathsForHost_Contains_key (s : list ascii) :
  Contains (adjustPathsForHost s) k = Contains s k.
Proof using k_no_slash k_not_in_prefix k_not_in_replacement.
  remember (length s) as n eqn:Hn.
  revert s Hn. induction (lt_wf n) as [n _ IH]. intros s ->.
  destruct s as [|c s].
  - unfold adjustPathsForHost.
    by rewrite ReplaceAll_nil by apply ContainerdPath_nonempty.
  - destruct (HasPrefix (c :: s) ContainerdPath) eqn:E.
    + destruct (HasPrefix_inv _ _ E) as [t Ht]. rewrite Ht.
      unfold adjustPathsForHost.
      rewrite ReplaceAll_match by apply ContainerdPath_nonempty.
      rewrite k_not_in_replacement, k_not_in_prefix.
      apply (IH (length t)); [|done].
      rewrite Ht, length_app. vm_compute (length ContainerdPath). lia.
    + assert (adjustPathsForHost (c :: s) = c :: adjustPathsForHost s) as Hstep
        by (apply ReplaceAll_step; [apply ContainerdPath_nonempty|done]).
      pose proof (adjustPathsForHost_HasPrefix (c :: s) k k_no_slash) as HP.
      rewrite Hstep in *. cbn [Contains]. rewrite HP.
      by rewrite (IH (length s) ltac:(simpl; lia) s eq_refl).
Qed.

End Key.

Lemma adjustPathsForHost_lowerdir (s : list ascii) :
  Contains (adjustPathsForHost s) (bytes "lowerdir=")
  = Contains s (bytes "lowerdir=").
Proof.
  apply adjustPathsForHost_Contains_key; [|reflexivity..].
  intros Hin. apply list_elem_of_In in Hin.
  revert Hin. apply (bool_decide_unpack _). by vm_compute.
Qed.

Lemma adjustPathsForHost_upperdir (s : list ascii) :
  Contains (adjustPathsForHost s) (bytes "upperdir=")
  = Contains s (bytes "upperdir=").
Proof.
  apply adjustPathsForHost_Contains_key; [|reflexivity..].
  intros Hin. apply list_elem_of_In in Hin.
  revert Hin. apply (bool_decide_unpack _). by vm_compute.
Qed.

Lemma scanMountLines_none (lines : list (list ascii)) :
  List.Forall (fun line => HasPrefix line (bytes "overlay / overlay ") = false)
    lines ->
  scanMountLines lines = None.
Proof.
  induction 1 as [|line lines Hl _ IH]; [done|].
  cbn [scanMountLines]. by rewrite Hl.
Qed.

End OverlayChecks.

Section OverlayRequest.
Import GoStrings MountHelper.
Variable fault : Syscall -> option (list ascii).
Variable Unmarshal : list ascii -> result MountRequest.
Variable Marshal : MountResponse -> list ascii.

Lemma setupOnly_issued (h h' : Host) (c : Syscall) :
  setupOnly h h' -> In c (issued h) -> In c (issued h').
Proof.
  intros (_ & _ & calls & -> & _) Hin. apply in_or_app. by left.
Qed.

Lemma Remove_issued (path : list ascii) (h : Host) (c : Syscall) :
  In c (issued h) -> In c (issued (Remove fault path h).2).
Proof.
  intros Hin. unfold Remove.
  repeat case_match; cbn [snd issued logCall]; apply in_or_app; by left.
Qed.

Lemma writeResponse_issued (workDir : list ascii) (r : MountResponse)
    (h : Host) (c : Syscall) :
  In c (issued h) -> In c (issued (writeResponse fault Marshal workDir r h).2).
Proof.
  intros Hin. unfold writeResponse, WriteFile.
  repeat case_match; cbn [snd issued logCall]; apply in_or_app; by left.
Qed.

(** C6 (amended): once the rootfs container is found, the request fails
    with "overlayfs mount not found" when no line of its mounts file
    begins with "overlay / overlay "; and with the options extracted, it
    fails before any mount is issued when the option string lacks
    [lowerdir=] or [upperdir=].  [workdir=] is not among the keys the
    agent checks: with [lowerdir=] and [upperdir=] present the overlay
    mount is issued, whatever else the options hold. *)
Theorem processRequest_overlay_checks (workDir requestFile : list ascii)
    (h : Host) (data : list ascii) (request : MountRequest) (pid : Z) :
  let rootfsDir := Join workDir (bytes "rootfs") in
  let outcome := processRequest fault Unmarshal Marshal workDir requestFile h in
  ReadFile fault h requestFile = Ok data ->
  Unmarshal data = Ok request ->
  findRootfsContainer fault h (PodUID request) = Ok pid ->
  (forall mounts,
     ReadFile fault h (bytes "/proc/" ++ itoa pid ++ bytes "/mounts") = Ok mounts ->
     List.Forall
       (fun line => HasPrefix line (bytes "overlay / overlay ") = false)
       (ScanLines mounts) ->
     outcome
     = (Some (bytes "failed to get overlayfs options: overlayfs mount not found"),
        None, h)) /\
  (forall opts,
     getOverlayfsOptions fault h pid = Ok opts ->
     fault (SysMkdirAll rootfsDir 493) = None ->
     (Contains opts (bytes "lowerdir=") = false \/
      Contains opts (bytes "upperdir=") = false ->
      outcome
      = (Some (bytes "failed to mount overlay: invalid overlay options: missing lowerdir or upperdir"),
         None, logCall (SysMkdirAll rootfsDir 493) h)) /\
     (Contains opts (bytes "lowerdir=") = true ->
      Contains opts (bytes "upperdir=") = true ->
      In (SysMount (bytes "overlay") rootfsDir (bytes "overlay") 0
            (adjustPathsForHost opts))
         (issued outcome.2))).
Proof.
  intros rootfsDir outcome Hread Hparse Hfind. subst outcome.
  unfold processRequest. rewrite Hread, Hparse, Hfind. split.
  - intros mounts Hmounts Hlines. unfold getOverlayfsOptions.
    by rewrite Hmounts, (scanMountLines_none _ Hlines).
  - intros opts Hopts Hmkdir. rewrite Hopts. fold rootfsDir.
    unfold MkdirAll. rewrite Hmkdir. unfold mountOverlay.
    rewrite adjustPathsForHost_lowerdir, adjustPathsForHost_upperdir. split.
    + intros [-> | ->]; [done|]. by rewrite orb_true_r.
    + intros -> ->. cbn [negb orb]. unfold Mount.
      set (c := SysMount _ rootfsDir _ 0 _).
      set (h1 := logCall (SysMkdirAll rootfsDir 493) h).
      assert (In c (issued (logCall c h1))) as Hin
        by (cbn [issued logCall]; apply in_or_app; right; by left).
      destruct (fault c) as [e|]; [done|].
      pose proof (mountProcDevSys_setup fault rootfsDir (logCall c h1)) as H3.
      destruct (mountProcDevSys fault rootfsDir (logCall c h1)) as [w h3].
      cbn [snd] in H3.
      pose proof (Remove_issued requestFile h3 c
                    (setupOnly_issued _ _ _ H3 Hin)) as H4.
      destruct (Remove fault requestFile h3) as [r h4]. cbn [snd] in H4.
      pose proof (writeResponse_issued workDir
                    (mkMountResponse (bytes "ready") []) h4 c H4) as H5.
      by destruct (writeResponse fault Marshal workDir _ h4) as [r5 h5].
Qed.

End OverlayRequest.

Lemma processRequest_overlay_checks_witness :
  MountHelper.ReadFile MountHelper.noFault
    (MountHelper.demoHost MountHelper.noWorkdirMounts)
    (GoStrings.Join MountHelper.demoWorkDir MountHelper.RequestFileName)
  = Ok MountHelper.exampleRequestJSON /\
  MountHelper.exampleUnmarshal MountHelper.exampleRequestJSON
  = Ok (MountHelper.mkMountRequest (bytes "abc-123") (bytes "default")
          (bytes "test")) /\
  MountHelper.findRootfsContainer MountHelper.noFault
    (MountHelper.demoHost MountHelper.noWorkdirMounts) (bytes "abc-123")
  = Ok 4242%Z /\
  In (MountHelper.SysMount (bytes "overlay")
        (GoStrings.Join MountHelper.demoWorkDir (bytes "rootfs"))
        (bytes "overlay") 0
        (bytes "rw,lowerdir=/host/var/lib/containerd/l1,upperdir=/host/var/lib/containerd/u"))
     (MountHelper.issued
        (MountHelper.processRequest MountHelper.noFault
           MountHelper.exampleUnmarshal MountHelper.plainMarshal
           MountHelper.demoWorkDir
           (GoStrings.Join MountHelper.demoWorkDir MountHelper.RequestFileName)
           (MountHelper.demoHost MountHelper.noWorkdirMounts)).2).
Proof.
  assert (MountHelper.ReadFile MountHelper.noFault
            (MountHelper.demoHost MountHelper.noWorkdirMounts)
            (GoStrings.Join MountHelper.demoWorkDir MountHelper.RequestFileName)
          = Ok MountHelper.exampleRequestJSON) as H1 by (by vm_compute).
  assert (MountHelper.findRootfsContainer MountHelper.noFault
            (MountHelper.demoHost MountHelper.noWorkdirMounts) (bytes "abc-123")
          = Ok 4242%Z) as H3 by (by vm_compute).
  split; [exact H1|]. split; [reflexivity|]. split; [exact H3|].
  destruct (processRequest_overlay_checks MountHelper.noFault
              MountHelper.exampleUnmarshal MountHelper.plainMarshal
              MountHelper.demoWorkDir _ _ _ _ _ H1 eq_refl H3) as [_ H].
  apply (H (bytes "rw,lowerdir=/var/lib/containerd/l1,upperdir=/var/lib/containerd/u"));
    by vm_compute.
Defined.

(** C6, as the specification states it, fails: an option string with
    [lowerdir=] and [upperdir=] but without [workdir=] passes the agent's
    check, the overlay mount is issued and the request succeeds. *)
Lemma overlay_mounted_without_workdir :
  ~ (forall (fault : MountHelper.Syscall -> option (list ascii))
            (Unmarshal : list ascii -> result MountHelper.MountRequest)
            (Marshal : MountHelper.MountResponse -> list ascii)
            (workDir requestFile : list ascii) (h : MountHelper.Host)
            (data : list ascii) (request : MountHelper.MountRequest)
            (pid : Z) (opts : list ascii),
       let outcome :=
         MountHelper.processRequest fault Unmarshal Marshal workDir
           requestFile h in
       MountHelper.ReadFile fault h requestFile = Ok data ->
       Unmarshal data = Ok request ->
       MountHelper.findRootfsContainer fault h (MountHelper.PodUID request)
       = Ok pid ->
       MountHelper.getOverlayfsOptions fault h pid = Ok opts ->
       GoStrings.Contains opts (bytes "lowerdir=") = false \/
       GoStrings.Contains opts (bytes "upperdir=") = false \/
       GoStrings.Contains opts (bytes "workdir=") = false ->
       is_Some outcome.1.1 /\
       forall target options,
         ~ In (MountHelper.SysMount (bytes "overlay") target (bytes "overlay")
                 0 options)
              (MountHelper.issued outcome.2)).
Proof.
  intros H.
  specialize (H MountHelper.noFault MountHelper.exampleUnmarshal
                MountHelper.plainMarshal MountHelper.demoWorkDir
                (GoStrings.Join MountHelper.demoWorkDir MountHelper.RequestFileName)
                (MountHelper.demoHost MountHelper.noWorkdirMounts)
                MountHelper.exampleRequestJSON
                (MountHelper.mkMountRequest (bytes "abc-123") (bytes "default")
                   (bytes "test"))
                4242%Z
                (bytes "rw,lowerdir=/var/lib/containerd/l1,upperdir=/var/lib/containerd/u")
                ltac:(by vm_compute) eq_refl ltac:(by vm_compute)
                ltac:(by vm_compute) ltac:(right; right; by vm_compute)).
  destruct H as [[msg Hmsg] _]. vm_compute in Hmsg. discriminate Hmsg.
Qed.

(* ------------------------------------------------------------------ *)
(** ** Status conditions and phase projection *)
(* ------------------------------------------------------------------ *)

Section Conditions.
Import Meta Core Api ApiSingle Controller.

(** After [SetStatusCondition], the condition found for the type carries
    the new status, generation, reason and message. *)
Lemma FindStatusCondition_Set (conditions : list Condition) (new : Condition) :
  FindStatusCondition (SetStatusCondition conditions new) (condType new)
  = Some new.
Proof.
  destruct new as [ty st gen reason msg]. cbn [condType].
  induction conditions as [|c rest IH]; cbn [SetStatusCondition condType].
  - cbn. by rewrite String.eqb_refl.
  - destruct (String.eqb (condType c) ty) eqn:E.
    + cbn. rewrite E. by apply String.eqb_eq in E as ->.
    + cbn [FindStatusCondition]. by rewrite E.
Qed.

Variable apiFault : ApiCall -> bool.

Lemma instanceKey_setPhase (sci : StoppableContainerInstance)
    (phase message : string) :
  instanceKey (setPhase sci phase message) = instanceKey sci.
Proof. unfold setPhase. by repeat case_match. Qed.

(** C8: when [updatePhase] writes a phase, the stored status has that
    phase and a Ready condition with the message given, whose status is
    True exactly when the phase is Running (then with reason "Running"),
    False with reason "Failed" when the phase is Failed, and False with
    the phase name as reason for every other phase. *)
Theorem updatePhase_ready_condition (c : Cluster)
    (sci : StoppableContainerInstance) (phase message : string) :
  is_Some (instances c !! instanceKey sci) ->
  apiFault (UpdateInstanceStatus (instanceKey sci)) = false ->
  exists stored cond,
    instances (updatePhase apiFault c sci phase message).1 !! instanceKey sci
    = Some stored /\
    Phase (sciStatus stored) = phase /\
    FindStatusCondition (Conditions (sciStatus stored)) ConditionTypeReady
    = Some cond /\
    condMessage cond = message /\
    (condStatus cond = ConditionTrue <-> phase = InstancePhaseRunning) /\
    (phase = InstancePhaseRunning -> condReason cond = "Running") /\
    (phase = InstancePhaseFailed ->
     condStatus cond = ConditionFalse /\ condReason cond = "Failed") /\
    (phase <> InstancePhaseRunning -> phase <> InstancePhaseFailed ->
     condStatus cond = ConditionFalse /\ condReason cond = phase).
Proof.
  intros [stored Hstored] Hok. unfold updatePhase.
  rewrite instanceKey_setPhase, Hok. cbn [fst].
  unfold storeInstanceStatus. rewrite instanceKey_setPhase, Hstored.
  cbn [instances]. rewrite lookup_insert_eq. unfold setPhase.
  destruct (String.eqb_spec phase InstancePhaseRunning) as [->|Hrun];
    [|destruct (String.eqb_spec phase InstancePhaseFailed) as [->|Hfail]];
    cbn; eexists _, _; (split; [done|]); cbn; (split; [done|]);
    (split; [apply FindStatusCondition_Set|]);
    cbn; repeat split; try done.
Qed.

Lemma containerKey_projectStatus (sc : StoppableContainer)
    (sci : StoppableContainerInstance) :
  containerKey (projectStatus sc sci) = containerKey sc.
Proof. unfold projectStatus. by repeat case_match. Qed.

(** C7: when [updateStatusFromInstance] writes the status of a workload,
    its phase and Ready condition follow the projection table: instance
    phase Pending or ProviderStarting gives Pending (False),
    ProviderReady or ConsumerStarting gives ProviderReady (False), Running
    gives Running (True), Stopping or Stopped gives Stopped (False),
    Failed gives Failed (False, with the message of the instance), and
    any other value gives Pending with condition Unknown; the reason is
    the name of the workload phase, or "Unknown". *)
Theorem updateStatusFromInstance_projection (c : Cluster)
    (sc : StoppableContainer) (sci : StoppableContainerInstance) :
  is_Some (containers c !! containerKey sc) ->
  apiFault (UpdateContainerStatus (containerKey sc)) = false ->
  exists stored cond,
    containers (updateStatusFromInstance apiFault c sc sci).1 !! containerKey sc
    = Some stored /\
    FindStatusCondition (scConditions (scStatus stored)) ConditionTypeReady
    = Some cond /\
    let p := Phase (sciStatus sci) in
    let row := (scPhase (scStatus stored), condStatus cond, condReason cond) in
    (p = InstancePhasePending \/ p = InstancePhaseProviderStarting ->
     row = (PhasePending, ConditionFalse, "Pending")) /\
    (p = InstancePhaseProviderReady \/ p = InstancePhaseConsumerStarting ->
     row = (PhaseProviderReady, ConditionFalse, "ProviderReady")) /\
    (p = InstancePhaseRunning ->
     row = (PhaseRunning, ConditionTrue, "Running")) /\
    (p = InstancePhaseStopping \/ p = InstancePhaseStopped ->
     row = (PhaseStopped, ConditionFalse, "Stopped")) /\
    (p = InstancePhaseFailed ->
     row = (PhaseFailed, ConditionFalse, "Failed") /\
     condMessage cond = Message (sciStatus sci)) /\
    (~ knownPhase p -> row = (PhasePending, ConditionUnknown, "Unknown")).
Proof.
  intros [stored Hstored] Hok. unfold updateStatusFromInstance.
  rewrite containerKey_projectStatus, Hok. cbn [fst].
  unfold storeContainerStatus. rewrite containerKey_projectStatus, Hstored.
  cbn [containers]. rewrite lookup_insert_eq.
  unfold projectStatus, knownPhase.
  remember (Phase (sciStatus sci)) as p eqn:Hp. clear Hp.
  repeat match goal with
  | |- context [String.eqb p ?q] =>
      destruct (String.eqb_spec p q) as [->|?]
  end; cbn; eexists _, _; (split; [done|]); cbn;
    (split; [apply FindStatusCondition_Set|]); cbn;
    repeat split; try done; try (intuition congruence).
  all: intros [?|?]; discriminate.
Qed.

End Conditions.

Lemma updatePhase_ready_condition_witness :
  is_Some (Controller.instances Controller.demoCluster
             !! Controller.instanceKey Controller.demoInstance) /\
  Controller.noApiFault
    (Controller.UpdateInstanceStatus
       (Controller.instanceKey Controller.demoInstance)) = false /\
  exists stored cond,
    Controller.instances
      (Controller.updatePhase Controller.noApiFault Controller.demoCluster
         Controller.demoInstance Api.InstancePhaseStopped "stopped").1
      !! Controller.instanceKey Controller.demoInstance = Some stored /\
    Api.Phase (ApiSingle.sciStatus stored) = Api.InstancePhaseStopped /\
    Meta.FindStatusCondition (Api.Conditions (ApiSingle.sciStatus stored))
      Controller.ConditionTypeReady = Some cond /\
    Meta.condStatus cond = Meta.ConditionFalse /\
    Meta.condReason cond = "Stopped".
Proof.
  assert (is_Some (Controller.instances Controller.demoCluster
                     !! Controller.instanceKey Controller.demoInstance)) as H1
    by (vm_compute; eauto).
  split; [exact H1|]. split; [reflexivity|].
  destruct (updatePhase_ready_condition Controller.noApiFault
              Controller.demoCluster Controller.demoInstance
              Api.InstancePhaseStopped "stopped" H1 eq_refl)
    as (stored & cond & Hs & Hp & Hc & _ & _ & _ & _ & Hother).
  destruct Hother as [Hst Hre]; [discriminate..|].
  exists stored, cond. repeat split; assumption.
Defined.

Lemma updateStatusFromInstance_projection_witness :
  is_Some (Controller.containers Controller.demoCluster
             !! Controller.containerKey Controller.demoContainer) /\
  Controller.noApiFault
    (Controller.UpdateContainerStatus
       (Controller.containerKey Controller.demoContainer)) = false /\
  exists stored cond,
    Controller.containers
      (Controller.updateStatusFromInstance Controller.noApiFault
         Controller.demoCluster Controller.demoContainer
         (Controller.setPhase Controller.demoInstance
            Api.InstancePhaseConsumerStarting "Consumer pod created")).1
      !! Controller.containerKey Controller.demoContainer = Some stored /\
    Meta.FindStatusCondition (Api.scConditions (ApiSingle.scStatus stored))
      Controller.ConditionTypeReady = Some cond /\
    (Api.scPhase (ApiSingle.scStatus stored), Meta.condStatus cond, Meta.condReason cond)
    = (Api.PhaseProviderReady, Meta.ConditionFalse, "ProviderReady").
Proof.
  assert (is_Some (Controller.containers Controller.demoCluster
                     !! Controller.containerKey Controller.demoContainer)) as H1
    by (vm_compute; eauto).
  split; [exact H1|]. split; [reflexivity|].
  destruct (updateStatusFromInstance_projection Controller.noApiFault
              Controller.demoCluster Controller.demoContainer
              (Controller.setPhase Controller.demoInstance
                 Api.InstancePhaseConsumerStarting "Consumer pod created")
              H1 eq_refl)
    as (stored & cond & Hs & Hc & _ & Hrow & _).
  exists stored, cond. repeat split; [exact Hs|exact Hc|].
  apply Hrow. by right.
Defined.

(* ------------------------------------------------------------------ *)
(** ** The consumer pod: built, and looked up *)
(* ------------------------------------------------------------------ *)

Section ConsumerPod.
Import Meta Core Api Provider Controller.
Variable ExecWrapperImage : string.
Variable ExecWrapperPullPolicy : string.

Lemma string_app_length (a b : string) :
  String.length (a +:+ b) = String.length a + String.length b.
Proof. induction a as [|x a IH]; simpl; [done|by rewrite IH]. Qed.

Lemma consumer_suffix_differs (name : string) : name <> name +:+ "-consumer".
Proof.
  intros H. apply (f_equal String.length) in H.
  rewrite string_app_length in H. simpl in H. lia.
Qed.

(** Cases of [TestIsPodReady], [TestGetHostPath] and of the builder
    tests. *)
Example isPodReady_pending :
  isPodReady (mkPod (mkObjectMeta "" "" "" 0 false [] ∅ ∅ [])
                (mkPodSpec [] [] [] "" "" "")
                (mkPodStatus "Pending" [] "" "" [])) = false.
Proof. reflexivity. Qed.

Example isPodReady_running_not_ready :
  isPodReady (mkPod (mkObjectMeta "" "" "" 0 false [] ∅ ∅ [])
                (mkPodSpec [] [] [] "" "" "")
                (mkPodStatus "Running" [mkPodCondition "Ready" "False"] "" "" []))
  = false.
Proof. reflexivity. Qed.

Example isPodReady_multiple_conditions :
  isPodReady (mkPod (mkObjectMeta "" "" "" 0 false [] ∅ ∅ [])
                (mkPodSpec [] [] [] "" "" "")
                (mkPodStatus "Running"
                   [mkPodCondition "PodScheduled" "True";
                    mkPodCondition "Ready" "True"] "" "" []))
  = true.
Proof. reflexivity. Qed.

Example GetHostPath_default_prefix :
  GetHostPath
    (mkInstance (mkObjectMeta "test-instance" "default" "" 0 false [] ∅ ∅ [])
       (mkInstanceSpec "" false Provider.demoTemplate
          (mkProviderSpec (mkResourceRequirements [] []) ∅ "") "")
       (sciStatus Provider.demoInstance))
  = "/var/lib/stoppablecontainer/default/test-instance".
Proof. by vm_compute. Qed.

Example GetHostPath_custom_prefix :
  GetHostPath
    (mkInstance (mkObjectMeta "my-app" "production" "" 0 false [] ∅ ∅ [])
       (mkInstanceSpec "" false Provider.demoTemplate
          (mkProviderSpec (mkResourceRequirements [] []) ∅ "") "/custom/path")
       (sciStatus Provider.demoInstance))
  = "/custom/path/production/my-app".
Proof. by vm_compute. Qed.

Example buildEntrypointCommand_empty_workdir :
  buildEntrypointCommand ["/bin/bash"] ""
  = ["/sc-exec"; "--entrypoint"; "/"; "/bin/bash"].
Proof. reflexivity. Qed.

Example ConsumerPodBuilder_Build_test :
  let pod := ConsumerPodBuilder_Build "exec:latest" "IfNotPresent"
               Provider.demoInstance "worker-node-1" in
  Name (podMeta pod) = "demo" /\
  NodeName (podSpec pod) = "worker-node-1" /\
  Labels (podMeta pod) !! LabelManagedBy = Some "stoppablecontainer" /\
  Labels (podMeta pod) !! LabelInstance = Some "demo" /\
  Labels (podMeta pod) !! LabelRole = Some "consumer" /\
  map cName (Containers (podSpec pod)) = ["consumer"] /\
  map cName (InitContainers (podSpec pod)) = ["exec-wrapper-init"].
Proof. repeat split; by vm_compute. Qed.

Lemma buildVolumes_names (vols : list Volume) (hostPath hostPathType : string) :
  map volName (buildVolumes vols hostPath hostPathType)
  = systemVolumeNames
    ++ flat_map (fun n => ["user-" +:+ n; "user-" +:+ n +:+ "-rootfs"])
         (map volName vols).
Proof.
  unfold buildVolumes. rewrite map_app. f_equal.
  induction vols as [|v vols IH]; [done|].
  cbn [flat_map map app]. by rewrite IH.
Qed.

Lemma buildVolumeMounts_names (mounts : list VolumeMount) :
  map vmName (buildVolumeMounts mounts)
  = systemVolumeNames
    ++ flat_map (fun n => ["user-" +:+ n; "user-" +:+ n +:+ "-rootfs"])
         (map vmName mounts).
Proof.
  unfold buildVolumeMounts. rewrite map_app. f_equal.
  induction mounts as [|m mounts IH]; [done|].
  cbn [flat_map map app]. by rewrite IH.
Qed.

Lemma In_renamed (n : string) (names : list string) :
  In n (flat_map (fun n => ["user-" +:+ n; "user-" +:+ n +:+ "-rootfs"]) names)
  <-> exists v, In v names /\
                (n = "user-" +:+ v \/ n = "user-" +:+ v +:+ "-rootfs").
Proof.
  rewrite in_flat_map. split.
  - intros (v & Hv & [<-|[<-|[]]]); exists v; auto.
  - intros (v & Hv & [->| ->]); exists v; split; try done;
      [by left|right; by left].
Qed.

(** The init containers that [Build] renders have their volumes when the
    init containers of the template have theirs. *)
Lemma buildInitContainers_have_volumes (inits : list Container)
    (vols : list Volume) (hostPath hostPathType : string) (c : Container) :
  (forall c0, In c0 inits -> mountsHaveVolumes vols c0) ->
  In c (buildInitContainers ExecWrapperImage ExecWrapperPullPolicy inits) ->
  mountsHaveVolumes (buildVolumes vols hostPath hostPathType) c.
Proof.
  intros Hinit Hc m Hm. rewrite buildVolumes_names.
  destruct Hc as [<-|Hc].
  - apply in_or_app. left. destruct Hm as [<-|[<-|[]]]; cbn; auto.
  - apply in_map_iff in Hc as (c0 & <- & Hc0). cbn [cVolumeMounts] in Hm.
    apply in_map_iff in Hm as (m0 & <- & Hm0). cbn [vmName].
    apply in_or_app. right. apply In_renamed.
    exists (vmName m0). split; [by apply (Hinit c0 Hc0 m0)|by left].
Qed.

(** C10: [Build] does not fail and has no error result.  The list whose
    first element it takes is never empty, since a template without
    containers gets the container named "consumer" with image
    busybox:stable; and for such a template the pod is complete: it has
    the name of the instance, the three labels and the owner reference,
    one container (the wrapper image, run as
    [/sc-exec --entrypoint / /bin/sh], with the three mounts, the
    capability SYS_CHROOT and the readiness probe), the init container of
    the wrapper followed by those of the template, renamed, the volume of
    the rootfs on the host path of the instance and the two empty
    directories followed by the volumes of the template, renamed, the node
    given and the restart policy Always; and every volume mount in it names
    one of its volumes, provided those of the template's init containers
    name volumes of the template. *)
Theorem ConsumerPodBuilder_Build_no_containers
    (sci : StoppableContainerInstance) (nodeName : string) :
  let template := Template (sciSpec sci) in
  let spec := tplSpec template in
  let prefix :=
    if String.eqb (HostPathPrefix (sciSpec sci)) ""
    then "/var/lib/stoppablecontainer"
    else HostPathPrefix (sciSpec sci) in
  let pod :=
    ConsumerPodBuilder_Build ExecWrapperImage ExecWrapperPullPolicy sci nodeName in
  Containers spec = [] ->
  (forall containers, containersOrFallback containers <> []) /\
  containersOrFallback (Containers spec)
  = [mkContainer "consumer" "busybox:stable" "" [] [] "" [] [] None None
       (mkResourceRequirements [] []) ""] /\
  pod
  = mkPod
      (mkObjectMeta (Name (sciMeta sci)) (Namespace (sciMeta sci)) "" 0 false []
         (<["stoppablecontainer.xtlsoft.top/role" := "consumer"]>
            (<["stoppablecontainer.xtlsoft.top/instance" := Name (sciMeta sci)]>
               (<["stoppablecontainer.xtlsoft.top/managed-by" := "stoppablecontainer"]>
                  (Labels (tplMetadata template)))))
         (Annotations (tplMetadata template))
         [mkOwnerReference "stoppablecontainer.xtlsoft.top/v1alpha1"
            "StoppableContainerInstance" (Name (sciMeta sci)) (UID (sciMeta sci))
            (Some true) (Some true)])
      (mkPodSpec
         [mkContainer "consumer" ExecWrapperImage ExecWrapperPullPolicy
            ["/sc-exec"; "--entrypoint"; "/"; "/bin/sh"] [] ""
            [mkEnvVar "SC_ROOTFS" "/rootfs" ""]
            [mkVolumeMount "sc-propagated" "/rootfs" (Some "HostToContainer") "";
             mkVolumeMount "sc-exec-wrapper" "/.sc-bin" None "";
             mkVolumeMount "sc-bin-overlay" "/bin" None ""]
            (Some (mkSecurityContext (Some (mkCapabilities ["SYS_CHROOT"] []))
                     None None ""))
            (Some (mkProbe (ExecAction ["/.sc-bin/sc-exec"; "--ready"]) 1 5))
            (mkResourceRequirements [] []) ""]
         (mkContainer "exec-wrapper-init" ExecWrapperImage ExecWrapperPullPolicy
            ["/sc-exec"; "--init"; "/sc-bin-overlay"] [] "" []
            [mkVolumeMount "sc-exec-wrapper" "/.sc-bin" None "";
             mkVolumeMount "sc-bin-overlay" "/sc-bin-overlay" None ""]
            None None
            (mkResourceRequirements [("cpu", "10m"); ("memory", "16Mi")]
               [("cpu", "100m"); ("memory", "64Mi")])
            ""
          :: map
               (fun c =>
                  mkContainer ("user-" +:+ cName c) (cImage c)
                    (cImagePullPolicy c) (cCommand c) (cArgs c) (cWorkingDir c)
                    (cEnv c)
                    (map (fun m =>
                            mkVolumeMount ("user-" +:+ vmName m) (vmMountPath m)
                              (vmMountPropagation m) (vmRest m))
                       (cVolumeMounts c))
                    (cSecurityContext c) (cReadinessProbe c) (cResources c)
                    (cRest c))
               (InitContainers spec))
         ([mkVolume "sc-propagated"
             (HostPathSource
                (GoStrings.JoinPath
                   [GoStrings.JoinPath
                      [prefix; Namespace (sciMeta sci); Name (sciMeta sci)];
                    "rootfs"])
                "Directory");
           mkVolume "sc-exec-wrapper" EmptyDirSource;
           mkVolume "sc-bin-overlay" EmptyDirSource]
          ++ flat_map
               (fun v =>
                  [mkVolume ("user-" +:+ volName v) (volSource v);
                   mkVolume ("user-" +:+ volName v +:+ "-rootfs") (volSource v)])
               (Volumes spec))
         nodeName "Always" (specRest spec))
      (mkPodStatus "" [] "" "" []) /\
  ((forall c, In c (InitContainers spec) -> mountsHaveVolumes (Volumes spec) c) ->
   forall c,
     In c (Containers (podSpec pod) ++ InitContainers (podSpec pod)) ->
     mountsHaveVolumes (Volumes (podSpec pod)) c).
Proof.
  intros template spec prefix pod Hempty.
  split; [by intros [|x l]|]. split; [by rewrite Hempty|].
  split.
  { subst pod. unfold ConsumerPodBuilder_Build. fold template. fold spec.
    rewrite Hempty. reflexivity. }
  intros Hinit c Hc. subst pod. unfold ConsumerPodBuilder_Build in *.
  fold template in Hc |- *. fold spec in Hc |- *.
  cbn [podSpec Containers InitContainers Volumes] in Hc |- *.
  rewrite Hempty in Hc. cbn [containersOrFallback tail hd app] in Hc.
  destruct Hc as [<-|Hc].
  - intros m Hm. rewrite buildVolumes_names. apply in_or_app. left.
    cbn [cVolumeMounts fallbackContainer buildVolumeMounts flat_map app] in Hm.
    destruct Hm as [<-|[<-|[<-|[]]]]; cbn; auto.
  - by eapply buildInitContainers_have_volumes.
Qed.

End ConsumerPod.

Lemma ConsumerPodBuilder_Build_no_containers_witness :
  Core.Containers
    (Api.tplSpec (Api.Template (Api.sciSpec Provider.emptyInstance))) = [] /\
  Meta.Name
    (Core.podMeta
       (Provider.ConsumerPodBuilder_Build "exec:latest" "IfNotPresent"
          Provider.emptyInstance "node-1")) = "demo" /\
  map Core.cName
    (Core.Containers
       (Core.podSpec
          (Provider.ConsumerPodBuilder_Build "exec:latest" "IfNotPresent"
             Provider.emptyInstance "node-1"))) = ["consumer"] /\
  Core.Volumes
    (Core.podSpec
       (Provider.ConsumerPodBuilder_Build "exec:latest" "IfNotPresent"
          Provider.emptyInstance "node-1"))
  = [Core.mkVolume "sc-propagated"
       (Core.HostPathSource "/var/lib/stoppablecontainer/default/demo/rootfs"
          "Directory");
     Core.mkVolume "sc-exec-wrapper" Core.EmptyDirSource;
     Core.mkVolume "sc-bin-overlay" Core.EmptyDirSource] /\
  Core.NodeName
    (Core.podSpec
       (Provider.ConsumerPodBuilder_Build "exec:latest" "IfNotPresent"
          Provider.emptyInstance "node-1")) = "node-1".
Proof.
  split; [reflexivity|].
  destruct (ConsumerPodBuilder_Build_no_containers "exec:latest" "IfNotPresent"
              Provider.emptyInstance "node-1" eq_refl)
    as (_ & _ & -> & _).
  repeat split; by vm_compute.
Defined.

(* ------------------------------------------------------------------ *)
(** ** The names of the two pods *)
(* ------------------------------------------------------------------ *)

Section PodNames.
Import Meta Core Api ApiSingle Controller.
Variable apiFault : ApiCall -> bool.
Variable ExecWrapperImage : string.
Variable providerPodSpec : StoppableContainerInstance -> PodSpec.

Lemma updatePhase_pods (c : Cluster) (sci : StoppableContainerInstance)
    (phase message : string) :
  pods (updatePhase apiFault c sci phase message).1 = pods c.
Proof.
  unfold updatePhase, storeInstanceStatus. by repeat case_match.
Qed.

(** C1 (amended): the builders that the controller calls name the
    provider pod [<instance>-provider] and the consumer pod
    [<instance>-consumer], in the namespace of the instance, and the
    controller looks both pods up under exactly these names: a consumer pod
    that it has created is the pod that its next lookup finds.  The
    PodSpec-based builder names the consumer pod [<instance>]. *)
Theorem consumer_pod_lookup (sci : StoppableContainerInstance)
    (nodeName : string) (c : Cluster) :
  let provider := InternalProvider.ProviderPodBuilder_Build providerPodSpec sci in
  let consumer :=
    InternalProvider.ConsumerPodBuilder_Build ExecWrapperImage sci nodeName in
  Name (podMeta provider) = Name (sciMeta sci) +:+ "-provider" /\
  Name (podMeta consumer) = Name (sciMeta sci) +:+ "-consumer" /\
  providerPodKey sci = podKey provider /\
  consumerPodKey sci = podKey consumer /\
  pods (storePod provider c) !! providerPodKey sci = Some provider /\
  pods (storePod consumer c) !! consumerPodKey sci = Some consumer /\
  (nodeName = StatusNodeName (sciStatus sci) ->
   nodeName <> "" ->
   apiFault (CreatePod (consumerPodKey sci)) = false ->
   pods c !! consumerPodKey sci = None ->
   pods (createConsumerPod apiFault ExecWrapperImage c sci).1
     !! consumerPodKey sci = Some consumer) /\
  forall (image pullPolicy : string) (sci' : Api.StoppableContainerInstance),
    Name (podMeta (Provider.ConsumerPodBuilder_Build image pullPolicy sci'
                     nodeName))
    = Name (Api.sciMeta sci').
Proof.
  cbn zeta. repeat split.
  - unfold storePod. cbn [pods]. apply lookup_insert_eq.
  - unfold storePod. cbn [pods]. apply lookup_insert_eq.
  - intros -> Hnode Hcreate Hnone. unfold createConsumerPod.
    destruct (String.eqb_spec (StatusNodeName (sciStatus sci)) "") as [|_];
      [done|].
    change (podKey (InternalProvider.ConsumerPodBuilder_Build _ sci _))
      with (consumerPodKey sci).
    rewrite Hcreate, Hnone, updatePhase_pods.
    unfold storePod. cbn [pods]. apply lookup_insert_eq.
Qed.

End PodNames.

Lemma consumer_pod_lookup_witness :
  Controller.pods
    (Controller.createConsumerPod Controller.noApiFault "exec:latest"
       Controller.demoProviderReady
       (Controller.withProvider Controller.demoManaged
          Controller.demoProviderPod)).1
    !! ("default", "demo-consumer")
  = Some (InternalProvider.ConsumerPodBuilder_Build "exec:latest"
            (Controller.withProvider Controller.demoManaged
               Controller.demoProviderPod) "node-1").
Proof.
  destruct (consumer_pod_lookup Controller.noApiFault "exec:latest"
              Controller.demoProviderSpec
              (Controller.withProvider Controller.demoManaged
                 Controller.demoProviderPod)
              "node-1" Controller.demoProviderReady)
    as (_ & _ & _ & _ & _ & _ & H & _).
  apply H.
  - reflexivity.
  - discriminate.
  - reflexivity.
  - by vm_compute.
Defined.

(** C1, as the specification states it, fails: the builder that the
    controller calls does not name the consumer pod after the instance;
    the consumer pod of the instance demo is demo-consumer. *)
Lemma consumer_pod_not_named_after_instance :
  ~ (forall (image : string)
            (providerPodSpec : ApiSingle.StoppableContainerInstance -> Core.PodSpec)
            (sci : ApiSingle.StoppableContainerInstance) (nodeName : string),
       let provider :=
         InternalProvider.ProviderPodBuilder_Build providerPodSpec sci in
       let consumer :=
         InternalProvider.ConsumerPodBuilder_Build image sci nodeName in
       Meta.Name (Core.podMeta provider)
       = Meta.Name (ApiSingle.sciMeta sci) +:+ "-provider" /\
       Meta.Name (Core.podMeta consumer) = Meta.Name (ApiSingle.sciMeta sci) /\
       Controller.consumerPodKey sci = Controller.podKey consumer).
Proof.
  intros H.
  destruct (H "exec:latest" Controller.demoProviderSpec Controller.demoInstance
              "node-1") as (_ & Hname & _).
  discriminate Hname.
Qed.

(* ------------------------------------------------------------------ *)
(** ** The phase Stopped *)
(* ------------------------------------------------------------------ *)

Section Stopped.
Import Meta Core Api ApiSingle Controller.
Variable apiFault : ApiCall -> bool.
Variable ExecWrapperImage : string.
Variable providerPodSpec : StoppableContainerInstance -> PodSpec.

Lemma updatePhase_wrote (c : Cluster) (sci : StoppableContainerInstance)
    (phase message : string) :
  wrote c (updatePhase apiFault c sci phase message).1 phase.
Proof.
  unfold updatePhase, storeInstanceStatus, wrote.
  destruct (apiFault _); [by left|]. cbn [fst].
  destruct (instances c !! _); [|by left].
  right. eexists _, _. cbn [phasesWritten]. do 3 f_equal.
  unfold setPhase. by repeat case_match.
Qed.

Lemma deletePod_phasesWritten (key : ObjectKey) (c : Cluster) :
  phasesWritten (deletePod key c) = phasesWritten c.
Proof. unfold deletePod. by case_match. Qed.

Lemma updatePhase_wrote_deleted (c : Cluster) (key : ObjectKey)
    (sci : StoppableContainerInstance) (phase message : string) :
  wrote c (updatePhase apiFault (deletePod key c) sci phase message).1 phase.
Proof.
  pose proof (updatePhase_wrote (deletePod key c) sci phase message) as H.
  unfold wrote in *. by rewrite deletePod_phasesWritten in H.
Qed.

Lemma createProviderPod_wrote (c : Cluster) (sci : StoppableContainerInstance) :
  wrote c (createProviderPod apiFault providerPodSpec c sci).1
    InstancePhaseProviderStarting.
Proof.
  unfold createProviderPod. repeat case_match; try by left.
  apply (updatePhase_wrote (storePod _ c)).
Qed.

Lemma createConsumerPod_wrote (c : Cluster) (sci : StoppableContainerInstance) :
  wrote c (createConsumerPod apiFault ExecWrapperImage c sci).1
    InstancePhaseConsumerStarting.
Proof.
  unfold createConsumerPod. repeat case_match; try by left.
  apply (updatePhase_wrote (storePod _ c)).
Qed.

Lemma handleDeletion_wrote_nothing (c : Cluster)
    (sci : StoppableContainerInstance) :
  phasesWritten (handleDeletion apiFault c sci).1 = phasesWritten c.
Proof.
  unfold handleDeletion, storeInstance, deletePod.
  by repeat case_match.
Qed.

Lemma wrote_Stopped (c c' : Cluster) (phase ns name : string) :
  wrote c c' phase ->
  phasesWritten c' = phasesWritten c ++ [(ns, name, InstancePhaseStopped)] ->
  phase = InstancePhaseStopped.
Proof.
  intros [Hw|(ns' & name' & Hw)] H; rewrite Hw in H.
  - apply (f_equal length) in H. rewrite length_app in H. simpl in H. lia.
  - apply app_inv_head in H. by injection H.
Qed.

(** The phase that [updatePhase] records is recorded for the instance in
    hand. *)
Lemma updatePhase_written (c : Cluster) (sci : StoppableContainerInstance)
    (phase message ns name p : string) :
  phasesWritten (updatePhase apiFault c sci phase message).1
  = phasesWritten c ++ [(ns, name, p)] ->
  instanceKey sci = (ns, name).
Proof.
  unfold updatePhase. rewrite instanceKey_setPhase.
  destruct (apiFault _); cbn [fst].
  - intros H. apply (f_equal length) in H. rewrite length_app in H.
    simpl in H. lia.
  - unfold storeInstanceStatus. rewrite instanceKey_setPhase.
    destruct (instances c !! instanceKey sci); cbn [phasesWritten].
    + intros H. apply app_inv_head in H. injection H as H1 H2 _.
      unfold instanceKey. by rewrite H1, H2.
    + intros H. apply (f_equal length) in H. rewrite length_app in H.
      simpl in H. lia.
Qed.

(** A reconciliation that writes the phase Stopped has found the instance
    switched off, its provider pod ready, and no pod under the name
    [<instance>-consumer]; it leaves the pods as they are. *)
Lemma Reconcile_Stopped_lookup (c : Cluster) (req : ObjectKey)
    (ns name : string) :
  phasesWritten (Reconcile apiFault ExecWrapperImage providerPodSpec c req).1
  = phasesWritten c ++ [(ns, name, InstancePhaseStopped)] ->
  exists sci provider,
    instances c !! req = Some sci /\
    instanceKey sci = (ns, name) /\
    Running (sciSpec sci) = false /\
    pods c !! providerPodKey sci = Some provider /\
    isPodReady provider = true /\
    pods c !! consumerPodKey sci = None /\
    pods (Reconcile apiFault ExecWrapperImage providerPodSpec c req).1 = pods c.
Proof.
  intros H.
  assert (forall c' phase,
            phasesWritten c' = phasesWritten c ++ [(ns, name, InstancePhaseStopped)] ->
            wrote c c' phase -> phase <> InstancePhaseStopped -> False)
    as Hno by (intros c' phase H1 H2 H3; by eapply H3, wrote_Stopped).
  assert (forall c', phasesWritten c' = phasesWritten c ->
            phasesWritten c' = phasesWritten c ++ [(ns, name, InstancePhaseStopped)] ->
            False) as Hsame.
  { intros c' H1 H2. rewrite H1 in H2. apply (f_equal length) in H2.
    rewrite length_app in H2. simpl in H2. lia. }
  unfold Reconcile in H |- *.
  destruct (apiFault (GetInstance req)); [by destruct (Hsame c)|].
  destruct (instances c !! req) as [sci|] eqn:Hsci; [|by destruct (Hsame c)].
  destruct (Deleting (sciMeta sci)).
  { destruct (Hsame _ (handleDeletion_wrote_nothing c sci) H). }
  destruct (ContainsFinalizer (sciMeta sci) SCIFinalizerName); cbn [negb] in H |- *.
  2: { destruct (apiFault _); [by destruct (Hsame c)|].
       eapply Hsame in H; [done|]. unfold storeInstance. by repeat case_match. }
  destruct (apiFault (GetPod (providerPodKey sci))); [by destruct (Hsame c)|].
  destruct (apiFault (GetPod (consumerPodKey sci))); [by destruct (Hsame c)|].
  destruct (pods c !! providerPodKey sci) as [provider|] eqn:Hprov.
  2: { by destruct (Hno _ _ H (createProviderPod_wrote c sci)). }
  destruct (isPodReady provider) eqn:Hready; cbn [negb] in H |- *.
  2: { by destruct (Hno _ _ H (updatePhase_wrote c sci _ _)). }
  change (Running (sciSpec (withProvider sci provider)))
    with (Running (sciSpec sci)) in H |- *.
  change (consumerPodKey (withProvider sci provider))
    with (consumerPodKey sci) in H |- *.
  destruct (Running (sciSpec sci)) eqn:Hrun; cbn [negb] in H |- *.
  - exfalso.
    destruct (pods c !! consumerPodKey sci) as [consumer|].
    + repeat case_match;
        by destruct (Hno _ _ H (updatePhase_wrote c _ _ _)).
    + destruct (String.eqb _ "").
      * by destruct (Hno _ _ H (updatePhase_wrote c _ _ _)).
      * by destruct (Hno _ _ H (createConsumerPod_wrote c _)).
  - destruct (pods c !! consumerPodKey sci) as [consumer|] eqn:Hcons.
    + exfalso. destruct (apiFault _); [by destruct (Hsame c)|].
      by destruct (Hno _ _ H (updatePhase_wrote_deleted c _ _ _ _)).
    + exists sci, provider. repeat split; try done.
      * apply updatePhase_written in H. exact H.
      * apply updatePhase_pods.
Qed.

Lemma setRunning_phasesWritten (key : ObjectKey) (running : bool) (c : Cluster) :
  phasesWritten (setRunning key running c) = phasesWritten c.
Proof. unfold setRunning. by case_match. Qed.

Lemma bindPod_phasesWritten (key : ObjectKey) (node : string) (c : Cluster) :
  phasesWritten (bindPod key node c) = phasesWritten c.
Proof. unfold bindPod. by case_match. Qed.

Lemma reportPodStatus_phasesWritten (key : ObjectKey) (status : PodStatus)
    (c : Cluster) :
  phasesWritten (reportPodStatus key status c) = phasesWritten c.
Proof. unfold reportPodStatus. by case_match. Qed.

Lemma podTerminated_phasesWritten (key : ObjectKey) (c : Cluster) :
  phasesWritten (podTerminated key c) = phasesWritten c.
Proof. unfold podTerminated. by repeat case_match. Qed.

(** C9: whenever a step of the system sets the phase of an instance to
    Stopped, that step is a reconciliation of the instance, which is
    switched off; its provider pod exists and is ready; and no pod with
    its derived consumer name, [<instance>-consumer], the name that the
    builder gives the consumer pod, exists, before the step and after
    it. *)
Theorem Reconcile_Stopped_invariant (c c' : Cluster) (ns name : string) :
  step apiFault ExecWrapperImage providerPodSpec c c' ->
  phasesWritten c' = phasesWritten c ++ [(ns, name, InstancePhaseStopped)] ->
  exists sci provider,
    (exists req, instances c !! req = Some sci) /\
    instanceKey sci = (ns, name) /\
    Running (sciSpec sci) = false /\
    (forall node,
       podKey (InternalProvider.ConsumerPodBuilder_Build ExecWrapperImage sci node)
       = consumerPodKey sci) /\
    pods c !! providerPodKey sci = Some provider /\
    isPodReady provider = true /\
    pods c !! consumerPodKey sci = None /\
    pods c' !! providerPodKey sci = Some provider /\
    pods c' !! consumerPodKey sci = None.
Proof.
  intros Hstep H.
  assert (forall c0 : Cluster, phasesWritten c0 = phasesWritten c ->
            phasesWritten c0 = phasesWritten c ++ [(ns, name, InstancePhaseStopped)] ->
            False) as Hsame.
  { intros c0 H1 H2. rewrite H1 in H2. apply (f_equal length) in H2.
    rewrite length_app in H2. simpl in H2. lia. }
  destruct Hstep as [c req|c key running|c key node|c key status|c key].
  - destruct (Reconcile_Stopped_lookup c req ns name H)
      as (sci & provider & Hsci & Hkey & Hrun & Hprov & Hready & Hcons & Hpods).
    exists sci, provider. rewrite Hpods. repeat split; try done.
    by exists req.
  - destruct (Hsame _ (setRunning_phasesWritten key running c) H).
  - destruct (Hsame _ (bindPod_phasesWritten key node c) H).
  - destruct (Hsame _ (reportPodStatus_phasesWritten key status c) H).
  - destruct (Hsame _ (podTerminated_phasesWritten key c) H).
Qed.

End Stopped.

Lemma Reconcile_Stopped_invariant_witness :
  rtc (Controller.step Controller.noApiFault "exec:latest"
         Controller.demoProviderSpec)
    Controller.demoCluster Controller.demoConsumerGone /\
  Controller.phasesWritten Controller.demoConsumerGone
  = [("default", "demo", Api.InstancePhaseProviderStarting);
     ("default", "demo", Api.InstancePhaseConsumerStarting);
     ("default", "demo", Api.InstancePhaseRunning);
     ("default", "demo", Api.InstancePhaseStopping)] /\
  exists sci provider,
    Controller.instanceKey sci = ("default", "demo") /\
    Controller.pods Controller.demoConsumerGone
      !! Controller.providerPodKey sci = Some provider /\
    Controller.isPodReady provider = true /\
    Controller.pods Controller.demoConsumerGone
      !! Controller.consumerPodKey sci = None /\
    Controller.pods (Controller.demoReconcile Controller.demoConsumerGone)
      !! Controller.consumerPodKey sci = None.
Proof.
  assert (forall c,
            Controller.step Controller.noApiFault "exec:latest"
              Controller.demoProviderSpec c (Controller.demoReconcile c))
    as Hrec by (intros c; apply Controller.step_reconcile).
  split.
  { unfold Controller.demoConsumerGone, Controller.demoStopping,
      Controller.demoSwitchedOff, Controller.demoRunning.
    eapply rtc_r; [|apply Controller.step_podTerminated].
    eapply rtc_r; [|apply Hrec].
    eapply rtc_r; [|apply Controller.step_setRunning].
    eapply rtc_r; [|apply Hrec].
    eapply rtc_r; [|apply Controller.step_reportPodStatus].
    eapply rtc_r; [|apply Hrec].
    eapply rtc_r; [|apply Controller.step_reportPodStatus].
    eapply rtc_r; [|apply Controller.step_bindPod].
    eapply rtc_r; [|apply Hrec].
    eapply rtc_r; [|apply Hrec].
    apply rtc_refl. }
  split; [by vm_compute|].
  destruct (Reconcile_Stopped_invariant Controller.noApiFault "exec:latest"
              Controller.demoProviderSpec Controller.demoConsumerGone
              (Controller.demoReconcile Controller.demoConsumerGone)
              "default" "demo" (Hrec _) ltac:(by vm_compute))
    as (sci & provider & _ & Hkey & _ & _ & Hprov & Hready & Hcons & _ & Hcons').
  exists sci, provider.
  split; [exact Hkey|]. split; [exact Hprov|]. split; [exact Hready|].
  split; [exact Hcons|exact Hcons'].
Defined.

(* ================================================================== *)
(** * Further properties of the code *)
(* ================================================================== *)

(* ------------------------------------------------------------------ *)
(** ** The mount agent: what a pass touches *)
(* ------------------------------------------------------------------ *)

Section AgentFrame.
Import GoStrings MountHelper.
Variable fault : Syscall -> option (list ascii).
Variable Unmarshal : list ascii -> result MountRequest.
Variable Marshal : MountResponse -> list ascii.

























End AgentFrame.

(* ------------------------------------------------------------------ *)
(** ** The mount agent: mounts and their errors *)
(* ------------------------------------------------------------------ *)

Section AgentMounts.
Import GoStrings MountHelper.
Variable fault : Syscall -> option (list ascii).
Variable Unmarshal : list ascii -> result MountRequest.
Variable Marshal : MountResponse -> list ascii.

(** X2: [mountProcDevSys] reports an error exactly when creating or
    mounting proc, dev or sys, or creating tmp, is refused; a refused
    rslave remount and a refused bind mount of /dev/pts or /dev/shm are
    never reported. *)
Theorem mountProcDevSys_error_iff (rootfsDir : list ascii) (h : Host) :
  (mountProcDevSys fault rootfsDir h).1 = None <->
  fault (SysMkdirAll (Join rootfsDir (bytes "proc")) 493) = None /\
  fault (SysMount (bytes "proc") (Join rootfsDir (bytes "proc")) (bytes "proc")
           0 []) = None /\
  fault (SysMkdirAll (Join rootfsDir (bytes "dev")) 493) = None /\
  fault (SysMount (bytes "/host/dev") (Join rootfsDir (bytes "dev")) []
           (N.lor MS_BIND MS_REC) []) = None /\
  fault (SysMkdirAll (Join rootfsDir (bytes "sys")) 493) = None /\
  fault (SysMount (bytes "/host/sys") (Join rootfsDir (bytes "sys")) []
           (N.lor MS_BIND MS_REC) []) = None /\
  fault (SysMkdirAll (Join rootfsDir (bytes "tmp")) 1023) = None.
Proof.
  unfold mountProcDevSys, mkdirAndMount, MkdirAll, Mount.
  change (Join HostRootPath (bytes "dev")) with (bytes "/host/dev").
  change (Join HostRootPath (bytes "sys")) with (bytes "/host/sys").
  destruct (fault (SysMkdirAll (Join rootfsDir (bytes "proc")) 493));
  destruct (fault (SysMount (bytes "proc") _ (bytes "proc") 0 []));
  destruct (fault (SysMkdirAll (Join rootfsDir (bytes "dev")) 493));
  destruct (fault (SysMount (bytes "/host/dev") _ [] _ []));
  destruct (fault (SysMkdirAll (Join rootfsDir (bytes "sys")) 493));
  destruct (fault (SysMount (bytes "/host/sys") _ [] _ []));
  destruct (fault (SysMkdirAll (Join rootfsDir (bytes "tmp")) 1023));
  cbn; split; try done; intros H; decompose [and] H; discriminate.
Qed.

(** X3: a request that ends in an error has mounted nothing: the calls
    issued for it are directory creations and mounts that the kernel
    refused.  A request that succeeds was read and parsed, the rootfs
    container of its pod was found and the overlay line of that container
    gave options; among the calls issued for it is the overlay mount on
    the rootfs directory with these options, adjusted, and the kernel has
    accepted it. *)
Theorem processRequest_mounts (workDir requestFile : list ascii) (h : Host) :
  match processRequest fault Unmarshal Marshal workDir requestFile h with
  | (Some _, _, h') =>
      exists calls,
        issued h' = issued h ++ calls /\ List.Forall (mountedNothing fault) calls
  | (None, _, h') =>
      exists data request pid opts calls,
        ReadFile fault h requestFile = Ok data /\
        Unmarshal data = Ok request /\
        findRootfsContainer fault h (PodUID request) = Ok pid /\
        getOverlayfsOptions fault h pid = Ok opts /\
        issued h' = issued h ++ calls /\
        let mount :=
          SysMount (bytes "overlay") (Join workDir (bytes "rootfs"))
            (bytes "overlay") 0 (adjustPathsForHost opts) in
        In mount calls /\ fault mount = None
  end.
Proof.
  unfold processRequest.
  assert (exists calls, issued h = issued h ++ calls /\
                        List.Forall (mountedNothing fault) calls) as Hnone
    by (exists []; by rewrite app_nil_r).
  destruct (ReadFile fault h requestFile) as [data|e]; [|done].
  destruct (Unmarshal data) as [request|e] eqn:Hparse; [|done].
  destruct (findRootfsContainer fault h (PodUID request)) as [pid|e] eqn:Hfind;
    [|done].
  destruct (getOverlayfsOptions fault h pid) as [opts|e] eqn:Hopts; [|done].
  set (rootfsDir := Join workDir (bytes "rootfs")).
  unfold MkdirAll.
  destruct (fault (SysMkdirAll rootfsDir 493)) as [e|]; cbv beta iota zeta.
  { exists [SysMkdirAll rootfsDir 493]. by repeat constructor. }
  unfold mountOverlay.
  destruct (negb _ || negb _); cbv beta iota zeta.
  { exists [SysMkdirAll rootfsDir 493]. by repeat constructor. }
  unfold Mount.
  set (c := SysMount _ rootfsDir _ 0 _).
  set (h1 := logCall (SysMkdirAll rootfsDir 493) h).
  destruct (fault c) as [e|] eqn:Hc; cbv beta iota zeta.
  { exists [SysMkdirAll rootfsDir 493; c]. split.
    - cbn [issued logCall h1]. by rewrite <- app_assoc.
    - repeat constructor. cbn. by rewrite Hc. }
  pose proof (mountProcDevSys_setup fault rootfsDir (logCall c h1)) as H3.
  destruct (mountProcDevSys fault rootfsDir (logCall c h1)) as [w h3].
  cbn [snd] in H3. destruct H3 as (_ & _ & calls3 & Hi3 & _).
  assert (exists calls4,
            issued (Remove fault requestFile h3).2 = issued h3 ++ calls4)
    as [calls4 Hi4].
  { unfold Remove. repeat case_match; cbn [snd issued logCall]; by eexists. }
  destruct (Remove fault requestFile h3) as [r h4]. cbn [snd] in Hi4.
  assert (exists calls5,
            issued (writeResponse fault Marshal workDir
                      (mkMountResponse (bytes "ready") []) h4).2
            = issued h4 ++ calls5) as [calls5 Hi5].
  { unfold writeResponse, WriteFile.
    repeat case_match; cbn [snd issued logCall]; by eexists. }
  destruct (writeResponse fault Marshal workDir _ h4) as [r5 h5].
  cbn [snd] in Hi5.
  exists data, request, pid, opts,
    (SysMkdirAll rootfsDir 493 :: c :: calls3 ++ calls4 ++ calls5).
  repeat split; try done.
  - rewrite Hi5, Hi4, Hi3. cbn [issued logCall h1].
    by rewrite <- !app_assoc.
  - right. by left.
Qed.

End AgentMounts.

(* ------------------------------------------------------------------ *)
(** ** The mount agent: the options of the overlay line *)
(* ------------------------------------------------------------------ *)

Section OverlayLine.
Import GoStrings MountHelper.
Variable fault : Syscall -> option (list ascii).

Lemma fieldsFrom_spaces (ws s : list ascii) :
  List.Forall (fun c => isSpace c = true) ws ->
  fieldsFrom [] (ws ++ s) = fieldsFrom [] s.
Proof.
  induction 1 as [|c ws Hc _ IH]; [done|].
  cbn [app fieldsFrom]. by rewrite Hc.
Qed.

Lemma fieldsFrom_word (w s cur : list ascii) :
  List.Forall (fun c => isSpace c = false) w ->
  fieldsFrom cur (w ++ s) = fieldsFrom (rev w ++ cur) s.
Proof.
  intros H. revert cur.
  induction H as [|c w Hc _ IH]; intros cur; [done|].
  cbn [app fieldsFrom]. rewrite Hc, IH. cbn [rev].
  by rewrite <- app_assoc.
Qed.

Lemma fieldsFrom_end (c : ascii) (cur rest : list ascii) :
  fieldEnds rest ->
  exists fs, fieldsFrom (c :: cur) rest = rev (c :: cur) :: fs.
Proof.
  destruct rest as [|d rest]; intros H; cbn [fieldsFrom].
  - by eexists.
  - cbn in H. rewrite H. by eexists.
Qed.

Lemma fieldsFrom_nil (s cur : list ascii) :
  fieldsFrom cur s = [] ->
  cur = [] /\ List.Forall (fun c => isSpace c = true) s.
Proof.
  revert cur. induction s as [|c s IH]; intros cur H; cbn [fieldsFrom] in H.
  - by destruct cur.
  - destruct (isSpace c) eqn:Hc.
    + destruct cur; [|done]. split; [done|].
      constructor; [done|]. by apply (IH []).
    + by destruct (IH _ H).
Qed.

Lemma rev_cons_ne (a : ascii) (cur : list ascii) : rev (a :: cur) <> [].
Proof. cbn [rev]. by destruct (rev cur). Qed.

Lemma fieldsFrom_cons (s cur f : list ascii) (fs : list (list ascii)) :
  fieldsFrom cur s = f :: fs ->
  exists ws w rest,
    s = ws ++ w ++ rest /\
    (cur <> [] -> ws = []) /\
    List.Forall (fun c => isSpace c = true) ws /\
    List.Forall (fun c => isSpace c = false) w /\
    fieldEnds rest /\
    f = rev cur ++ w /\ f <> [].
Proof.
  revert cur. induction s as [|c s IH]; intros cur H; cbn [fieldsFrom] in H.
  - destruct cur as [|a cur]; [done|]. injection H as <- <-.
    exists [], [], [].
    repeat split; try done; [by rewrite app_nil_r | apply rev_cons_ne].
  - destruct (isSpace c) eqn:Hc.
    + destruct cur as [|a cur].
      * destruct (IH _ H) as (ws & w & rest & -> & _ & Hws & Hw & Hr & -> & Hne).
        exists (c :: ws), w, rest. repeat split; try done.
        by constructor.
      * injection H as <- <-.
        exists [], [], (c :: s).
        repeat split; try done; [by rewrite app_nil_r | apply rev_cons_ne].
    + destruct (IH _ H) as (ws & w & rest & -> & Hnil & _ & Hw & Hr & -> & Hne).
      rewrite (Hnil ltac:(done)).
      exists [], (c :: w), rest. cbn [rev] in Hne |- *.
      rewrite <- app_assoc in Hne |- *.
      repeat split; try done. by constructor.
Qed.

Lemma nonASCII_app (a b : list ascii) :
  nonASCII (a ++ b) = nonASCII a || nonASCII b.
Proof. apply existsb_app. Qed.

Lemma nonASCII_rev (a : list ascii) : nonASCII (rev a) = nonASCII a.
Proof.
  induction a as [|c a IH]; [done|].
  cbn [rev]. rewrite nonASCII_app, IH. cbn [nonASCII existsb].
  rewrite orb_false_r. apply orb_comm.
Qed.

Lemma nonASCII_dropCR (l : list ascii) :
  nonASCII l = false -> nonASCII (dropCR l) = false.
Proof.
  intros H. unfold dropCR. destruct (rev l) as [|c r] eqn:Hrev; [done|].
  destruct (Ascii.eqb_spec c "013"%char) as [->|Hc].
  - rewrite nonASCII_rev. rewrite <- nonASCII_rev, Hrev in H.
    cbn [nonASCII existsb] in H. by apply orb_false_iff in H as [_ H].
  - destruct c as [[] [] [] [] [] [] [] []]; try done.
Qed.

Lemma splitLines_nonASCII (cur data : list ascii) :
  nonASCII cur = false -> nonASCII data = false ->
  List.Forall (fun l => nonASCII l = false) (splitLines cur data).
Proof.
  revert cur. induction data as [|c data IH]; intros cur Hcur Hdata;
    cbn [splitLines].
  - destruct cur; [constructor|]. constructor; [|constructor].
    by rewrite nonASCII_rev.
  - cbn [nonASCII existsb] in Hdata. apply orb_false_iff in Hdata as [Hc Hdata].
    destruct (Ascii.eqb c "010"%char).
    + constructor; [by rewrite nonASCII_rev|]. by apply IH.
    + apply IH; [|done]. cbn [nonASCII existsb]. rewrite Hc. exact Hcur.
Qed.

(** The lines scanned from ASCII data are ASCII. *)
Lemma ScanLines_nonASCII (data : list ascii) :
  nonASCII data = false ->
  List.Forall (fun l => nonASCII l = false) (ScanLines data).
Proof.
  intros H. unfold ScanLines.
  pose proof (splitLines_nonASCII [] data eq_refl H) as Hl.
  induction Hl as [|l ls Hl _ IH]; cbn [scannedLines]; [constructor|].
  destruct (N.of_nat (length l) <? MaxScanTokenSize)%N; [|constructor].
  constructor; [by apply nonASCII_dropCR|done].
Qed.

Lemma Fields_overlay_prefix (t : list ascii) :
  nonASCII t = false ->
  Fields (bytes "overlay / overlay " ++ t)
  = bytes "overlay" :: bytes "/" :: bytes "overlay" :: fieldsFrom [] t.
Proof.
  intros H. unfold Fields.
  change (nonASCII (bytes "overlay / overlay " ++ t)) with (nonASCII t).
  by rewrite H.
Qed.

Lemma isSpace_ASCII (ws : list ascii) :
  List.Forall (fun c => isSpace c = true) ws -> nonASCII ws = false.
Proof.
  induction 1 as [|c ws Hc _ IH]; [done|].
  cbn [nonASCII existsb]. fold (nonASCII ws). rewrite IH, orb_false_r.
  destruct c as [[] [] [] [] [] [] [] []]; try done.
Qed.

Lemma scanMountLines_passedOver (line : list ascii)
    (rest : list (list ascii)) :
  passedOver line -> scanMountLines (line :: rest) = scanMountLines rest.
Proof.
  intros [H | (ws & -> & Hws)]; cbn [scanMountLines].
  - by rewrite H.
  - rewrite HasPrefix_app, Fields_overlay_prefix by (by apply isSpace_ASCII).
    rewrite <- (app_nil_r ws), fieldsFrom_spaces by done. done.
Qed.

Lemma scanMountLines_optionsOf (line opts : list ascii)
    (rest : list (list ascii)) :
  nonASCII line = false ->
  optionsOf line opts -> scanMountLines (line :: rest) = Some opts.
Proof.
  intros Hascii (ws & r & -> & Hws & Hne & Hopts & Hr). cbn [scanMountLines].
  rewrite HasPrefix_app, Fields_overlay_prefix by exact Hascii.
  rewrite fieldsFrom_spaces, fieldsFrom_word by done.
  destruct (rev opts) as [|c cur] eqn:Hrev.
  { apply (f_equal (@rev ascii)) in Hrev. rewrite rev_involutive in Hrev.
    done. }
  rewrite app_nil_r.
  destruct (fieldsFrom_end c cur r Hr) as [fs ->].
  by rewrite <- Hrev, rev_involutive.
Qed.

Lemma scanMountLines_spec (lines : list (list ascii)) :
  List.Forall (fun l => nonASCII l = false) lines ->
  match scanMountLines lines with
  | Some opts =>
      exists pre line post,
        lines = pre ++ line :: post /\
        List.Forall passedOver pre /\ optionsOf line opts
  | None => List.Forall passedOver lines
  end.
Proof.
  induction 1 as [|line lines Hascii _ IH]; [by constructor|].
  cbn [scanMountLines].
  destruct (HasPrefix line (bytes "overlay / overlay ")) eqn:Hp.
  - destruct (HasPrefix_inv _ _ Hp) as [t ->].
    rewrite Fields_overlay_prefix by exact Hascii.
    destruct (fieldsFrom [] t) as [|opts fs] eqn:Hf.
    + destruct (fieldsFrom_nil _ _ Hf) as [_ Hws].
      assert (passedOver (bytes "overlay / overlay " ++ t)) as Hskip
        by (right; by exists t).
      destruct (scanMountLines lines) as [opts|].
      * destruct IH as (pre & l & post & -> & Hpre & Hl).
        exists ((bytes "overlay / overlay " ++ t) :: pre), l, post.
        repeat split; try done. by constructor.
      * by constructor.
    + destruct (fieldsFrom_cons _ _ _ _ Hf)
        as (ws & w & rest & -> & _ & Hws & Hw & Hr & -> & Hne).
      exists [], (bytes "overlay / overlay " ++ ws ++ w ++ rest), lines.
      repeat split; try done. by exists ws, rest.
  - assert (passedOver line) as Hskip by (by left).
    destruct (scanMountLines lines) as [opts|].
    + destruct IH as (pre & l & post & -> & Hpre & Hl).
      exists (line :: pre), l, post. repeat split; try done.
      by constructor.
    + by constructor.
Qed.

(** [strings.Fields] on a line that is not ASCII: a no-break space ends
    the field, so the options returned stop before it. *)
Example getOverlayfsOptions_nbsp :
  getOverlayfsOptions noFault (demoHost nbspMounts) 4242
  = Ok (bytes "rw,lowerdir=/a").
Proof. by vm_compute. Qed.

(** X4: what [getOverlayfsOptions] returns when /proc/<pid>/mounts is
    ASCII.  It fails with the error of the read when the file cannot be
    read.  Otherwise, on success the result is the first run of bytes other
    than white space that follows the prefix [overlay / overlay ] on the
    first scanned line that has such a run; it is therefore never empty and
    holds no white space.  It fails with [overlayfs mount not found] when
    every scanned line lacks the prefix or has only white space after
    it. *)
Theorem getOverlayfsOptions_spec (h : Host) (pid : Z) :
  match ReadFile fault h (bytes "/proc/" ++ itoa pid ++ bytes "/mounts") with
  | Err e' =>
      getOverlayfsOptions fault h pid
      = Err (bytes "failed to open mounts: " ++ e')
  | Ok data =>
      nonASCII data = false ->
      match getOverlayfsOptions fault h pid with
      | Ok opts =>
          exists pre line post,
            ScanLines data = pre ++ line :: post /\
            List.Forall passedOver pre /\ optionsOf line opts
      | Err e =>
          List.Forall passedOver (ScanLines data) /\
          e = bytes "overlayfs mount not found"
      end
  end.
Proof.
  unfold getOverlayfsOptions.
  destruct (ReadFile fault h _) as [data|e']; [|done].
  intros Hascii.
  pose proof (scanMountLines_spec (ScanLines data)
                (ScanLines_nonASCII data Hascii)) as H.
  by destruct (scanMountLines (ScanLines data)) as [opts|].
Qed.

(** X5: the converse.  When /proc/<pid>/mounts can be read and is ASCII,
    and the first of its scanned lines that is not passed over carries
    [opts] after the overlay prefix, [getOverlayfsOptions] returns
    [opts]. *)
Theorem getOverlayfsOptions_first_line (h : Host) (pid : Z)
    (data opts line : list ascii) (pre post : list (list ascii)) :
  ReadFile fault h (bytes "/proc/" ++ itoa pid ++ bytes "/mounts") = Ok data ->
  nonASCII data = false ->
  ScanLines data = pre ++ line :: post ->
  List.Forall passedOver pre ->
  optionsOf line opts ->
  getOverlayfsOptions fault h pid = Ok opts.
Proof.
  intros Hread Hascii Hlines Hpre Hline. unfold getOverlayfsOptions.
  rewrite Hread.
  pose proof (ScanLines_nonASCII data Hascii) as Hall.
  rewrite Hlines in Hall |- *.
  apply List.Forall_app in Hall as [_ Hall]. apply List.Forall_inv in Hall.
  assert (scanMountLines (pre ++ line :: post) = Some opts) as ->; [|done].
  clear Hlines. induction Hpre as [|l pre Hl _ IH]; cbn [app].
  - by apply scanMountLines_optionsOf.
  - by rewrite scanMountLines_passedOver.
Qed.

End OverlayLine.

Lemma getOverlayfsOptions_spec_witness :
  exists pre line post,
    GoStrings.ScanLines MountHelper.fullOverlayMounts = pre ++ line :: post /\
    List.Forall MountHelper.passedOver pre /\
    MountHelper.optionsOf line
      (bytes "rw,relatime,lowerdir=/var/lib/containerd/l1:/var/lib/containerd/l2,upperdir=/var/lib/containerd/u,workdir=/var/lib/containerd/w").
Proof.
  exact (getOverlayfsOptions_spec MountHelper.noFault
           (MountHelper.demoHost MountHelper.fullOverlayMounts) 4242 eq_refl).
Defined.

Lemma getOverlayfsOptions_first_line_witness :
  MountHelper.getOverlayfsOptions MountHelper.noFault
    (MountHelper.demoHost MountHelper.fullOverlayMounts) 4242
  = Ok (bytes "rw,relatime,lowerdir=/var/lib/containerd/l1:/var/lib/containerd/l2,upperdir=/var/lib/containerd/u,workdir=/var/lib/containerd/w").
Proof.
  apply (getOverlayfsOptions_first_line MountHelper.noFault
           (MountHelper.demoHost MountHelper.fullOverlayMounts) 4242
           MountHelper.fullOverlayMounts _
           (bytes "overlay / overlay rw,relatime,lowerdir=/var/lib/containerd/l1:/var/lib/containerd/l2,upperdir=/var/lib/containerd/u,workdir=/var/lib/containerd/w 0 0")
           [bytes "proc /proc proc rw 0 0"] []).
  - by vm_compute.
  - by vm_compute.
  - by vm_compute.
  - constructor; [left; by vm_compute | constructor].
  - exists [], (bytes " 0 0"). repeat split.
    + constructor.
    + discriminate.
    + repeat constructor.
Defined.

(* ------------------------------------------------------------------ *)
(** ** The mount agent: the pod UID is matched as a substring *)
(* ------------------------------------------------------------------ *)

Section UidSubstring.
Import GoStrings MountHelper.
Variable fault : Syscall -> option (list ascii).

Lemma Contains_eq (s u : list ascii) :
  Contains s u
  = HasPrefix s u || match s with [] => false | _ :: s' => Contains s' u end.
Proof. by destruct s. Qed.

Lemma Contains_iff (s u : list ascii) :
  Contains s u = true <-> exists a b, s = a ++ u ++ b.
Proof.
  split.
  - induction s as [|c s IH]; rewrite Contains_eq; intros H;
      apply orb_true_iff in H as [H|H]; try done.
    + destruct (HasPrefix_inv _ _ H) as [t ->]. by exists [], t.
    + destruct (HasPrefix_inv _ _ H) as [t ->]. by exists [], t.
    + destruct (IH H) as (a & b & ->). by exists (c :: a), b.
  - intros (a & b & ->). induction a as [|c a IH]; rewrite Contains_eq.
    + cbn [app]. by rewrite HasPrefix_app.
    + cbn [app]. rewrite IH. apply orb_true_r.
Qed.

Lemma replaceFrom_single_app (x y : ascii) (a b : list ascii) :
  replaceFrom [x] [y] 0 (a ++ b)
  = replaceFrom [x] [y] 0 a ++ replaceFrom [x] [y] 0 b.
Proof.
  induction a as [|c a IH]; [done|].
  cbn [app replaceFrom HasPrefix length Nat.sub].
  destruct (Ascii.eqb c x); cbn [andb app]; by rewrite IH.
Qed.

Lemma isRootfsProcess_substring (h : Host) (a uid b name : list ascii) :
  isRootfsProcess fault h (a ++ uid ++ b) name ->
  isRootfsProcess fault h uid name.
Proof.
  intros (cg & env & Hcg & Hin & Henv & Hmark).
  exists cg, env. repeat split; try done.
  apply Contains_iff in Hin as (p & q & ->).
  apply Contains_iff.
  change (ReplaceAll ?s (bytes "-") (bytes "_"))
    with (replaceFrom ["-"%char] ["_"%char] 0 s).
  rewrite !replaceFrom_single_app.
  exists (p ++ replaceFrom ["-"%char] ["_"%char] 0 a),
         (replaceFrom ["-"%char] ["_"%char] 0 b ++ q).
  by rewrite <- !app_assoc.
Qed.

(** X6: the pod UID of a request is matched against the cgroup files as a
    substring.  Whenever the search succeeds for a UID, it succeeds for
    every substring of that UID as well, the empty UID included: a request
    that carries only a part of a pod's UID is answered with a process of
    that pod (or of another pod that matches too). *)
Theorem findRootfsContainer_substring (h : Host) (a uid b : list ascii)
    (pid : Z) :
  findRootfsContainer fault h (a ++ uid ++ b) = Ok pid ->
  exists pid', findRootfsContainer fault h uid = Ok pid'.
Proof.
  unfold findRootfsContainer.
  destruct (ReadDir fault h (bytes "/proc")) as [entries|e]; [|done].
  pose proof (scanProcEntries_spec fault h (a ++ uid ++ b) entries) as Hlong.
  pose proof (scanProcEntries_spec fault h uid entries) as Hshort.
  destruct (scanProcEntries fault h
              (ReplaceAll (a ++ uid ++ b) (bytes "-") (bytes "_")) entries)
    as [p|]; [|done].
  intros _.
  destruct (scanProcEntries fault h
              (ReplaceAll uid (bytes "-") (bytes "_")) entries) as [p'|].
  { by exists p'. }
  destruct Hlong as (l1 & e & l2 & -> & Hpid & Hm & _).
  destruct (Hshort e) as [].
  - apply in_or_app. right. by left.
  - by rewrite Hpid.
  - by apply (isRootfsProcess_substring h a uid b).
Qed.

End UidSubstring.

Lemma findRootfsContainer_substring_witness :
  exists pid',
    MountHelper.findRootfsContainer MountHelper.noFault
      MountHelper.twoRootfsHost (bytes "123") = Ok pid'.
Proof.
  apply (findRootfsContainer_substring MountHelper.noFault
           MountHelper.twoRootfsHost (bytes "abc-") (bytes "123") [] 10).
  by vm_compute.
Defined.

(* ------------------------------------------------------------------ *)
(** ** The consumer pod builder *)
(* ------------------------------------------------------------------ *)

Section BuilderFacts.
Import Meta Core Api Provider.
Variable ExecWrapperImage : string.
Variable ExecWrapperPullPolicy : string.

Lemma existsb_eqb_In (cap : string) (add : list string) :
  existsb (String.eqb cap) add = true <-> In cap add.
Proof.
  rewrite existsb_exists. split.
  - intros (x & Hin & Heq). by apply String.eqb_eq in Heq as ->.
  - intros Hin. exists cap. split; [done|apply String.eqb_refl].
Qed.

Lemma mergeCapability_spec (add : list string) (cap : string) :
  List.NoDup add ->
  List.NoDup (mergeCapability add cap) /\
  (forall c, In c (mergeCapability add cap) <-> In c add \/ c = cap) /\
  exists t, mergeCapability add cap = add ++ t.
Proof.
  intros Hnd. unfold mergeCapability.
  destruct (existsb (String.eqb cap) add) eqn:He.
  - apply existsb_eqb_In in He. repeat split; try done.
    + by left.
    + by intros [?| ->].
    + exists []. by rewrite app_nil_r.
  - assert (~ In cap add) as Hnot.
    { intros Hin. apply existsb_eqb_In in Hin. congruence. }
    repeat split.
    + apply NoDup_app_remove_l with (l := []). cbn [app].
      apply List.NoDup_Add with (a := cap) (l := add); [|by constructor].
      clear. induction add as [|x add IH]; cbn [app]; by constructor.
    + intros Hin. apply in_app_or in Hin as [?|[->|[]]]; auto.
    + intros [?| ->]; apply in_or_app; [by left|right; by left].
    + by exists [cap].
Qed.

Lemma foldl_mergeCapability_spec (caps add : list string) :
  List.NoDup add ->
  List.NoDup (foldl mergeCapability add caps) /\
  (forall c, In c (foldl mergeCapability add caps) <-> In c add \/ In c caps) /\
  exists t, foldl mergeCapability add caps = add ++ t.
Proof.
  revert add. induction caps as [|cap caps IH]; intros add Hnd; cbn [foldl].
  - repeat split; try done.
    + by left.
    + by intros [?|[]].
    + exists []. by rewrite app_nil_r.
  - destruct (mergeCapability_spec add cap Hnd) as (Hnd1 & Hin1 & t1 & Ht1).
    destruct (IH _ Hnd1) as (Hnd2 & Hin2 & t2 & Ht2).
    repeat split; [done| | |].
    + intros Hin. apply Hin2 in Hin as [Hin|Hin].
      * apply Hin1 in Hin as [?| ->]; [by left|right; by left].
      * right. by right.
    + intros [Hin|[<-|Hin]]; apply Hin2.
      * left. apply Hin1. by left.
      * left. apply Hin1. by right.
      * by right.
    + exists (t1 ++ t2). by rewrite Ht2, Ht1, <- app_assoc.
Qed.

(** X7: the security context of the consumer container.  Its added
    capabilities start with SYS_CHROOT, name no capability twice, and are
    SYS_CHROOT together with the capabilities the template adds; nothing is
    dropped, and of the other settings of the template only the group is
    kept: the container is never privileged. *)
Theorem buildSecurityContext_capabilities (userCtx : option SecurityContext) :
  exists rest,
    buildSecurityContext userCtx
    = mkSecurityContext (Some (mkCapabilities ("SYS_CHROOT" :: rest) []))
        (match userCtx with Some u => scRunAsGroup u | None => None end)
        None "" /\
    List.NoDup ("SYS_CHROOT" :: rest) /\
    forall cap,
      In cap rest <->
      cap <> "SYS_CHROOT" /\
      exists u caps, userCtx = Some u /\ scCapabilities u = Some caps /\
                     In cap (capAdd caps).
Proof.
  assert (List.NoDup ["SYS_CHROOT"]) as Hnd
    by (repeat constructor; by intros []).
  unfold buildSecurityContext.
  destruct userCtx as [u|]; [destruct (scCapabilities u) as [caps|] eqn:Hc|].
  - destruct (foldl_mergeCapability_spec (capAdd caps) _ Hnd)
      as (Hnd' & Hin & t & Ht).
    cbn [app] in Ht. exists t. rewrite Ht in *. repeat split; [done| | |].
    + intros ->. by apply List.NoDup_cons_iff in Hnd' as [? _].
    + exists u, caps. repeat split; try done.
      destruct (Hin cap) as [[[<-|[]]|?] _]; [by right| |done].
      by apply List.NoDup_cons_iff in Hnd' as [? _].
    + intros (Hne & u' & caps' & [= <-] & Hc' & Hcap).
      assert (caps' = caps) as -> by congruence.
      destruct (Hin cap) as [_ [|]]; [by right|congruence|done].
  - exists []. repeat split; try done.
    intros (_ & u' & caps' & [= <-] & Hc' & _). congruence.
  - exists []. repeat split; try done.
    by intros (_ & u' & caps' & [=] & _).
Qed.

(** The containers that [Build] renders: the first container of the
    template, or the fallback. *)
Lemma Build_containers (sci : StoppableContainerInstance) (nodeName : string) :
  let tpl := tplSpec (Template (sciSpec sci)) in
  let pod := podSpec (ConsumerPodBuilder_Build ExecWrapperImage
                        ExecWrapperPullPolicy sci nodeName) in
  exists main,
    Containers pod = main :: tail (Containers tpl) /\
    cVolumeMounts main
    = buildVolumeMounts (cVolumeMounts (hd fallbackContainer (Containers tpl))).
Proof.
  cbn zeta. unfold ConsumerPodBuilder_Build. cbn [podSpec Containers].
  eexists. split.
  - f_equal. by destruct (Containers (tplSpec (Template (sciSpec sci)))).
  - cbn [cVolumeMounts]. by destruct (Containers (tplSpec (Template (sciSpec sci)))).
Qed.

(** X8: the volumes and the mounts are renamed alike.  If every volume
    mount of the first container and of the init containers of the
    template names a volume of the template, then in the pod that [Build]
    returns every volume mount of the first container and of the init
    containers names a volume of the pod. *)
Theorem Build_mounts_have_volumes (sci : StoppableContainerInstance)
    (nodeName : string) :
  let tpl := tplSpec (Template (sciSpec sci)) in
  let pod := podSpec (ConsumerPodBuilder_Build ExecWrapperImage
                        ExecWrapperPullPolicy sci nodeName) in
  List.Forall (mountsHaveVolumes (Volumes tpl))
    (firstn 1 (Containers tpl) ++ InitContainers tpl) ->
  List.Forall (mountsHaveVolumes (Volumes pod))
    (firstn 1 (Containers pod) ++ InitContainers pod).
Proof.
  intros tpl pod H. apply List.Forall_app in H as [Hmain Hinit].
  destruct (Build_containers sci nodeName) as (main & Hcs & Hmounts).
  fold tpl in Hcs, Hmounts. fold pod in Hcs.
  assert (map volName (Volumes pod)
          = systemVolumeNames
            ++ flat_map (fun n => ["user-" +:+ n; "user-" +:+ n +:+ "-rootfs"])
                 (map volName (Volumes tpl))) as Hvols
    by apply buildVolumes_names.
  assert (forall n, In n (map volName (Volumes tpl)) ->
            In ("user-" +:+ n) (map volName (Volumes pod)) /\
            In ("user-" +:+ n +:+ "-rootfs") (map volName (Volumes pod)))
    as Huser.
  { intros n Hn. rewrite Hvols.
    split; apply in_or_app; right; apply In_renamed; exists n; auto. }
  assert (forall n, In n systemVolumeNames -> In n (map volName (Volumes pod)))
    as Hsys.
  { intros n Hn. rewrite Hvols. apply in_or_app. by left. }
  apply List.Forall_app. split.
  - rewrite Hcs. cbn [firstn]. constructor; [|constructor].
    intros m Hm. apply (in_map vmName) in Hm.
    rewrite Hmounts, buildVolumeMounts_names in Hm.
    apply in_app_or in Hm as [Hm|Hm]; [by apply Hsys|].
    apply In_renamed in Hm as (v & Hv & Hm).
    apply in_map_iff in Hv as (m0 & <- & Hm0).
    assert (In (vmName m0) (map volName (Volumes tpl))) as Hvol.
    { destruct (Containers tpl) as [|c0 cs]; [by destruct Hm0|].
      cbn [firstn hd] in *. apply List.Forall_inv in Hmain. by apply Hmain. }
    destruct (Huser _ Hvol). by destruct Hm as [->| ->].
  - change (InitContainers pod)
      with (buildInitContainers ExecWrapperImage ExecWrapperPullPolicy
              (InitContainers tpl)).
    unfold buildInitContainers. constructor.
    + intros m [<-|[<-|[]]]; apply Hsys; cbn; auto.
    + apply List.Forall_forall. intros c Hc.
      apply in_map_iff in Hc as (c0 & <- & Hc0).
      intros m Hm. cbn [cVolumeMounts] in Hm.
      apply in_map_iff in Hm as (m0 & <- & Hm0). cbn [vmName].
      apply Huser.
      by apply (proj1 (List.Forall_forall _ _) Hinit c0 Hc0 m0).
Qed.

(** X9: the other containers of the template are copied as they are,
    their volume mounts too, while the volumes are renamed.  A volume mount
    of a container after the first therefore names no volume of the pod,
    unless its name is one of the three added volumes or begins with
    [user-]. *)
Theorem Build_sidecar_mounts_dangle (sci : StoppableContainerInstance)
    (nodeName : string) (c : Container) (m : VolumeMount) :
  let tpl := tplSpec (Template (sciSpec sci)) in
  let pod := podSpec (ConsumerPodBuilder_Build ExecWrapperImage
                        ExecWrapperPullPolicy sci nodeName) in
  In c (tail (Containers tpl)) ->
  In m (cVolumeMounts c) ->
  ~ In (vmName m) systemVolumeNames ->
  (forall v, vmName m <> "user-" +:+ v) ->
  In c (Containers pod) /\ ~ mountsHaveVolumes (Volumes pod) c.
Proof.
  intros tpl pod Hc Hm Hsys Huser.
  destruct (Build_containers sci nodeName) as (main & Hcs & _).
  fold tpl in Hcs. fold pod in Hcs. split.
  - rewrite Hcs. by right.
  - intros Hall. specialize (Hall m Hm).
    change (Volumes pod)
      with (buildVolumes (Volumes tpl)
              (GoStrings.JoinPath [GetHostPath sci; "rootfs"])
              HostPathDirectory) in Hall.
    rewrite buildVolumes_names in Hall.
    apply in_app_or in Hall as [Hall|Hall]; [done|].
    apply In_renamed in Hall as (v & _ & [H|H]); by apply Huser in H.
Qed.

(** X10: the command of the consumer container is
    [/sc-exec --entrypoint <dir> <command...>], with no arguments beside
    it: the directory is the working directory of the template's first
    container, or [/] when that is empty, and the command is its command
    followed by its arguments, or [/bin/sh] when both are empty.  Neither
    the directory nor the command is ever empty. *)
Theorem Build_command (sci : StoppableContainerInstance) (nodeName : string) :
  let user :=
    hd fallbackContainer (Containers (tplSpec (Template (sciSpec sci)))) in
  let main :=
    hd fallbackContainer
      (Containers (podSpec (ConsumerPodBuilder_Build ExecWrapperImage
                              ExecWrapperPullPolicy sci nodeName))) in
  exists dir command,
    cCommand main = "/sc-exec" :: "--entrypoint" :: dir :: command /\
    cArgs main = [] /\
    dir <> "" /\ command <> [] /\
    (dir = cWorkingDir user \/ cWorkingDir user = "" /\ dir = "/") /\
    (command = cCommand user ++ cArgs user \/
     cCommand user = [] /\ cArgs user = [] /\ command = ["/bin/sh"]).
Proof.
  intros user main.
  assert (cCommand main
          = buildEntrypointCommand (buildUserCommand user) (cWorkingDir user)
          /\ cArgs main = []) as [-> ->].
  { subst user main. unfold ConsumerPodBuilder_Build.
    cbn [podSpec Containers hd cCommand cArgs].
    by destruct (Containers (tplSpec (Template (sciSpec sci)))). }
  unfold buildEntrypointCommand, buildUserCommand. cbn [app].
  eexists _, _. split; [done|]. split; [done|].
  destruct (String.eqb_spec (cWorkingDir user) "") as [Hd|Hd];
    destruct (cCommand user) as [|x xs]; destruct (cArgs user) as [|y ys];
    repeat split; auto; try done;
    by left.
Qed.

(** X11: the labels of the consumer pod.  The three labels of the
    controller always carry its values, whatever the template says; every
    other label, and every annotation, is the template's. *)
Theorem Build_labels (sci : StoppableContainerInstance) (nodeName : string) :
  let template := tplMetadata (Template (sciSpec sci)) in
  let pod := podMeta (ConsumerPodBuilder_Build ExecWrapperImage
                        ExecWrapperPullPolicy sci nodeName) in
  Labels pod !! LabelManagedBy = Some "stoppablecontainer" /\
  Labels pod !! LabelInstance = Some (Name (sciMeta sci)) /\
  Labels pod !! LabelRole = Some "consumer" /\
  (forall k, k <> LabelManagedBy -> k <> LabelInstance -> k <> LabelRole ->
             Labels pod !! k = Labels template !! k) /\
  Annotations pod = Annotations template.
Proof.
  cbn zeta. unfold ConsumerPodBuilder_Build, buildLabels, buildAnnotations.
  cbn [podMeta Labels Annotations]. repeat split.
  - rewrite !lookup_insert_ne by done. by rewrite lookup_insert_eq.
  - rewrite lookup_insert_ne by done. by rewrite lookup_insert_eq.
  - by rewrite lookup_insert_eq.
  - intros k H1 H2 H3. by rewrite !lookup_insert_ne by done.
Qed.

End BuilderFacts.

Lemma Build_mounts_have_volumes_witness :
  List.Forall
    (Provider.mountsHaveVolumes
       (Core.Volumes
          (Core.podSpec
             (Provider.ConsumerPodBuilder_Build "exec:latest" "IfNotPresent"
                Provider.sidecarInstance "node-1"))))
    (firstn 1
       (Core.Containers
          (Core.podSpec
             (Provider.ConsumerPodBuilder_Build "exec:latest" "IfNotPresent"
                Provider.sidecarInstance "node-1")))
     ++ Core.InitContainers
          (Core.podSpec
             (Provider.ConsumerPodBuilder_Build "exec:latest" "IfNotPresent"
                Provider.sidecarInstance "node-1"))).
Proof.
  apply (Build_mounts_have_volumes "exec:latest" "IfNotPresent"
           Provider.sidecarInstance "node-1").
  vm_compute. constructor; [|constructor].
  intros m [<-|[]]. by left.
Defined.

Lemma Build_sidecar_mounts_dangle_witness :
  In Provider.sidecarContainer
    (Core.Containers
       (Core.podSpec
          (Provider.ConsumerPodBuilder_Build "exec:latest" "IfNotPresent"
             Provider.sidecarInstance "node-1"))) /\
  ~ Provider.mountsHaveVolumes
      (Core.Volumes
         (Core.podSpec
            (Provider.ConsumerPodBuilder_Build "exec:latest" "IfNotPresent"
               Provider.sidecarInstance "node-1")))
      Provider.sidecarContainer.
Proof.
  apply (Build_sidecar_mounts_dangle "exec:latest" "IfNotPresent"
           Provider.sidecarInstance "node-1" Provider.sidecarContainer
           Provider.dataMount).
  - vm_compute. by left.
  - by left.
  - vm_compute. intros [H|[H|[H|[]]]]; discriminate.
  - intros v. vm_compute. discriminate.
Defined.

(* ------------------------------------------------------------------ *)
(** ** The instance controller: pods *)
(* ------------------------------------------------------------------ *)

Section ReconcileFacts.
Import Meta Core Api ApiSingle Controller.
Variable apiFault : ApiCall -> bool.
Variable ExecWrapperImage : string.
Variable providerPodSpec : StoppableContainerInstance -> PodSpec.

Lemma string_app_inv_head (a b c : string) : a +:+ b = a +:+ c -> b = c.
Proof. induction a as [|x a IH]; cbn; [done|]. intros [= H]. auto. Qed.

Lemma provider_suffix_differs (name : string) : name <> name +:+ "-provider".
Proof.
  intros H. apply (f_equal String.length) in H.
  rewrite string_app_length in H. simpl in H. lia.
Qed.

Lemma provider_consumer_keys_differ (sci : StoppableContainerInstance) :
  consumerPodKey sci <> providerPodKey sci.
Proof.
  unfold providerPodKey, consumerPodKey. intros [= H].
  by apply string_app_inv_head in H.
Qed.

Lemma built_consumer_key (sci : StoppableContainerInstance) (node : string) :
  podKey (InternalProvider.ConsumerPodBuilder_Build ExecWrapperImage sci node)
  = consumerPodKey sci.
Proof. reflexivity. Qed.

Lemma deletePod_lookup_ne (key k : ObjectKey) (c : Cluster) :
  k <> key -> pods (deletePod key c) !! k = pods c !! k.
Proof.
  intros Hk. unfold deletePod. case_match; [|done].
  cbn [pods]. by rewrite lookup_insert_ne.
Qed.

Lemma deletePod_lookup_None (key k : ObjectKey) (c : Cluster) :
  pods c !! k = None -> pods (deletePod key c) !! k = None.
Proof.
  intros Hk. unfold deletePod. case_match eqn:Hkey; [|done].
  cbn [pods]. rewrite lookup_insert_ne; [done|]. intros <-. congruence.
Qed.

(** X12: while an instance is not being deleted, a reconciliation of it
    never deletes or replaces its provider pod: the pod found under
    [<name>-provider] is still there afterwards, whatever the desired state
    and whatever calls fail. *)
Theorem Reconcile_keeps_provider (c : Cluster) (req : ObjectKey)
    (sci : StoppableContainerInstance) (provider : Pod) :
  instances c !! req = Some sci ->
  Deleting (sciMeta sci) = false ->
  pods c !! providerPodKey sci = Some provider ->
  pods (Reconcile apiFault ExecWrapperImage providerPodSpec c req).1 !! providerPodKey sci
  = Some provider.
Proof.
  intros Hsci Hdel Hprov. unfold Reconcile. rewrite Hsci, Hdel, Hprov.
  change (consumerPodKey (withProvider sci provider))
    with (consumerPodKey sci).
  unfold createConsumerPod.
  repeat case_match; cbn [fst]; rewrite ?updatePhase_pods;
    rewrite ?deletePod_lookup_ne
      by (apply not_eq_sym, provider_consumer_keys_differ);
    unfold storeInstance, storePod; repeat case_match;
    cbn [pods]; try done.
  rewrite built_consumer_key, lookup_insert_ne; [done|].
  apply (provider_consumer_keys_differ sci).
Qed.

Lemma pods_unchanged_absurd (c c' : Cluster) (k : ObjectKey) (pod : Pod) :
  pods c' = pods c -> pods c !! k = None -> pods c' !! k = Some pod -> False.
Proof. intros ->. congruence. Qed.

(** X13: a reconciliation creates at most the pod it reports.  A pod that
    is there afterwards and was not there before is the provider pod, built
    because none was found, or the consumer pod; and the consumer pod is
    created only for an instance that is not being deleted and should run,
    whose provider pod is ready and bound to a node, with no pod found
    under [<name>-consumer]: it is created under that name and pinned to
    the node of the provider. *)
Theorem Reconcile_created_pod (c : Cluster) (req k : ObjectKey) (pod : Pod) :
  pods c !! k = None ->
  pods (Reconcile apiFault ExecWrapperImage providerPodSpec c req).1 !! k = Some pod ->
  exists sci,
    instances c !! req = Some sci /\
    Deleting (sciMeta sci) = false /\
    ((k = providerPodKey sci /\
      pod = InternalProvider.ProviderPodBuilder_Build providerPodSpec sci) \/
     (exists provider,
        pods c !! providerPodKey sci = Some provider /\
        isPodReady provider = true /\
        Running (sciSpec sci) = true /\
        pods c !! consumerPodKey sci = None /\
        NodeName (podSpec provider) <> "" /\
        k = (Namespace (sciMeta sci), Name (sciMeta sci) +:+ "-consumer") /\
        NodeName (podSpec pod) = NodeName (podSpec provider) /\
        pod = InternalProvider.ConsumerPodBuilder_Build ExecWrapperImage
                (withProvider sci provider) (NodeName (podSpec provider)))).
Proof.
  intros Hnone H. unfold Reconcile in H.
  assert (forall c', pods c' = pods c -> pods c' !! k = Some pod -> False)
    as Hsame by (intros c' H1 H2; by eapply pods_unchanged_absurd).
  destruct (apiFault (GetInstance req)); [by destruct (Hsame c)|].
  destruct (instances c !! req) as [sci|] eqn:Hsci; [|by destruct (Hsame c)].
  destruct (Deleting (sciMeta sci)) eqn:Hdel.
  { exfalso. revert H. unfold handleDeletion, storeInstance.
    repeat case_match; cbn [fst pods]; try by apply Hsame.
    all: intros Hk; by rewrite deletePod_lookup_None in Hk. }
  destruct (ContainsFinalizer (sciMeta sci) SCIFinalizerName); cbn [negb] in H.
  2: { exfalso. revert H. unfold storeInstance.
       repeat case_match; by apply Hsame. }
  destruct (apiFault (GetPod (providerPodKey sci))); [by destruct (Hsame c)|].
  destruct (apiFault (GetPod (consumerPodKey sci))); [by destruct (Hsame c)|].
  exists sci. split; [done|]. split; [done|].
  destruct (pods c !! providerPodKey sci) as [provider|] eqn:Hprov.
  2: { left. revert H. unfold createProviderPod.
       repeat case_match; cbn [fst]; rewrite ?updatePhase_pods;
         try (intros Hk; by destruct (Hsame c)).
       unfold storePod. cbn [pods]. intros Hk.
       apply lookup_insert_Some in Hk as [[<- <-]|[_ Hk]]; [done|congruence]. }
  destruct (isPodReady provider) eqn:Hready; cbn [negb] in H.
  2: { destruct (Hsame _ (updatePhase_pods apiFault c sci _ _) H). }
  change (Running (sciSpec (withProvider sci provider)))
    with (Running (sciSpec sci)) in H.
  change (consumerPodKey (withProvider sci provider))
    with (consumerPodKey sci) in H.
  destruct (Running (sciSpec sci)) eqn:Hrun; cbn [negb] in H.
  2: { exfalso. revert H.
       repeat case_match; cbn [fst]; rewrite ?updatePhase_pods;
         try by apply Hsame.
       intros Hk. by rewrite deletePod_lookup_None in Hk. }
  destruct (pods c !! consumerPodKey sci) as [consumer|] eqn:Hcons.
  { exfalso. revert H.
    repeat case_match; cbn [fst]; rewrite ?updatePhase_pods; by apply Hsame. }
  change (StatusNodeName (sciStatus (withProvider sci provider)))
    with (NodeName (podSpec provider)) in H.
  destruct (String.eqb_spec (NodeName (podSpec provider)) "") as [Hnode|Hnode].
  { destruct (Hsame _ (updatePhase_pods apiFault c _ _ _) H). }
  right. exists provider. repeat split; try done.
  all: revert H; unfold createConsumerPod;
    change (StatusNodeName (sciStatus (withProvider sci provider)))
      with (NodeName (podSpec provider));
    destruct (String.eqb_spec (NodeName (podSpec provider)) "") as [|_];
      [done|];
    repeat case_match; cbn [fst]; rewrite ?updatePhase_pods;
      try (intros Hk; by destruct (Hsame c));
    unfold storePod; cbn [pods]; intros Hk;
    apply lookup_insert_Some in Hk as [[<- <-]|[_ Hk]]; [done|congruence].
Qed.

Lemma wrote_last (c c' : Cluster) (phase ns name p : string) :
  wrote c c' phase ->
  phasesWritten c' = phasesWritten c ++ [(ns, name, p)] ->
  phase = p.
Proof.
  intros [Hw|(ns' & name' & Hw)] H; rewrite Hw in H.
  - apply (f_equal length) in H. rewrite length_app in H. simpl in H. lia.
  - apply app_inv_head in H. by injection H.
Qed.

(** The phase that a reconciliation writes, by what it has read. *)
Lemma Reconcile_written_inv (c : Cluster) (req : ObjectKey)
    (ns name p : string) :
  phasesWritten
    (Reconcile apiFault ExecWrapperImage providerPodSpec
       c req).1
  = phasesWritten c ++ [(ns, name, p)] ->
  exists sci,
    instances c !! req = Some sci /\
    Deleting (sciMeta sci) = false /\
    match pods c !! providerPodKey sci with
    | None => p = InstancePhaseProviderStarting
    | Some provider =>
        if negb (isPodReady provider) then p = InstancePhaseProviderStarting
        else if negb (Running (sciSpec sci))
        then match pods c !! consumerPodKey sci with
             | Some _ => p = InstancePhaseStopping
             | None => p = InstancePhaseStopped
             end
        else match pods c !! consumerPodKey sci with
             | None =>
                 if String.eqb (NodeName (podSpec provider)) ""
                 then p = InstancePhaseProviderReady
                 else p = InstancePhaseConsumerStarting
             | Some consumer =>
                 if isPodFailed consumer then p = InstancePhaseFailed
                 else if negb (isPodReady consumer)
                 then p = InstancePhaseConsumerStarting
                 else p = InstancePhaseRunning
             end
    end.
Proof.
  intros H.
  assert (forall c' phase,
            phasesWritten c' = phasesWritten c ++ [(ns, name, p)] ->
            wrote c c' phase -> p = phase)
    as Hw by (intros c' phase H1 H2; symmetry; by eapply wrote_last).
  assert (forall c', phasesWritten c' = phasesWritten c ->
            phasesWritten c' = phasesWritten c ++ [(ns, name, p)] ->
            False) as Hsame.
  { intros c' H1 H2. rewrite H1 in H2. apply (f_equal length) in H2.
    rewrite length_app in H2. simpl in H2. lia. }
  unfold Reconcile in H.
  destruct (apiFault (GetInstance req)); [by destruct (Hsame c)|].
  destruct (instances c !! req) as [sci|] eqn:Hsci; [|by destruct (Hsame c)].
  destruct (Deleting (sciMeta sci)) eqn:Hdel.
  { destruct (Hsame _ (handleDeletion_wrote_nothing apiFault c sci) H). }
  destruct (ContainsFinalizer (sciMeta sci) SCIFinalizerName); cbn [negb] in H.
  2: { destruct (apiFault _); [by destruct (Hsame c)|].
       eapply Hsame in H; [done|]. unfold storeInstance. by repeat case_match. }
  destruct (apiFault (GetPod (providerPodKey sci))); [by destruct (Hsame c)|].
  destruct (apiFault (GetPod (consumerPodKey sci))); [by destruct (Hsame c)|].
  exists sci. split; [done|]. split; [done|].
  destruct (pods c !! providerPodKey sci) as [provider|].
  2: { apply (Hw _ _ H (createProviderPod_wrote apiFault providerPodSpec c sci)). }
  destruct (isPodReady provider); cbn [negb] in *.
  2: { apply (Hw _ _ H (updatePhase_wrote apiFault c sci _ _)). }
  change (Running (sciSpec (withProvider sci provider)))
    with (Running (sciSpec sci)) in H.
  change (consumerPodKey (withProvider sci provider))
    with (consumerPodKey sci) in H.
  change (StatusNodeName (sciStatus (withProvider sci provider)))
    with (NodeName (podSpec provider)) in H.
  destruct (Running (sciSpec sci)); cbn [negb] in *.
  - destruct (pods c !! consumerPodKey sci) as [consumer|].
    + repeat case_match; apply (Hw _ _ H (updatePhase_wrote apiFault c _ _ _)).
    + destruct (String.eqb _ "").
      * apply (Hw _ _ H (updatePhase_wrote apiFault c _ _ _)).
      * apply (Hw _ _ H (createConsumerPod_wrote apiFault ExecWrapperImage c _)).
  - destruct (pods c !! consumerPodKey sci) as [consumer|].
    + destruct (apiFault _); [by destruct (Hsame c)|].
      apply (Hw _ _ H (updatePhase_wrote_deleted apiFault c _ _ _ _)).
    + apply (Hw _ _ H (updatePhase_wrote apiFault c _ _ _)).
Qed.

(** X14: the phase Running is written only for an instance that is not
    being deleted and should run, whose provider pod is ready and whose pod
    under the name [<name>-consumer] is ready and has not failed; the phase
    Failed is written only when that pod has failed. *)
Theorem Reconcile_Running_Failed (c : Cluster) (req : ObjectKey)
    (ns name p : string) :
  phasesWritten
    (Reconcile apiFault ExecWrapperImage providerPodSpec
       c req).1
  = phasesWritten c ++ [(ns, name, p)] ->
  p = InstancePhaseRunning \/ p = InstancePhaseFailed ->
  exists sci provider consumer,
    instances c !! req = Some sci /\
    Deleting (sciMeta sci) = false /\
    Running (sciSpec sci) = true /\
    pods c !! providerPodKey sci = Some provider /\
    isPodReady provider = true /\
    pods c !! consumerPodKey sci = Some consumer /\
    isPodFailed consumer = bool_decide (p = InstancePhaseFailed) /\
    isPodReady consumer = bool_decide (p = InstancePhaseRunning).
Proof.
  intros H Hp.
  destruct (Reconcile_written_inv c req ns name p H) as (sci & Hsci & Hdel & Hcase).
  destruct (pods c !! providerPodKey sci) as [provider|] eqn:Hprov.
  2: { destruct Hp; by subst. }
  destruct (isPodReady provider) eqn:Hready; cbn [negb] in Hcase.
  2: { destruct Hp; by subst. }
  destruct (Running (sciSpec sci)) eqn:Hrun; cbn [negb] in Hcase.
  2: { destruct (pods c !! consumerPodKey sci); destruct Hp; by subst. }
  destruct (pods c !! consumerPodKey sci) as [consumer|] eqn:Hcons.
  2: { destruct (String.eqb _ ""); destruct Hp; by subst. }
  exists sci, provider, consumer.
  destruct (isPodFailed consumer) eqn:Hf.
  - subst p. repeat split; try done.
    unfold isPodFailed in Hf. apply String.eqb_eq in Hf.
    unfold isPodReady. by rewrite Hf.
  - destruct (isPodReady consumer); cbn [negb] in Hcase; subst p.
    + by repeat split.
    + by destruct Hp.
Qed.

Lemma firstContainerReason_nonempty (statuses : list ContainerStatus) :
  firstContainerReason statuses <> "".
Proof.
  induction statuses as [|cs rest IH]; [done|].
  cbn [firstContainerReason].
  repeat case_match; try done;
    match goal with
    | H : negb (String.eqb ?r "") = true |- ?r <> "" =>
        intros ->; by cbn in H
    end.
Qed.

(** X15: the reason that [getPodFailureReason] gives is never empty: the
    message of a failed instance always reads [Consumer pod failed: ]
    followed by at least one character. *)
Theorem getPodFailureReason_nonempty (pod : Pod) :
  getPodFailureReason pod <> "" /\
  (getPodFailureReason pod = podMessage (podStatus pod) \/
   podMessage (podStatus pod) = "" /\
   (getPodFailureReason pod = podReason (podStatus pod) \/
    podReason (podStatus pod) = "" /\
    getPodFailureReason pod
    = firstContainerReason (podContainerStatuses (podStatus pod)))).
Proof.
  unfold getPodFailureReason.
  destruct (String.eqb_spec (podMessage (podStatus pod)) "") as [Hm|Hm];
    cbn [negb]; [|by auto].
  destruct (String.eqb_spec (podReason (podStatus pod)) "") as [Hr|Hr];
    cbn [negb]; [|by auto].
  split; [apply firstContainerReason_nonempty|auto].
Qed.

End ReconcileFacts.

Lemma Reconcile_keeps_provider_witness :
  Controller.pods
    (Controller.Reconcile Controller.noApiFault "exec:latest"
       Controller.demoProviderSpec Controller.demoProviderReady
       Controller.demoKey).1
    !! Controller.providerPodKey Controller.demoManaged
  = Some Controller.demoProviderPod.
Proof.
  apply (Reconcile_keeps_provider Controller.noApiFault "exec:latest" Controller.demoProviderSpec
           Controller.demoProviderReady Controller.demoKey
           Controller.demoManaged Controller.demoProviderPod).
  - by vm_compute.
  - reflexivity.
  - by vm_compute.
Defined.

Lemma Reconcile_created_pod_witness :
  exists sci,
    Controller.instances Controller.demoProviderReady !! Controller.demoKey
    = Some sci /\
    Meta.Deleting (ApiSingle.sciMeta sci) = false.
Proof.
  destruct (Reconcile_created_pod Controller.noApiFault "exec:latest" Controller.demoProviderSpec
              Controller.demoProviderReady Controller.demoKey
              ("default", "demo-consumer")
              (InternalProvider.ConsumerPodBuilder_Build "exec:latest"
                 (Controller.withProvider Controller.demoManaged
                    Controller.demoProviderPod) "node-1"))
    as (sci & Hsci & Hdel & _).
  - by vm_compute.
  - by vm_compute.
  - by exists sci.
Defined.

Lemma Reconcile_Running_Failed_witness :
  exists sci provider consumer,
    Controller.instances Controller.demoBothReady !! Controller.demoKey
    = Some sci /\
    Controller.pods Controller.demoBothReady !! Controller.providerPodKey sci
    = Some provider /\
    Controller.pods Controller.demoBothReady !! Controller.consumerPodKey sci
    = Some consumer /\
    Controller.isPodReady consumer = true.
Proof.
  destruct (Reconcile_Running_Failed Controller.noApiFault "exec:latest" Controller.demoProviderSpec
              Controller.demoBothReady Controller.demoKey
              "default" "demo" Api.InstancePhaseRunning)
    as (sci & provider & consumer & Hsci & _ & _ & Hp & _ & Hc & _ & Hr).
  - by vm_compute.
  - by left.
  - by exists sci, provider, consumer.
Defined.

(* ------------------------------------------------------------------ *)
(** ** The instance controller: what it leaves alone *)
(* ------------------------------------------------------------------ *)

Section ReconcileFrame.
Import Meta Core Api ApiSingle Controller.
Variable apiFault : ApiCall -> bool.
Variable ExecWrapperImage : string.
Variable providerPodSpec : StoppableContainerInstance -> PodSpec.
Variable req : ObjectKey.

Lemma sameInstances_refl (c : Cluster) : sameInstances req c c.
Proof.
  repeat split; try done.
  destruct (instances c !! req) as [sci|]; [|done].
  left. exists sci. repeat split; try done. unfold setFinalizers.
  by destruct (sciMeta sci).
Qed.

Lemma sameInstances_pods (c c1 c' : Cluster) :
  instances c1 = instances c -> containers c1 = containers c ->
  sameInstances req c1 c' -> sameInstances req c c'.
Proof. unfold sameInstances. by intros -> ->. Qed.

Lemma sameInstances_only_pods (c c' : Cluster) :
  instances c' = instances c -> containers c' = containers c ->
  sameInstances req c c'.
Proof.
  intros Hi Hc. apply (sameInstances_pods c c' c'); [done..|].
  apply sameInstances_refl.
Qed.

Lemma deletePod_instances (key : ObjectKey) (c : Cluster) :
  instances (deletePod key c) = instances c.
Proof. unfold deletePod. by case_match. Qed.

Lemma deletePod_containers (key : ObjectKey) (c : Cluster) :
  containers (deletePod key c) = containers c.
Proof. unfold deletePod. by case_match. Qed.

Lemma storeInstanceStatus_same (c : Cluster)
    (sci0 sci : StoppableContainerInstance) :
  instances c !! req = Some sci0 ->
  instanceKey sci = req ->
  sameInstances req c (storeInstanceStatus sci c).
Proof.
  intros H0 Hkey. unfold storeInstanceStatus. rewrite Hkey, H0.
  repeat split; cbn [containers instances]; try done.
  - intros k Hk. by rewrite lookup_insert_ne.
  - rewrite H0. left. eexists. rewrite lookup_insert_eq.
    repeat split; try done. unfold setFinalizers. cbn [sciMeta].
    by destruct (sciMeta sci0).
Qed.

Lemma updatePhase_same (c : Cluster) (sci0 sci : StoppableContainerInstance)
    (phase message : string) :
  instances c !! req = Some sci0 ->
  instanceKey sci = req ->
  sameInstances req c (updatePhase apiFault c sci phase message).1.
Proof.
  intros H0 Hkey. unfold updatePhase.
  destruct (apiFault _); cbn [fst]; [apply sameInstances_refl|].
  apply (storeInstanceStatus_same c sci0); [done|].
  by rewrite instanceKey_setPhase.
Qed.

Lemma storeInstance_same (c : Cluster) (sci0 : StoppableContainerInstance)
    (fs : list string) :
  instances c !! req = Some sci0 ->
  instanceKey sci0 = req ->
  (Deleting (sciMeta sci0) = true /\ fs = [] ->
   forall f, In f (Finalizers (sciMeta sci0)) -> f = SCIFinalizerName) ->
  sameInstances req c
    (storeInstance
       (mkInstance (setFinalizers (sciMeta sci0) fs) (sciSpec sci0)
          (sciStatus sci0)) c).
Proof.
  intros H0 Hkey Hfs. unfold storeInstance.
  change (instanceKey (mkInstance _ _ _)) with (instanceKey sci0).
  rewrite Hkey, H0. cbn [sciMeta sciSpec setFinalizers Deleting Finalizers].
  destruct (Deleting (sciMeta sci0) && bool_decide (fs = [])) eqn:Hd.
  - apply andb_true_iff in Hd as [Hd Hnil]. apply bool_decide_eq_true in Hnil.
    repeat split; cbn [containers instances]; try done.
    + intros k Hk. by rewrite lookup_delete_ne.
    + rewrite H0, lookup_delete_eq. right. auto.
  - repeat split; cbn [containers instances]; try done.
    + intros k Hk. by rewrite lookup_insert_ne.
    + rewrite H0, lookup_insert_eq. left. eexists.
      split; [done|]. split; [done|].
      cbn [sciMeta]. unfold setFinalizers. by destruct (sciMeta sci0).
Qed.

(** X16: a reconciliation of the instance [req] leaves every workload
    object and every other instance as it is.  Of the instance itself it
    changes only the status and the list of finalizers, never the spec; it
    never creates an instance, and the instance is gone afterwards only if
    it was being deleted and held no finalizer but the controller's. *)
Theorem Reconcile_instances (c : Cluster) :
  (forall sci, instances c !! req = Some sci -> instanceKey sci = req) ->
  sameInstances req c
    (Reconcile apiFault ExecWrapperImage providerPodSpec
       c req).1.
Proof.
  intros Hwf. unfold Reconcile.
  destruct (apiFault (GetInstance req)); [apply sameInstances_refl|].
  destruct (instances c !! req) as [sci|] eqn:Hsci; [|apply sameInstances_refl].
  specialize (Hwf sci eq_refl).
  assert (forall c1 s phase message,
            instances c1 = instances c -> containers c1 = containers c ->
            instanceKey s = req ->
            sameInstances req c (updatePhase apiFault c1 s phase message).1)
    as Hup.
  { intros c1 s phase message Hi Hc Hs.
    apply (sameInstances_pods c c1); [done..|].
    apply (updatePhase_same c1 sci); [by rewrite Hi|done]. }
  destruct (Deleting (sciMeta sci)) eqn:Hdel.
  { unfold handleDeletion.
    repeat case_match; cbn [fst]; try apply sameInstances_refl;
      try (apply sameInstances_only_pods;
           [apply deletePod_instances|apply deletePod_containers]).
    all: unfold RemoveFinalizer; apply storeInstance_same; [done..|].
    all: intros [_ Hnil] f Hf.
    all: destruct (String.eqb_spec f SCIFinalizerName) as [|Hne]; [done|].
    all: assert (In f (List.filter
                         (fun f => negb (String.eqb f SCIFinalizerName))
                         (Finalizers (sciMeta sci)))) as Hin
           by (apply filter_In; split; [done|];
               by apply negb_true_iff, String.eqb_neq).
    all: by rewrite Hnil in Hin. }
  destruct (ContainsFinalizer (sciMeta sci) SCIFinalizerName) eqn:Hfin;
    cbn [negb].
  2: { destruct (apiFault _); cbn [fst]; [apply sameInstances_refl|].
       unfold AddFinalizer. rewrite Hfin.
       apply storeInstance_same; [done..|]. intros [? _]. congruence. }
  destruct (apiFault (GetPod (providerPodKey sci))); [apply sameInstances_refl|].
  destruct (apiFault (GetPod (consumerPodKey sci))); [apply sameInstances_refl|].
  unfold createProviderPod, createConsumerPod.
  repeat case_match; cbn [fst]; try apply sameInstances_refl;
    try (by apply Hup).
  by apply Hup; [apply deletePod_instances|apply deletePod_containers|].
Qed.

End ReconcileFrame.

Lemma Reconcile_instances_witness :
  Controller.sameInstances Controller.demoKey Controller.demoProviderReady
    (Controller.Reconcile Controller.noApiFault "exec:latest"
       Controller.demoProviderSpec Controller.demoProviderReady
       Controller.demoKey).1.
Proof.
  apply (Reconcile_instances Controller.noApiFault "exec:latest" Controller.demoProviderSpec Controller.demoKey
           Controller.demoProviderReady).
  intros sci H. vm_compute in H. injection H as <-. reflexivity.
Defined.

(* ------------------------------------------------------------------ *)
(** ** The instance controller: deletion *)
(* ------------------------------------------------------------------ *)

Section Deletion.
Import Meta Core Api ApiSingle Controller.
Variable ExecWrapperImage : string.
Variable providerPodSpec : StoppableContainerInstance -> PodSpec.
Variable req : ObjectKey.
Variable sci : StoppableContainerInstance.
Hypothesis sci_key : instanceKey sci = req.
Hypothesis sci_deleting : Deleting (sciMeta sci) = true.
Hypothesis sci_finalizer :
  ContainsFinalizer (sciMeta sci) SCIFinalizerName = true.

Lemma reconcileOnce_deleting (c : Cluster) :
  instances c !! req = Some sci ->
  reconcileOnce ExecWrapperImage providerPodSpec req c
  = match pods c !! consumerPodKey sci with
    | Some _ => deletePod (consumerPodKey sci) c
    | None =>
        match pods c !! providerPodKey sci with
        | Some _ => deletePod (providerPodKey sci) c
        | None => storeInstance (released sci) c
        end
    end.
Proof using sci_deleting sci_finalizer.
  intros Hsci. unfold reconcileOnce, Reconcile, handleDeletion, noApiFault.
  rewrite Hsci, sci_deleting, sci_finalizer. cbn [negb].
  by repeat case_match.
Qed.

Lemma ContainsFinalizer_Remove (m : ObjectMeta) (f : string) :
  ContainsFinalizer (RemoveFinalizer m f) f = false.
Proof.
  unfold ContainsFinalizer, RemoveFinalizer. cbn [setFinalizers Finalizers].
  induction (Finalizers m) as [|g gs IH]; [done|]. cbn [List.filter].
  destruct (String.eqb_spec g f) as [->|Hne]; cbn [negb]; [done|].
  cbn [existsb]. rewrite IH, orb_false_r. apply String.eqb_neq. congruence.
Qed.

Lemma deletionDone_released (c : Cluster) :
  instances c !! req = Some sci ->
  pods c !! consumerPodKey sci = None ->
  pods c !! providerPodKey sci = None ->
  deletionDone req sci (storeInstance (released sci) c).
Proof using sci_key sci_deleting.
  intros Hsci Hc Hp. unfold storeInstance.
  change (instanceKey (released sci)) with (instanceKey sci).
  rewrite sci_key, Hsci.
  case_match; repeat split; cbn [pods instances]; try done.
  - by rewrite lookup_delete_eq.
  - rewrite lookup_insert_eq. cbn [sciMeta released]. split; [done|].
    apply ContainsFinalizer_Remove.
Qed.

Lemma reconcileOnce_done (c : Cluster) :
  deletionDone req sci c ->
  reconcileOnce ExecWrapperImage providerPodSpec req c = c.
Proof.
  intros (_ & _ & H). unfold reconcileOnce, Reconcile, handleDeletion.
  cbn [noApiFault]. destruct (instances c !! req) as [s|]; [|done].
  destruct H as [-> ->]. done.
Qed.

Lemma storeInstance_pods (s : StoppableContainerInstance) (c : Cluster) :
  pods (storeInstance s c) = pods c.
Proof. unfold storeInstance. by repeat case_match. Qed.

Lemma podTerminated_absent (k : ObjectKey) (c : Cluster) :
  pods c !! k = None -> podTerminated k c = c.
Proof. intros H. unfold podTerminated. by rewrite H. Qed.

(** A pod whose deletion was requested is removed by the kubelet. *)
Lemma podTerminated_deletePod (k : ObjectKey) (c : Cluster) (pod : Pod) :
  pods c !! k = Some pod ->
  podTerminated k (deletePod k c) = removePod k c.
Proof.
  intros H. unfold podTerminated, deletePod. rewrite H. cbn [pods].
  rewrite lookup_insert_eq. cbn [terminating podMeta Deleting].
  unfold removePod. cbn [instances containers pods phasesWritten].
  by rewrite delete_insert_eq.
Qed.

(** Requesting the deletion again changes nothing. *)
Lemma deletePod_twice (k : ObjectKey) (c : Cluster) :
  deletePod k (deletePod k c) = deletePod k c.
Proof.
  unfold deletePod at 2. destruct (pods c !! k) as [pod|] eqn:H.
  - unfold deletePod. cbn [pods instances containers phasesWritten].
    by rewrite lookup_insert_eq, insert_insert_eq, H.
  - unfold deletePod. by rewrite H.
Qed.

(** The run of a deletion when no call fails: a reconciliation, the end
    of the consumer pod, a reconciliation, the end of the provider pod, a
    reconciliation. *)
Lemma deletion_run (c : Cluster) :
  instances c !! req = Some sci ->
  reconcileOnce ExecWrapperImage providerPodSpec req
    (podTerminated (providerPodKey sci)
       (reconcileOnce ExecWrapperImage providerPodSpec req
          (podTerminated (consumerPodKey sci)
             (reconcileOnce ExecWrapperImage providerPodSpec req c))))
  = storeInstance (released sci)
      (removePod (providerPodKey sci) (removePod (consumerPodKey sci) c)).
Proof using sci_key sci_deleting sci_finalizer.
  intros Hsci.
  pose proof (provider_consumer_keys_differ sci) as Hne.
  assert (forall k c0, pods c0 !! k = None -> removePod k c0 = c0) as Habsent.
  { intros k c0 H. unfold removePod. rewrite delete_id by done.
    by destruct c0. }
  rewrite (reconcileOnce_deleting c Hsci).
  destruct (pods c !! consumerPodKey sci) as [consumer|] eqn:Hcons.
  - rewrite (podTerminated_deletePod _ c consumer Hcons).
    set (c1 := removePod (consumerPodKey sci) c).
    assert (instances c1 !! req = Some sci) as H1 by done.
    assert (pods c1 !! consumerPodKey sci = None) as Hc1
      by apply lookup_delete_eq.
    rewrite (reconcileOnce_deleting c1 H1), Hc1.
    destruct (pods c1 !! providerPodKey sci) as [provider|] eqn:Hprov.
    + rewrite (podTerminated_deletePod _ c1 provider Hprov).
      set (c2 := removePod (providerPodKey sci) c1).
      assert (instances c2 !! req = Some sci) as H2 by done.
      assert (pods c2 !! providerPodKey sci = None) as Hp2
        by apply lookup_delete_eq.
      assert (pods c2 !! consumerPodKey sci = None) as Hc2
        by (unfold c2, removePod; cbn [pods]; by rewrite lookup_delete_ne).
      by rewrite (reconcileOnce_deleting c2 H2), Hc2, Hp2.
    + pose proof (deletionDone_released c1 H1 Hc1 Hprov) as Hdone.
      rewrite (podTerminated_absent _ (storeInstance (released sci) c1))
        by (by rewrite storeInstance_pods).
      by rewrite (reconcileOnce_done _ Hdone), (Habsent _ c1).
  - rewrite (Habsent _ c Hcons).
    destruct (pods c !! providerPodKey sci) as [provider|] eqn:Hprov.
    + rewrite (podTerminated_absent (consumerPodKey sci)
                 (deletePod (providerPodKey sci) c))
        by (by apply deletePod_lookup_None).
      set (c1 := deletePod (providerPodKey sci) c).
      assert (instances c1 !! req = Some sci) as H1
        by (unfold c1; by rewrite deletePod_instances).
      assert (pods c1 !! consumerPodKey sci = None) as Hc1
        by (by apply deletePod_lookup_None).
      assert (pods c1 !! providerPodKey sci = Some (terminating provider))
        as Hp1.
      { unfold c1, deletePod. rewrite Hprov. cbn [pods].
        apply lookup_insert_eq. }
      rewrite (reconcileOnce_deleting c1 H1), Hc1, Hp1.
      unfold c1. rewrite deletePod_twice.
      rewrite (podTerminated_deletePod _ c provider Hprov).
      set (c2 := removePod (providerPodKey sci) c).
      assert (instances c2 !! req = Some sci) as H2 by done.
      assert (pods c2 !! providerPodKey sci = None) as Hp2
        by apply lookup_delete_eq.
      assert (pods c2 !! consumerPodKey sci = None) as Hc2
        by (unfold c2, removePod; cbn [pods]; by rewrite lookup_delete_ne).
      by rewrite (reconcileOnce_deleting c2 H2), Hc2, Hp2.
    + pose proof (deletionDone_released c Hsci Hcons Hprov) as Hdone.
      rewrite (podTerminated_absent _ (storeInstance (released sci) c))
        by (by rewrite storeInstance_pods).
      rewrite (reconcileOnce_done _ Hdone).
      rewrite (podTerminated_absent _ (storeInstance (released sci) c))
        by (by rewrite storeInstance_pods).
      by rewrite (reconcileOnce_done _ Hdone), (Habsent _ c).
Qed.

(** X17: deleting an instance takes three reconciliations and the
    kubelet.  From a cluster in which the instance is being deleted and
    holds the finalizer of the controller, when no call fails: the first
    reconciliation requests the deletion of the pod under
    [<name>-consumer]; once that pod is gone the next one requests the
    deletion of the pod under [<name>-provider]; once that pod is gone the
    third one releases the finalizer.  No other pod is touched.  The
    controller alone does not get further than the first request: while the
    consumer pod is there, terminating, another reconciliation changes
    nothing and the finalizer stays. *)
Theorem Reconcile_deletion_completes (c : Cluster) :
  instances c !! req = Some sci ->
  let reconcile := reconcileOnce ExecWrapperImage providerPodSpec req in
  let c1 := podTerminated (consumerPodKey sci) (reconcile c) in
  let c2 := podTerminated (providerPodKey sci) (reconcile c1) in
  let c3 := reconcile c2 in
  deletionDone req sci c3 /\
  (forall k, k <> consumerPodKey sci -> k <> providerPodKey sci ->
             pods c3 !! k = pods c !! k) /\
  (is_Some (pods c !! consumerPodKey sci) ->
   reconcile (reconcile c) = reconcile c /\
   instances (reconcile c) !! req = Some sci /\
   is_Some (pods (reconcile c) !! consumerPodKey sci)).
Proof using sci_key sci_deleting sci_finalizer.
  intros Hsci. cbn zeta. rewrite (deletion_run c Hsci).
  pose proof (provider_consumer_keys_differ sci) as Hne.
  split; [|split].
  - apply deletionDone_released; [done|..]; unfold removePod; cbn [pods].
    + rewrite lookup_delete_ne by done. apply lookup_delete_eq.
    + apply lookup_delete_eq.
  - intros k Hk1 Hk2. rewrite storeInstance_pods.
    unfold removePod. cbn [pods]. by rewrite !lookup_delete_ne.
  - intros [consumer Hcons].
    rewrite (reconcileOnce_deleting c Hsci), Hcons.
    assert (instances (deletePod (consumerPodKey sci) c) !! req = Some sci)
      as H1 by (by rewrite deletePod_instances).
    assert (pods (deletePod (consumerPodKey sci) c) !! consumerPodKey sci
            = Some (terminating consumer)) as Hc1.
    { unfold deletePod. rewrite Hcons. cbn [pods]. apply lookup_insert_eq. }
    rewrite (reconcileOnce_deleting _ H1), Hc1, deletePod_twice.
    by eauto.
Qed.

End Deletion.

Section DeletionLookups.
Import Meta Core Api ApiSingle Controller.
Variable apiFault : ApiCall -> bool.


End DeletionLookups.


Lemma Reconcile_deletion_completes_witness :
  Controller.deletionDone Controller.demoKey Controller.demoDeletingInstance
    (Controller.reconcileOnce "exec:latest" Controller.demoProviderSpec
       Controller.demoKey
       (Controller.podTerminated ("default", "demo-provider")
          (Controller.reconcileOnce "exec:latest" Controller.demoProviderSpec
             Controller.demoKey
             (Controller.podTerminated ("default", "demo-consumer")
                (Controller.reconcileOnce "exec:latest"
                   Controller.demoProviderSpec Controller.demoKey
                   Controller.demoDeleting))))).
Proof.
  apply (Reconcile_deletion_completes "exec:latest"
           Controller.demoProviderSpec Controller.demoKey
           Controller.demoDeletingInstance).
  - reflexivity.
  - reflexivity.
  - reflexivity.
  - by vm_compute.
Defined.

(* ------------------------------------------------------------------ *)
(** ** The workload controller *)
(* ------------------------------------------------------------------ *)

Section WorkloadFacts.
Import Meta Core Api ApiSingle Controller Workload.
Variable apiFault : ApiCall -> bool.
Variable workloadFault : WorkloadCall -> bool.

Lemma storeContainer_instances (sc : StoppableContainer) (c : Cluster) :
  instances (storeContainer sc c) = instances c.
Proof. unfold storeContainer. by repeat case_match. Qed.

Lemma storeContainerStatus_instances (sc : StoppableContainer) (c : Cluster) :
  instances (storeContainerStatus sc c) = instances c.
Proof. unfold storeContainerStatus. by repeat case_match. Qed.

Lemma updateStatusFromInstance_instances (c : Cluster) (sc : StoppableContainer)
    (sci : StoppableContainerInstance) :
  instances (updateStatusFromInstance apiFault c sc sci).1 = instances c.
Proof.
  unfold updateStatusFromInstance.
  destruct (apiFault _); [done|]. apply storeContainerStatus_instances.
Qed.

Lemma storeInstance_lookup_None (s : StoppableContainerInstance) (c : Cluster)
    (k : ObjectKey) :
  instances c !! k = None -> instances (storeInstance s c) !! k = None.
Proof.
  intros Hk. unfold storeInstance.
  destruct (instances c !! instanceKey s) eqn:Hs; [|done].
  case_match; cbn [instances].
  - by apply lookup_delete_None; right.
  - rewrite lookup_insert_ne; [done|]. intros <-. congruence.
Qed.

Lemma deleteInstance_lookup_None (key k : ObjectKey) (c : Cluster) :
  instances c !! k = None -> instances (deleteInstance key c) !! k = None.
Proof.
  intros Hk. unfold deleteInstance.
  destruct (instances c !! key) eqn:Hs; [|done].
  case_match; cbn [instances].
  - by apply lookup_delete_None; right.
  - rewrite lookup_insert_ne; [done|]. intros <-. congruence.
Qed.

Lemma syncRunning_lookup_None (c : Cluster) (sc : StoppableContainer)
    (sci : StoppableContainerInstance) (running : bool) (k : ObjectKey) :
  instances c !! k = None ->
  instances (syncRunning apiFault c sc sci running).1 !! k = None.
Proof.
  intros Hk. unfold syncRunning.
  destruct (bool_decide _).
  - pose proof (updateStatusFromInstance_instances c sc sci) as H.
    destruct (updateStatusFromInstance apiFault c sc sci) as [c' o].
    cbn [fst] in *. by rewrite H.
  - destruct (apiFault _); [done|].
    pose proof (updateStatusFromInstance_instances
                  (storeInstance (withRunning sci running) c) sc
                  (withRunning sci running)) as H.
    destruct (updateStatusFromInstance apiFault _ sc _) as [c' o].
    cbn [fst] in *. rewrite H. by apply storeInstance_lookup_None.
Qed.

(** X19: the workload controller creates an instance only for a workload
    object that is not being deleted and should run, when none exists
    under its name.  The instance carries the name and namespace of the
    object, is switched on, copies its template, provider settings and host
    path prefix, and names the object as its controlling owner. *)
Theorem Workload_Reconcile_created_instance (c : Cluster) (req k : ObjectKey)
    (sci : StoppableContainerInstance) :
  instances c !! k = None ->
  instances (Workload.Reconcile apiFault workloadFault c req).1 !! k
  = Some sci ->
  exists sc,
    containers c !! req = Some sc /\
    Deleting (scMeta sc) = false /\
    scRunning (scSpec sc) = true /\
    k = (Namespace (scMeta sc), Name (scMeta sc)) /\
    sci = newInstance sc /\
    sciSpec sci
    = mkInstanceSpec (Name (scMeta sc)) true (scTemplate (scSpec sc))
        (scProvider (scSpec sc)) (scHostPathPrefix (scSpec sc)) /\
    OwnerReferences (sciMeta sci)
    = [mkOwnerReference GroupVersion "StoppableContainer" (Name (scMeta sc))
         (UID (scMeta sc)) (Some true) (Some true)].
Proof.
  intros Hnone H. unfold Workload.Reconcile in H.
  assert (forall c', instances c' !! k = None ->
                     instances c' !! k = Some sci -> False) as Hsame
    by (intros c' H1 H2; congruence).
  destruct (workloadFault (GetContainer req)); [by destruct (Hsame c)|].
  destruct (containers c !! req) as [sc|] eqn:Hsc; [|by destruct (Hsame c)].
  destruct (Deleting (scMeta sc)) eqn:Hdel.
  { exfalso. revert H. unfold Workload.handleDeletion.
    repeat case_match; cbn [fst]; apply Hsame;
      rewrite ?storeContainer_instances; try done.
    by apply deleteInstance_lookup_None. }
  destruct (ContainsFinalizer (scMeta sc) FinalizerName); cbn [negb] in H.
  2: { exfalso. revert H. repeat case_match; cbn [fst]; apply Hsame;
         by rewrite ?storeContainer_instances. }
  destruct (apiFault (GetInstance _)); [by destruct (Hsame c)|].
  destruct (scRunning (scSpec sc)) eqn:Hrun.
  2: { exfalso. revert H.
       destruct (instances c !! (Namespace (scMeta sc), Name (scMeta sc)))
         as [s|].
       - apply Hsame. by apply syncRunning_lookup_None.
       - unfold updateStatusStopped. case_match; cbn [fst]; apply Hsame;
           by rewrite ?storeContainerStatus_instances. }
  destruct (instances c !! (Namespace (scMeta sc), Name (scMeta sc)))
    as [s|] eqn:Hs.
  { exfalso. revert H. apply Hsame. by apply syncRunning_lookup_None. }
  exists sc. split; [done|]. split; [done|]. split; [done|].
  assert (instances c !! instanceKey (newInstance sc) = None) as Hs'
    by exact Hs.
  revert H. unfold createInstance. cbv zeta. rewrite Hs'.
  destruct (workloadFault _); [intros Hk; by destruct (Hsame c)|].
  assert (forall c', instances c' = instances (addInstance (newInstance sc) c) ->
            instances c' !! k = Some sci ->
            k = (Namespace (scMeta sc), Name (scMeta sc)) /\
            sci = newInstance sc) as Hadd.
  { intros c' -> Hk. unfold addInstance in Hk. cbn [instances] in Hk.
    apply lookup_insert_Some in Hk as [[<- <-]|[_ Hk]]; [done|congruence]. }
  destruct (apiFault _); cbn [fst]; intros Hk.
  - destruct (Hadd _ eq_refl Hk) as [-> ->]. by repeat split.
  - destruct (Hadd _ (storeContainerStatus_instances _ _) Hk) as [-> ->].
    by repeat split.
Qed.

(** X20: a reconciliation that ends without an error has brought the
    desired state to the instance.  For a workload object that is not being
    deleted and holds the finalizer, the instance under its name is
    switched on exactly when the object should run; if there is no
    instance afterwards, the object should not run. *)
Theorem Workload_Reconcile_mirrors_running (c c' : Cluster) (req : ObjectKey)
    (sc : StoppableContainer) (r : Result) :
  let key := (Namespace (scMeta sc), Name (scMeta sc)) in
  containers c !! req = Some sc ->
  Deleting (scMeta sc) = false ->
  ContainsFinalizer (scMeta sc) FinalizerName = true ->
  (forall sci, instances c !! key = Some sci ->
     instanceKey sci = key /\
     (Deleting (sciMeta sci) = true -> Finalizers (sciMeta sci) <> [])) ->
  Workload.Reconcile apiFault workloadFault c req = (c', Finished r) ->
  match instances c' !! key with
  | Some sci' => Running (sciSpec sci') = scRunning (scSpec sc)
  | None => scRunning (scSpec sc) = false
  end.
Proof.
  intros key Hsc Hdel Hfin Hwf. unfold Workload.Reconcile.
  rewrite Hsc, Hdel, Hfin. cbn [negb]. fold key.
  destruct (workloadFault _); [done|].
  destruct (apiFault (GetInstance key)); [done|].
  assert (forall sci running,
            instances c !! key = Some sci ->
            syncRunning apiFault c sc sci running = (c', Finished r) ->
            match instances c' !! key with
            | Some sci' => Running (sciSpec sci') = running
            | None => False
            end) as Hsync.
  { intros sci running Hsci. destruct (Hwf sci Hsci) as [Hkey Hnd].
    unfold syncRunning.
    destruct (bool_decide_reflect (Running (sciSpec sci) = running)) as [Hr|Hr].
    - pose proof (updateStatusFromInstance_instances c sc sci) as Hi.
      destruct (updateStatusFromInstance apiFault c sc sci) as [c1 o1].
      intros [= <- _]. cbn [fst] in Hi. by rewrite Hi, Hsci.
    - destruct (apiFault _); [done|].
      + pose proof (updateStatusFromInstance_instances
                      (storeInstance (withRunning sci running) c) sc
                      (withRunning sci running)) as Hi.
        destruct (updateStatusFromInstance apiFault _ sc _) as [c1 o1].
        intros [= <- _]. cbn [fst] in Hi. rewrite Hi.
        assert (instances c !! instanceKey sci = Some sci) as Hsci'
          by (rewrite Hkey; exact Hsci).
        unfold storeInstance.
        change (instanceKey (withRunning sci running)) with (instanceKey sci).
        rewrite Hsci', <- Hkey. cbn [withRunning sciMeta].
        destruct (Deleting (sciMeta sci)) eqn:Hd; cbn [andb].
        * rewrite bool_decide_eq_false_2 by auto. cbn [instances].
          by rewrite lookup_insert_eq.
        * cbn [instances]. by rewrite lookup_insert_eq. }
  destruct (scRunning (scSpec sc)) eqn:Hrun.
  - destruct (instances c !! key) as [sci|] eqn:Hsci.
    + intros H. specialize (Hsync sci true eq_refl H).
      by destruct (instances c' !! key).
    + assert (instances c !! instanceKey (newInstance sc) = None) as Hs'
        by exact Hsci.
      unfold createInstance. cbv zeta. rewrite Hs'.
      destruct (workloadFault _); [done|].
      destruct (apiFault _); [done|]. intros [= <- _].
      rewrite storeContainerStatus_instances. unfold addInstance.
      cbn [instances]. change (instanceKey (newInstance sc)) with key.
      by rewrite lookup_insert_eq.
  - destruct (instances c !! key) as [sci|] eqn:Hsci.
    + intros H. specialize (Hsync sci false eq_refl H).
      by destruct (instances c' !! key).
    + unfold updateStatusStopped. destruct (apiFault _); [done|].
      intros [= <- _]. by rewrite storeContainerStatus_instances, Hsci.
Qed.

(** X21: while an instance exists under the name of a workload object
    that is being deleted, a reconciliation does nothing but delete that
    instance: the object keeps its finalizer.  The object itself changes
    only when no instance is found, and a failed lookup of the instance
    ends the reconciliation with nothing changed.  No pod is touched. *)
Theorem Workload_handleDeletion_waits (c : Cluster) (req : ObjectKey)
    (sc : StoppableContainer) :
  let key := (Namespace (scMeta sc), Name (scMeta sc)) in
  let c' := (Workload.Reconcile apiFault workloadFault c req).1 in
  containers c !! req = Some sc ->
  Deleting (scMeta sc) = true ->
  pods c' = pods c /\
  (containers c' <> containers c ->
   apiFault (GetInstance key) = false /\ instances c !! key = None /\
   instances c' = instances c) /\
  (instances c' <> instances c ->
   is_Some (instances c !! key) /\ c' = deleteInstance key c /\
   containers c' = containers c).
Proof.
  intros key c' Hsc Hdel. subst c'. unfold Workload.Reconcile.
  rewrite Hsc, Hdel. unfold Workload.handleDeletion. fold key.
  destruct (workloadFault (GetContainer req)); [done|].
  destruct (negb _); [done|].
  destruct (apiFault (GetInstance key)); [done|].
  destruct (instances c !! key) as [sci|] eqn:Hsci.
  - destruct (workloadFault _); cbn [fst]; [done|].
    assert (pods (deleteInstance key c) = pods c /\
            containers (deleteInstance key c) = containers c) as [Hp Hc].
    { unfold deleteInstance. by repeat case_match. }
    repeat split; try done; by eexists.
  - destruct (workloadFault _); cbn [fst]; [done|].
    unfold storeContainer. repeat case_match; cbn; repeat split; try done.
Qed.

End WorkloadFacts.

Lemma Workload_Reconcile_created_instance_witness :
  exists sc,
    Controller.containers Workload.demoWorkloadOnly !! Controller.demoKey
    = Some sc /\
    ApiSingle.scRunning (ApiSingle.scSpec sc) = true.
Proof.
  destruct (Workload_Reconcile_created_instance Controller.noApiFault
              Workload.noWorkloadFault Workload.demoWorkloadOnly
              Controller.demoKey Controller.demoKey
              (Workload.newInstance Workload.demoWorkload))
    as (sc & Hsc & _ & Hrun & _).
  - by vm_compute.
  - by vm_compute.
  - by exists sc.
Defined.

Lemma Workload_Reconcile_mirrors_running_witness :
  match
    Controller.instances
      (Workload.Reconcile Controller.noApiFault Workload.noWorkloadFault
         Workload.demoWorkloadOnly Controller.demoKey).1
    !! (Meta.Namespace (ApiSingle.scMeta Workload.demoWorkload),
        Meta.Name (ApiSingle.scMeta Workload.demoWorkload))
  with
  | Some sci' =>
      ApiSingle.Running (ApiSingle.sciSpec sci')
      = ApiSingle.scRunning (ApiSingle.scSpec Workload.demoWorkload)
  | None => ApiSingle.scRunning (ApiSingle.scSpec Workload.demoWorkload) = false
  end.
Proof.
  apply (Workload_Reconcile_mirrors_running Controller.noApiFault
           Workload.noWorkloadFault Workload.demoWorkloadOnly _
           Controller.demoKey Workload.demoWorkload
           (Controller.mkResult false 1)).
  - by vm_compute.
  - reflexivity.
  - reflexivity.
  - intros sci H. vm_compute in H. discriminate.
  - by vm_compute.
Defined.

Lemma Workload_handleDeletion_waits_witness :
  Controller.pods
    (Workload.Reconcile Controller.noApiFault Workload.noWorkloadFault
       Workload.demoCascade Controller.demoKey).1
  = Controller.pods Workload.demoCascade.
Proof.
  apply (Workload_handleDeletion_waits Controller.noApiFault
           Workload.noWorkloadFault Workload.demoCascade Controller.demoKey
           Workload.demoWorkloadDeleting).
  - by vm_compute.
  - reflexivity.
Defined.

(* ------------------------------------------------------------------ *)
(** ** Deleting a workload object: the two controllers together *)
(* ------------------------------------------------------------------ *)

Section Cascade.
Import Meta Core Api ApiSingle Controller Workload.
Variable ExecWrapperImage : string.
Variable providerPodSpec : StoppableContainerInstance -> PodSpec.

Lemma reconcileWorkloadOnce_delete (c : Cluster) (sc : StoppableContainer)
    (sci : StoppableContainerInstance) :
  containers c !! containerKey sc = Some sc ->
  Deleting (scMeta sc) = true ->
  ContainsFinalizer (scMeta sc) FinalizerName = true ->
  instances c !! containerKey sc = Some sci ->
  reconcileWorkloadOnce (containerKey sc) c
  = deleteInstance (containerKey sc) c.
Proof.
  intros Hsc Hdel Hfin Hsci.
  unfold reconcileWorkloadOnce, Workload.Reconcile, Workload.handleDeletion.
  cbn [noWorkloadFault noApiFault]. rewrite Hsc, Hdel, Hfin. cbn [negb].
  assert (instances c !! (Namespace (scMeta sc), Name (scMeta sc)) = Some sci)
    as -> by exact Hsci.
  done.
Qed.

Lemma reconcileWorkloadOnce_release (c : Cluster) (sc : StoppableContainer) :
  containers c !! containerKey sc = Some sc ->
  Deleting (scMeta sc) = true ->
  Finalizers (scMeta sc) = [FinalizerName] ->
  instances c !! containerKey sc = None ->
  containers (reconcileWorkloadOnce (containerKey sc) c) !! containerKey sc
  = None /\
  instances (reconcileWorkloadOnce (containerKey sc) c) = instances c /\
  pods (reconcileWorkloadOnce (containerKey sc) c) = pods c.
Proof.
  intros Hsc Hdel Hfin Hsci.
  unfold reconcileWorkloadOnce, Workload.Reconcile, Workload.handleDeletion.
  cbn [noWorkloadFault noApiFault]. rewrite Hsc, Hdel.
  unfold ContainsFinalizer, RemoveFinalizer. rewrite Hfin.
  cbn [existsb List.filter]. rewrite String.eqb_refl. cbn [orb negb].
  assert (instances c !! (Namespace (scMeta sc), Name (scMeta sc)) = None)
    as -> by exact Hsci.
  cbn [fst]. unfold storeContainer.
  change (containerKey (mkStoppableContainer _ _ _)) with (containerKey sc).
  rewrite Hsc. cbn [scMeta setFinalizers Deleting Finalizers].
  rewrite Hdel. cbn. by rewrite lookup_delete_eq.
Qed.

(** X22: deleting a workload object takes five reconciliations and the
    kubelet, when no call fails.  With the object being deleted, its
    instance and the pods under [<name>-provider] and [<name>-consumer]
    still there, each object holding only the finalizer of its controller:
    one reconciliation of the workload controller, three of the instance
    controller, between which the consumer pod and then the provider pod
    come to their end, and one more of the workload controller leave
    neither the object, nor the instance, nor either pod. *)
Theorem deletion_cascade (c : Cluster) (sc : StoppableContainer)
    (sci : StoppableContainerInstance) :
  let key := containerKey sc in
  let workload := reconcileWorkloadOnce key in
  let instance := reconcileOnce ExecWrapperImage providerPodSpec key in
  let c' :=
    workload
      (instance
         (podTerminated (providerPodKey sci)
            (instance
               (podTerminated (consumerPodKey sci)
                  (instance (workload c)))))) in
  containers c !! key = Some sc ->
  Deleting (scMeta sc) = true ->
  Finalizers (scMeta sc) = [FinalizerName] ->
  instances c !! key = Some sci ->
  instanceKey sci = key ->
  Finalizers (sciMeta sci) = [SCIFinalizerName] ->
  containers c' !! key = None /\
  instances c' !! key = None /\
  pods c' !! providerPodKey sci = None /\
  pods c' !! consumerPodKey sci = None.
Proof.
  intros key workload instance c' Hsc Hdel Hfin Hsci Hkey Hsfin.
  subst c' workload instance key.
  set (key := containerKey sc) in *.
  assert (ContainsFinalizer (scMeta sc) FinalizerName = true) as Hcf
    by (unfold ContainsFinalizer; rewrite Hfin; cbn [existsb];
        by rewrite String.eqb_refl).
  assert (reconcileWorkloadOnce key c = deleteInstance key c) as ->
    by apply (reconcileWorkloadOnce_delete c sc sci Hsc Hdel Hcf Hsci).
  set (m := sciMeta sci) in *.
  set (sci1 := mkInstance
                 (mkObjectMeta (Name m) (Namespace m) (UID m) (Generation m)
                    true (Finalizers m) (Labels m) (Annotations m)
                    (OwnerReferences m))
                 (sciSpec sci) (sciStatus sci)).
  assert (deleteInstance key c
          = mkCluster (<[key := sci1]> (instances c)) (containers c) (pods c)
              (phasesWritten c)) as ->.
  { unfold deleteInstance. rewrite Hsci. fold m.
    by rewrite bool_decide_eq_false_2 by (by rewrite Hsfin). }
  set (c1 := mkCluster _ _ _ _).
  assert (instances c1 !! key = Some sci1) as H1 by apply lookup_insert_eq.
  assert (ContainsFinalizer (sciMeta sci1) SCIFinalizerName = true) as Hcf1.
  { unfold ContainsFinalizer. cbn [sci1 sciMeta Finalizers]. fold m.
    rewrite Hsfin. cbn [existsb]. by rewrite String.eqb_refl. }
  change (providerPodKey sci) with (providerPodKey sci1).
  change (consumerPodKey sci) with (consumerPodKey sci1).
  rewrite (deletion_run ExecWrapperImage providerPodSpec key sci1 Hkey
             eq_refl Hcf1 c1 H1).
  change (providerPodKey sci1) with (providerPodKey sci).
  change (consumerPodKey sci1) with (consumerPodKey sci).
  set (c3 := removePod _ (removePod _ c1)).
  assert (storeInstance (released sci1) c3
          = mkCluster (delete key (instances c1)) (containers c)
              (pods c3) (phasesWritten c)) as ->.
  { unfold storeInstance.
    change (instanceKey (released sci1)) with (instanceKey sci).
    rewrite Hkey. change (instances c3) with (instances c1). rewrite H1.
    unfold released, RemoveFinalizer. cbn [sciMeta sci1 Finalizers]. fold m.
    rewrite Hsfin. cbn [List.filter]. rewrite String.eqb_refl.
    cbn [negb setFinalizers Deleting Finalizers andb].
    by rewrite bool_decide_eq_true_2. }
  set (c4 := mkCluster _ _ _ _).
  assert (instances c4 !! key = None) as H4 by apply lookup_delete_eq.
  destruct (reconcileWorkloadOnce_release c4 sc Hsc Hdel Hfin H4)
    as (Hc5 & Hi5 & Hp5).
  fold key in Hc5, Hi5, Hp5. rewrite Hi5, Hp5.
  repeat split; try done; cbn [c4 c3 pods removePod].
  - apply lookup_delete_eq.
  - rewrite lookup_delete_ne; [apply lookup_delete_eq|].
    intros H. by apply (provider_consumer_keys_differ sci).
Qed.

End Cascade.

Lemma deletion_cascade_witness :
  Controller.containers
    (Workload.reconcileWorkloadOnce
       (Controller.containerKey Workload.demoWorkloadDeleting)
       (Controller.reconcileOnce "exec:latest" Controller.demoProviderSpec
          (Controller.containerKey Workload.demoWorkloadDeleting)
          (Controller.podTerminated
             (Controller.providerPodKey Controller.demoManaged)
             (Controller.reconcileOnce "exec:latest"
                Controller.demoProviderSpec
                (Controller.containerKey Workload.demoWorkloadDeleting)
                (Controller.podTerminated
                   (Controller.consumerPodKey Controller.demoManaged)
                   (Controller.reconcileOnce "exec:latest"
                      Controller.demoProviderSpec
                      (Controller.containerKey Workload.demoWorkloadDeleting)
                      (Workload.reconcileWorkloadOnce
                         (Controller.containerKey Workload.demoWorkloadDeleting)
                         Workload.demoCascade)))))))
  !! Controller.containerKey Workload.demoWorkloadDeleting = None.
Proof.
  apply (deletion_cascade "exec:latest"
           Controller.demoProviderSpec Workload.demoCascade
           Workload.demoWorkloadDeleting Controller.demoManaged).
  - by vm_compute.
  - reflexivity.
  - reflexivity.
  - by vm_compute.
  - reflexivity.
  - reflexivity.
Defined.


Lemma Build_labels_witness :
  Meta.Labels
    (Core.podMeta
       (Provider.ConsumerPodBuilder_Build "exec:latest" "IfNotPresent"
          Provider.demoInstance "node-1")) !! "app"
  = Meta.Labels
      (Api.tplMetadata (Api.Template (Api.sciSpec Provider.demoInstance)))
    !! "app".
Proof.
  apply (Build_labels "exec:latest" "IfNotPresent" Provider.demoInstance
           "node-1"); discriminate.
Defined.
